(** * Ulyxes: angle values, instrument session and measuring procedures

    A shallow embedding of the parts of the Ulyxes Python sources that drive
    robotic total stations:

    - [ulyxes/__init__.py]   : the [Angle] class and its unit conversions;
    - [pyapi/nmeagnssunit.py]: the NMEA sentence decoder [NmeaGnssUnit.Result];
    - [pyapi/trimble5500.py] : the decoder [Trimble5500Unit.Result] and the
      messages of the Trimble 5500;
    - [pyapi/totalstation.py]: the session ([GetMeasure], [Move], [MoveRel],
      [ChangeFace], [GetFace]);
    - [pyapi/confreader.py]  : the check of a configuration
      ([ConfReader.Check]);
    - [pyapps/measuretoprism.py]: the continuous tracking loop and its mode 5
      detector;
    - [pyapps/horizsection.py]: the horizontal section scan.

    Conventions of the embedding.

    - A Python [float] is modelled by an exact rational ([Q]); [math.pi] is the
      rational value of the IEEE double the interpreter uses.  The rounding of
      the individual floating point operations is not modelled, so equalities
      on floats are stated with [==] on [Q].
    - A Python [int] is a [Z], a [str] is a [string].
    - [float()] and [int()] are modelled on the texts that are plain
      decimal numbers (a sign, digits, one dot); texts with an exponent,
      [inf], [nan] or grouped digits, and numbers outside the range of a
      float ([in_float_range]), are outside the embedding.
    - A [dict] with string keys is a [gmap string _].
    - Code that may raise returns a [result]: [Ok v] or [Exc e].
    - The session talks to the instrument through [_process]; the replies of
      the instrument are given by a transport oracle, a function from the
      number of the call to the decoded reply and the interface state.
    - A loop with a bound of its own is given that bound as fuel; a loop
      without one is given fuel by the caller, and running out of it is a
      result of its own ([OutOfFuel]).
    - The modules [angle], [instrument] and [iface] that the session and the
      programs import are not among the sources; what is used of them
      ([GetAngle], [Positive], [_process], the interface states) is modelled
      where it is used.  The command lines of the programs are not
      modelled. *)

From Stdlib Require Import ZArith QArith Qround Qabs Lia Lqa.
From Stdlib Require Import String Ascii List.
From Stdlib Require Import DecimalString DecimalN DecimalFacts.
From Stdlib Require HexadecimalString HexadecimalN.
From stdpp Require Import gmap strings list.

Local Open Scope Z_scope.

(** ** Python values and exceptions *)

Inductive pyexc : Type :=
| ValueError
| TypeError
| KeyError
| IndexError
| AttributeError
| NameError
| ZeroDivisionError.

Inductive result (A : Type) : Type :=
| Ok (a : A)
| Exc (e : pyexc).

Arguments Ok {A} a.
Arguments Exc {A} e.

#[global] Instance result_ret : MRet result := fun _ a => Ok a.

#[global] Instance result_bind : MBind result := fun _ _ k r =>
  match r with
  | Ok a => k a
  | Exc e => Exc e
  end.

#[global] Instance result_fmap : FMap result := fun _ _ f r =>
  match r with
  | Ok a => Ok (f a)
  | Exc e => Exc e
  end.

(** A Python value; [A] is what stands for an [Angle] object: its radian
    value where objects are not shared, its address where they are. *)
Inductive pyval (A : Type) : Type :=
| VNone
| VBool (b : bool)
| VInt (z : Z)
| VFloat (x : Q)
| VStr (s : string)
| VAngle (a : A).

Arguments VNone {A}.
Arguments VBool {A} b.
Arguments VInt {A} z.
Arguments VFloat {A} x.
Arguments VStr {A} s.
Arguments VAngle {A} a.

(** [isinstance(v, (int, float))]: the number a value stands for.  A [bool]
    is an [int]. *)
Definition number_value {A : Type} (v : pyval A) : option Q :=
  match v with
  | VInt z => Some (inject_Z z)
  | VFloat x => Some x
  | VBool b => Some (if b then 1%Q else 0%Q)
  | _ => None
  end.

(** [a < b] on floats. *)
Definition Qltb (a b : Q) : bool := negb (Qle_bool b a).

(** [x / y] on floats. *)
Definition truediv (x y : Q) : result Q :=
  if Qeq_bool y 0 then Exc ZeroDivisionError else Ok (x / y)%Q.

(** The result of code with a loop that has no bound of its own: the loop is
    given fuel, and [OutOfFuel] stands for a run that is still in the loop
    when the fuel is spent. *)
Inductive outcome (A : Type) : Type :=
| Returns (a : A)
| Raises (e : pyexc)
| OutOfFuel.

Arguments Returns {A} a.
Arguments Raises {A} e.
Arguments OutOfFuel {A}.

#[global] Instance outcome_ret : MRet outcome := fun _ a => Returns a.

#[global] Instance outcome_bind : MBind outcome := fun _ _ k r =>
  match r with
  | Returns a => k a
  | Raises e => Raises e
  | OutOfFuel => OutOfFuel
  end.

Definition lift {A : Type} (r : result A) : outcome A :=
  match r with
  | Ok a => Returns a
  | Exc e => Raises e
  end.

(** ** Floats: the functions of [math] that are rational *)

Module PyMath.

(** [math.pi], the double 0x1.921fb54442d18p+1. *)
Definition pi : Q := 884279719003555 # 281474976710656.

(** [math.radians(x)] and [math.degrees(x)]. *)
Definition radians (x : Q) : Q := (x * (pi / 180))%Q.
Definition degrees (x : Q) : Q := (x * (180 / pi))%Q.

(** [int(x)] on a float: truncation toward zero. *)
Definition int_of_float (x : Q) : Z := Z.quot (Qnum x) (Z.pos (Qden x)).

(** [math.floor(x)]. *)
Definition floor (x : Q) : Z := Qfloor x.

(** [round(x)] with one argument: nearest integer, ties to the even one. *)
Definition round (x : Q) : Z :=
  let f := Qfloor x in
  match Qcompare (x - inject_Z f) (1 # 2) with
  | Lt => f
  | Gt => f + 1
  | Eq => if Z.even f then f else f + 1
  end.

(** [round(x, 10)]: ten decimals. *)
Definition round10 (x : Q) : Q :=
  (inject_Z (round (x * inject_Z (10 ^ 10))) / inject_Z (10 ^ 10))%Q.

(** [x % m] for floats with [m > 0]: the result has the sign of [m]. *)
Definition fmod (x m : Q) : Q := (x - inject_Z (Qfloor (x / m)) * m)%Q.

(** [sys.float_info.max], the largest float. *)
Definition float_max : Q := inject_Z (2 ^ 1024 - 2 ^ 971).

(** A number in the range of a float: a float that is finite, an [int]
    that is converted to a float without an [OverflowError]. *)
Definition in_float_range (x : Q) : Prop := (Qabs x <= float_max)%Q.

End PyMath.

(** ** Strings: the operations of [str], [int()], [float()], [hex()] *)

Module PyStr.

Local Open Scope string_scope.

Definition newline : ascii := ascii_of_N 10.

Definition is_digit (c : ascii) : bool :=
  let n := N_of_ascii c in ((48 <=? n) && (n <=? 57))%N.

(** The ASCII characters that [str.strip], [int] and [float] skip. *)
Definition is_space (c : ascii) : bool :=
  let n := N_of_ascii c in
  ((9 <=? n) && (n <=? 13) || (28 <=? n) && (n <=? 32))%N.

Definition is_empty (s : string) : bool :=
  match s with
  | EmptyString => true
  | String _ _ => false
  end.

Fixpoint all_chars (p : ascii -> bool) (s : string) : bool :=
  match s with
  | EmptyString => true
  | String c s' => p c && all_chars p s'
  end.

Fixpoint lstrip (s : string) : string :=
  match s with
  | EmptyString => EmptyString
  | String c s' => if is_space c then lstrip s' else s
  end.

Fixpoint rstrip (s : string) : string :=
  match s with
  | EmptyString => EmptyString
  | String c s' =>
      let r := rstrip s' in
      if is_space c && is_empty r then EmptyString else String c r
  end.

Definition strip (s : string) : string := lstrip (rstrip s).

(** [s.lower()] on ASCII letters. *)
Definition lower_char (c : ascii) : ascii :=
  let n := N_of_ascii c in
  if ((65 <=? n) && (n <=? 90))%N then ascii_of_N (n + 32) else c.

Fixpoint lower (s : string) : string :=
  match s with
  | EmptyString => EmptyString
  | String c s' => String (lower_char c) (lower s')
  end.

(** [s.split(sep)] for a separator of one character; also [re.split] with a
    pattern that is one escaped character.  The result is never empty. *)
Fixpoint split (sep : ascii) (s : string) : list string :=
  match s with
  | EmptyString => [EmptyString]
  | String c s' =>
      if Ascii.eqb c sep then EmptyString :: split sep s'
      else match split sep s' with
           | [] => [String c EmptyString]
           | x :: xs => String c x :: xs
           end
  end.

(** [s[i:j]] for [0 <= i <= j]: out of range indices are clipped. *)
Definition slice (i j : nat) (s : string) : string := substring i (j - i) s.

(** The text before and after the first occurrence of [sep]. *)
Fixpoint partition (sep : ascii) (s : string) : string * string :=
  match s with
  | EmptyString => (EmptyString, EmptyString)
  | String c s' =>
      if Ascii.eqb c sep then (EmptyString, s')
      else let '(a, b) := partition sep s' in (String c a, b)
  end.

Definition parse_sign (s : string) : bool * string :=
  match s with
  | String c r =>
      if Ascii.eqb c "-" then (true, r)
      else if Ascii.eqb c "+" then (false, r)
      else (false, s)
  | EmptyString => (false, s)
  end.

(** [int(s)] for the literals the instruments send: optional blanks around,
    an optional sign, decimal digits.  Anything else is a [ValueError]
    (digit grouping with underscores is not modelled). *)
Definition int_of_str (s : string) : result Z :=
  let '(neg, body) := parse_sign (strip s) in
  match NilZero.uint_of_string body with
  | Some d => let n := Z.of_N (N.of_uint d) in Ok (if neg then - n else n)
  | None => Exc ValueError
  end.

(** [float(s)] for the literals the instruments send: optional blanks around,
    an optional sign, digits with an optional fraction.  Anything else is a
    [ValueError] (exponents, [inf], [nan] and underscores are not
    modelled). *)
Definition float_of_str (s : string) : result Q :=
  let '(neg, body) := parse_sign (strip s) in
  let '(ip, fp) := partition "." body in
  match NilEmpty.uint_of_string ip, NilEmpty.uint_of_string fp with
  | Some i, Some f =>
      if is_empty ip && is_empty fp then Exc ValueError
      else
        let k := Z.of_nat (String.length fp) in
        let n := Z.of_N (N.of_uint i) * 10 ^ k + Z.of_N (N.of_uint f) in
        Ok (Qmake (if neg then - n else n) (Z.to_pos (10 ^ k)))
  | _, _ => Exc ValueError
  end.

(** [hex(n)] for [n >= 0]. *)
Definition hex (n : N) : string :=
  "0x" ++ HexadecimalString.NilZero.string_of_uint (N.to_hex_uint n).

(** [ord(c)]. *)
Definition ord (c : ascii) : N := N_of_ascii c.

(** The format specifications [d] and [02d]. *)
Definition fmt_d (z : Z) : string := NilZero.string_of_int (Z.to_int z).

Definition fmt_02d (z : Z) : string :=
  let s := fmt_d z in
  if (String.length s <? 2)%nat then "0" ++ s else s.

(** [s.count(c)] *)
Fixpoint count_char (c : ascii) (s : string) : nat :=
  match s with
  | EmptyString => O
  | String d s' => (if Ascii.eqb d c then 1 else 0) + count_char c s'
  end.

End PyStr.

(** ** Regular expressions, as far as [Angle.dms2rad] uses them *)

Module Regex.
Import PyStr.

Inductive regex : Type :=
| Fail
| Eps
| Chr (c : ascii)
| Digit
| Seq (r1 r2 : regex)
| Alt (r1 r2 : regex).

(** [r?] *)
Definition Opt (r : regex) : regex := Alt r Eps.

(** [r{0,n}] *)
Fixpoint upto (n : nat) (r : regex) : regex :=
  match n with
  | O => Eps
  | S n' => Opt (Seq r (upto n' r))
  end.

(** [r{lo,hi}] *)
Fixpoint Rep (lo hi : nat) (r : regex) : regex :=
  match lo with
  | O => upto hi r
  | S lo' => Seq r (Rep lo' (hi - 1) r)
  end.

(** [$] as the last item of a pattern: the end of the text, or the newline
    that ends the text. *)
Definition Dollar : regex := Opt (Chr newline).

Fixpoint nullable (r : regex) : bool :=
  match r with
  | Fail => false
  | Eps => true
  | Chr _ => false
  | Digit => false
  | Seq a b => nullable a && nullable b
  | Alt a b => nullable a || nullable b
  end.

Fixpoint deriv (c : ascii) (r : regex) : regex :=
  match r with
  | Fail => Fail
  | Eps => Fail
  | Chr d => if Ascii.eqb c d then Eps else Fail
  | Digit => if is_digit c then Eps else Fail
  | Seq a b =>
      if nullable a then Alt (Seq (deriv c a) b) (deriv c b)
      else Seq (deriv c a) b
  | Alt a b => Alt (deriv c a) (deriv c b)
  end.

(** The whole text matches [r]: what [re.search] decides for a pattern
    between [^] and [$]. *)
Fixpoint fullmatch (r : regex) (s : string) : bool :=
  match s with
  | EmptyString => nullable r
  | String c s' => fullmatch (deriv c r) s'
  end.

(** *** Notions used to reason about the matcher *)

(** A regular expression none of whose literal characters is a digit. *)
Fixpoint plain (r : regex) : bool :=
  match r with
  | Chr c => negb (is_digit c)
  | Seq a b | Alt a b => plain a && plain b
  | _ => true
  end.

(** A text with every digit replaced by [0]. *)
Definition norm (c : ascii) : ascii := if is_digit c then "0"%char else c.

Fixpoint normstr (s : string) : string :=
  match s with
  | EmptyString => EmptyString
  | String c s' => String (norm c) (normstr s')
  end.

Fixpoint zeros (k : nat) : string :=
  match k with
  | O => EmptyString
  | S k' => String "0" (zeros k')
  end.

(** A regular expression that matches no text. *)
Fixpoint dead (r : regex) : bool :=
  match r with
  | Fail => true
  | Seq a b => dead a || dead b
  | Alt a b => dead a && dead b
  | _ => false
  end.

(** The text of the groups [-g] of a DMS text, followed by [nl]. *)
Fixpoint dash_groups (gs : list string) (nl : string) : string :=
  match gs with
  | [] => nl
  | g :: gs' => String "-" (g ++ dash_groups gs' nl)
  end.

(** The items between the dashes of [d ++ dash_groups gs nl]. *)
Fixpoint pieces (d : string) (gs : list string) (nl : string) : list string :=
  match gs with
  | [] => [(d ++ nl)%string]
  | g :: gs' => d :: pieces g gs' nl
  end.

End Regex.

(** ** [ulyxes/__init__.py]: unit conversions of [Angle] *)

Module Angle.
Import PyMath PyStr Regex.

Local Open Scope Q_scope.

(** [RO = 180 * 60 * 60 / math.pi] and [PI2 = 2 * math.pi]. *)
Definition RO : Q := 180 * 60 * 60 / pi.
Definition PI2 : Q := 2 * pi.

Inductive AngleUnit : Type :=
| RAD | DEG | PDEG | GON | MIL | SEC | DMS | NMEA.

Definition deg2rad (angle : Q) : Q := radians angle.

Definition gon2rad (angle : Q) : Q := angle / 200 * pi.

(** The pattern of [dms2rad]: [^[0-9]{1,3}(-[0-9]{1,2}){0,2}$]. *)
Definition dms_pattern : regex :=
  Seq (Rep 1 3 Digit) (Seq (Rep 0 2 (Seq (Chr "-") (Rep 1 2 Digit))) Dollar).

(** The loop of [dms2rad]: [a += val / div; div *= 60] for each item. *)
Definition dms_accumulate (items : list Q) : Q * Q :=
  fold_left (fun '(a, div) val => (a + val / div, div * 60)) items (0, 1).

(** [dms2rad]: a [ValueError] unless the text matches the pattern; then
    the items between the dashes, read as floats, are accumulated. *)
Definition dms2rad (dms : string) : result Q :=
  if negb (fullmatch dms_pattern dms) then Exc ValueError
  else
    items ← mapM float_of_str (split "-" dms);
    Ok (radians (fst (dms_accumulate items))).

(** [dm2rad]: [w = angle / 100; d = int(w);
    return math.radians(d + (w - d) * 100 / 60)]. *)
Definition dm2rad (angle : Q) : Q :=
  let w := angle / 100 in
  let d := inject_Z (int_of_float w) in
  radians (d + (w - d) * 100 / 60).

Definition pdeg2rad (angle : Q) : Q :=
  let d := inject_Z (floor angle) in
  let angle := round10 ((angle - d) * 100) in
  let m := inject_Z (floor angle) in
  let s := round10 ((angle - m) * 100) in
  radians (d + m / 60 + s / 3600).

Definition sec2rad (angle : Q) : Q := angle / RO.

Definition mil2rad (angle : Q) : Q := angle / 6400 * 2 * pi.

Definition rad2gon (angle : Q) : Q := angle / pi * 200.

Definition rad2sec (angle : Q) : Q := angle * RO.

Definition rad2deg (angle : Q) : Q := degrees angle.

(** [rad2dms]: the sign, then the arcseconds rounded and split by
    [divmod], written as [{deg:d}-{mi:02d}-{sec:02d}]. *)
Definition rad2dms (angle : Q) : string :=
  let signum := if Qle_bool 0 angle then "" else "-" in
  let secs := round (Qabs angle * RO) in
  let mi := (secs / 60)%Z in
  let sec := (secs mod 60)%Z in
  let deg := (mi / 60)%Z in
  let mi := (mi mod 60)%Z in
  (signum ++ fmt_d deg ++ "-" ++ fmt_02d mi ++ "-" ++ fmt_02d sec)%string.

Definition rad2dm (angle : Q) : Q :=
  let w := angle / pi * 180 in
  let d := inject_Z (int_of_float w) in
  d * 100 + (w - d) * 60.

Definition rad2pdeg (angle : Q) : Q :=
  let secs := round (angle * RO) in
  let mi := (secs / 60)%Z in
  let sec := (secs mod 60)%Z in
  let deg := (mi / 60)%Z in
  let mi := (mi mod 60)%Z in
  inject_Z deg + inject_Z mi / 100 + inject_Z sec / 10000.

Definition rad2mil (angle : Q) : Q := angle / pi / 2 * 6400.

(** [normalize_rad]: [norm = angle % PI2], moved down by a turn when the
    caller does not ask for a positive value and [angle] is negative. *)
Definition normalize_rad (angle : Q) (positive : bool) : Q :=
  let norm := fmod angle PI2 in
  if negb positive && negb (Qle_bool 0 angle) then norm - PI2 else norm.

(** The conversion of NMEA values as the specification words it, with
    [floor]: degrees are [floor(x/100)], the remainder is minutes. *)
Definition dm2rad_floor (x : Q) : Q :=
  let d := inject_Z (floor (x / 100)) in
  radians (d + (x - 100 * d) / 60).

(** *** Checks on the fields that [rad2dms] writes *)

(** [float] reads the text [s] as the integer [z]. *)
Definition reads_as (s : string) (z : Z) : bool :=
  match float_of_str s with
  | Ok q => Z.eqb (Qnum q) z && Pos.eqb (Qden q) 1
  | Exc _ => false
  end.

(** The degrees, written with [d]: one to three digits that read back. *)
Definition deg_ok (z : Z) : bool :=
  let s := fmt_d z in
  all_chars is_digit s && (1 <=? String.length s)%nat
  && (String.length s <=? 3)%nat && reads_as s z.

(** Minutes and seconds, written with [02d]: two digits that read back. *)
Definition field_ok (z : Z) : bool :=
  let s := fmt_02d z in
  all_chars is_digit s && (String.length s =? 2)%nat && reads_as s z.

(** *** The class *)

Definition unit_of_name (name : string) : result AngleUnit :=
  if String.eqb name "RAD" then Ok RAD
  else if String.eqb name "DEG" then Ok DEG
  else if String.eqb name "PDEG" then Ok PDEG
  else if String.eqb name "GON" then Ok GON
  else if String.eqb name "MIL" then Ok MIL
  else if String.eqb name "SEC" then Ok SEC
  else if String.eqb name "DMS" then Ok DMS
  else if String.eqb name "NMEA" then Ok NMEA
  else Exc ValueError.

(** A unit argument: a member of [AngleUnit] or its name. *)
Inductive unit_arg : Type :=
| UnitTag (u : AngleUnit)
| UnitName (name : string).

Definition resolve_unit (unit : unit_arg) : result AngleUnit :=
  match unit with
  | UnitTag u => Ok u
  | UnitName name => unit_of_name name
  end.

(** [Angle.__init__]: the radian value stored in [_value]. *)
Definition __init__ {A : Type} (value : pyval A) (unit : unit_arg)
    (normalize positive : bool) : result Q :=
  u ← resolve_unit unit;
  v ← match u, value with
      | DMS, VStr s => dms2rad s
      | DMS, _ => Exc ValueError
      | _, _ =>
          match number_value value with
          | None => Exc ValueError
          | Some x =>
              Ok match u with
                 | RAD => x
                 | DEG => deg2rad x
                 | PDEG => pdeg2rad x
                 | GON => gon2rad x
                 | MIL => mil2rad x
                 | SEC => sec2rad x
                 | NMEA => dm2rad x
                 | DMS => x
                 end
          end
      end;
  Ok (if normalize then normalize_rad v positive else v).

(** [Angle.asunit]: a float, or a string for [DMS]. *)
Definition asunit {A : Type} (_value : Q) (unit : unit_arg) : result (pyval A) :=
  u ← resolve_unit unit;
  Ok match u with
     | RAD => VFloat _value
     | DEG => VFloat (rad2deg _value)
     | PDEG => VFloat (rad2pdeg _value)
     | GON => VFloat (rad2gon _value)
     | MIL => VFloat (rad2mil _value)
     | SEC => VFloat (rad2sec _value)
     | DMS => VStr (rad2dms _value)
     | NMEA => VFloat (rad2dm _value)
     end.

End Angle.

(** ** [Angle] objects: identity, sharing and update in place

    The operators of [Angle] either build a new object or update [self].
    An object is an address in a heap that holds the [_value] of every
    [Angle] created so far; a new object takes the next free address. *)

Module AngleObj.

Local Open Scope Q_scope.

Abbreviation loc := nat.
Abbreviation heap := (list Q).

(** [self._value]; an address outside the heap is no object. *)
Definition value_of (l : loc) (h : heap) : result Q :=
  match h !! l with
  | Some v => Ok v
  | None => Exc AttributeError
  end.

(** [Angle(value, unit, normalize, positive)]: run [__init__] and allocate. *)
Definition construct (value : pyval loc) (unit : Angle.unit_arg)
    (normalize positive : bool) (h : heap) : result (loc * heap) :=
  v ← Angle.__init__ value unit normalize positive;
  Ok (length h, h ++ [v]).

(** [Angle(x)] *)
Definition Angle1 (x : Q) (h : heap) : result (loc * heap) :=
  construct (VFloat x) (Angle.UnitTag Angle.RAD) false false h.

Definition __pos__ (self : loc) (h : heap) : result (loc * heap) :=
  a ← value_of self h; Angle1 a h.

Definition __neg__ (self : loc) (h : heap) : result (loc * heap) :=
  a ← value_of self h; Angle1 (- a) h.

Definition __add__ (self : loc) (other : pyval loc) (h : heap)
    : result (loc * heap) :=
  match other with
  | VAngle o => a ← value_of self h; b ← value_of o h; Angle1 (a + b) h
  | _ => Exc TypeError
  end.

Definition __iadd__ (self : loc) (other : pyval loc) (h : heap)
    : result (loc * heap) :=
  match other with
  | VAngle o =>
      a ← value_of self h; b ← value_of o h;
      Ok (self, <[self := a + b]> h)
  | _ => Exc TypeError
  end.

Definition __sub__ (self : loc) (other : pyval loc) (h : heap)
    : result (loc * heap) :=
  match other with
  | VAngle o => a ← value_of self h; b ← value_of o h; Angle1 (a - b) h
  | _ => Exc TypeError
  end.

Definition __isub__ (self : loc) (other : pyval loc) (h : heap)
    : result (loc * heap) :=
  match other with
  | VAngle o =>
      a ← value_of self h; b ← value_of o h;
      Ok (self, <[self := a - b]> h)
  | _ => Exc TypeError
  end.

(** [type(other) in (int, float)]: a [bool] is neither. *)
Definition scalar (other : pyval loc) : result Q :=
  match other with
  | VInt z => Ok (inject_Z z)
  | VFloat x => Ok x
  | _ => Exc TypeError
  end.

Definition __mul__ (self : loc) (other : pyval loc) (h : heap)
    : result (loc * heap) :=
  k ← scalar other; a ← value_of self h; Angle1 (a * k) h.

Definition __imul__ (self : loc) (other : pyval loc) (h : heap)
    : result (loc * heap) :=
  k ← scalar other; a ← value_of self h;
  Ok (self, <[self := a * k]> h).

Definition __truediv__ (self : loc) (other : pyval loc) (h : heap)
    : result (loc * heap) :=
  k ← scalar other; a ← value_of self h; q ← truediv a k; Angle1 q h.

Definition __itruediv__ (self : loc) (other : pyval loc) (h : heap)
    : result (loc * heap) :=
  k ← scalar other; a ← value_of self h; q ← truediv a k;
  Ok (self, <[self := q]> h).

(** [normalized(positive)] and [__abs__]. *)
Definition normalized (self : loc) (positive : bool) (h : heap)
    : result (loc * heap) :=
  a ← value_of self h;
  construct (VFloat a) (Angle.UnitTag Angle.RAD) true positive h.

Definition __abs__ (self : loc) (h : heap) : result (loc * heap) :=
  normalized self true h.

(** The operators, to state what they share. *)
Inductive binop : Type := Add | Sub | Mul | TrueDiv.

Definition binary (op : binop) : loc -> pyval loc -> heap -> result (loc * heap) :=
  match op with
  | Add => __add__
  | Sub => __sub__
  | Mul => __mul__
  | TrueDiv => __truediv__
  end.

Definition augmented (op : binop) : loc -> pyval loc -> heap -> result (loc * heap) :=
  match op with
  | Add => __iadd__
  | Sub => __isub__
  | Mul => __imul__
  | TrueDiv => __itruediv__
  end.

End AngleObj.

(** ** Measurements *)

(** A decoded reply: a [dict] from field names to values.  The [Angle]
    objects in it are created by the decoder for this reply and are not
    shared, so an angle is given by its radian value. *)
Abbreviation Measurement := (gmap string (pyval Q)).

(** [key in d] *)
Definition has (key : string) (d : Measurement) : bool :=
  bool_decide (is_Some (d !! key)).

(** [d[key]] *)
Definition getitem (key : string) (d : Measurement) : result (pyval Q) :=
  match d !! key with
  | Some v => Ok v
  | None => Exc KeyError
  end.

(** Modelled from the spec: the accessor [GetAngle()] of the module [angle]
    the callers import, which is not among the sources.  Without an argument
    it returns the radian value, as [Angle.asunit] does. *)
Definition GetAngle (v : pyval Q) : result Q :=
  match v with
  | VAngle a => Ok a
  | _ => Exc AttributeError
  end.

(** A value used as a number in float arithmetic. *)
Definition as_float (v : pyval Q) : result Q :=
  match number_value v with
  | Some x => Ok x
  | None => Exc TypeError
  end.

(** The accessor [GetAngle(unit)] of the module [angle], which is not
    among the sources, with the name of a unit: it is taken to give the
    value in that unit, as [Angle.asunit] gives it. *)
Definition GetAngleIn (unit : string) (v : pyval Q) : result (pyval Q) :=
  match v with
  | VAngle a => Angle.asunit a (Angle.UnitName unit)
  | _ => Exc AttributeError
  end.

(** ** [pyapi/nmeagnssunit.py] *)

Module NmeaGnssUnit.
Import PyStr.

Local Open Scope string_scope.

Definition GetCapabilities : list string := ["POSITION"].

Definition MeasureMsg : string := "GPGGA".

(** [for s in data[1:]: cksum1 ^= ord(s)] *)
Fixpoint xor_chars (s : string) (cksum1 : N) : N :=
  match s with
  | EmptyString => cksum1
  | String c s' => xor_chars s' (N.lxor cksum1 (ord c))
  end.

(** [l[i]] *)
Definition item (i : nat) (l : list string) : result string :=
  match l !! i with
  | Some x => Ok x
  | None => Exc IndexError
  end.

(** The comparison of the transmitted and the computed checksum:
    [('0x' + cksum).lower() != hex(cksum1).lower()]. *)
Definition checksum_differs (cksum : string) (cksum1 : N) : bool :=
  negb (String.eqb (lower ("0x" ++ cksum)) (lower (hex cksum1))).

(** [mul * float(field)] with [mul = 1 if hemi == pos else -1], as an
    [Angle] in NMEA units. *)
Definition signed_angle (hemi pos field : string) : result (pyval Q) :=
  let mul := if String.eqb hemi pos then 1%Q else (-1)%Q in
  x ← float_of_str field;
  a ← Angle.__init__ (VFloat (mul * x)%Q : pyval Q) (Angle.UnitName "NMEA")
        false false;
  Ok (VAngle a).

(** [Result(msg, ans)]; [date_time] is the attribute [self.date_time], which
    the method leaves as it is.  [None] is the decode failure. *)
Definition Result (date_time : pyval Q) (msg ans : string)
    : result (option Measurement) :=
  if negb (String.eqb (slice 1 (String.length msg + 1) ans) msg) then Ok None
  else
    match split "*" ans with
    | [data; cksum] =>
        let cksum1 := xor_chars (slice 1 (String.length data) data) 0%N in
        if checksum_differs cksum cksum1 then Ok None
        else
          let anslist := split "," ans in
          if String.eqb msg "GPGGA" then
            f6 ← item 6 anslist;
            fix_ ← int_of_str f6;
            if (fix_ =? 0)%Z then Ok None
            else
              f3 ← item 3 anslist;
              f2 ← item 2 anslist;
              latitude ← signed_angle f3 "N" f2;
              f5 ← item 5 anslist;
              f4 ← item 4 anslist;
              longitude ← signed_angle f5 "E" f4;
              quality ← int_of_str f6;
              f7 ← item 7 anslist;
              nsat ← int_of_str f7;
              f9 ← item 9 anslist;
              altitude ← float_of_str f9;
              f8 ← item 8 anslist;
              hdop ← float_of_str f8;
              let res : Measurement :=
                <["hdop" := VFloat hdop]>
                (<["altitude" := VFloat altitude]>
                (<["nsat" := VInt nsat]>
                (<["quality" := VInt quality]>
                (<["longitude" := longitude]>
                (<["latitude" := latitude]> ∅))))) in
              Ok (Some match date_time with
                       | VNone => <["datetime" := date_time]> res
                       | _ => res
                       end)
          else Ok (Some ∅)
    | _ => Exc ValueError
    end.

(** The checksum test on integers: the transmitted field read as a
    hexadecimal number equals the computed value. *)
Definition checksum_matches (ans : string) : bool :=
  match split "*" ans with
  | [data; cksum] =>
      match HexadecimalString.NilZero.uint_of_string (lower cksum) with
      | Some h =>
          N.eqb (N.of_hex_uint h)
                (xor_chars (slice 1 (String.length data) data) 0%N)
      | None => false
      end
  | _ => false
  end.

End NmeaGnssUnit.

(** ** [pyapi/trimble5500.py] *)

Module Trimble5500Unit.
Import PyStr.

Local Open Scope string_scope.

Definition carriage_return : ascii := ascii_of_N 13.

(** [codes]: the message codes. *)
Definition codes : list (string * Z) :=
  [("STN", 2); ("IH", 3); ("PCODE", 4); ("PNO", 5); ("SH", 6); ("HA", 7);
   ("VA", 8); ("SD", 9); ("PC", 20); ("HAREF", 21); ("SVA", 26); ("SHA", 27);
   ("PPM", 30); ("PRISMC", 32); ("NORTHING", 37); ("EASTING", 38);
   ("ELE", 39); ("TEMP", 56); ("EARAD", 58); ("REFRAC", 59);
   ("WETTEMP", 66); ("PRESS", 74)]%Z.

(** [edmModes]: the EDM modes and their codes. *)
Definition edmModes : list (string * Z) :=
  [("STANDARD", 0); ("TRACKING", 1); ("D-BAR", 2); ("FAST", 3);
   ("HRD_BAR", 4)]%Z.

(** [table[key]] *)
Fixpoint lookup_table {A : Type} (key : string) (table : list (string * A))
    : result A :=
  match table with
  | [] => Exc KeyError
  | (k, v) :: table' =>
      if String.eqb k key then Ok v else lookup_table key table'
  end.

Definition GetCapabilities : list string :=
  ["ROBOT"; "ANGLE"; "EDM"; "RL"; "LASER"; "POSITION"].

(** [c in s] for one character. *)
Fixpoint contains (c : ascii) (s : string) : bool :=
  match s with
  | EmptyString => false
  | String d s' => Ascii.eqb d c || contains c s'
  end.

(** [s.strip(chars)]: the characters of [chars] are taken off both ends. *)
Fixpoint lstrip_chars (chars : string) (s : string) : string :=
  match s with
  | EmptyString => EmptyString
  | String c s' => if contains c chars then lstrip_chars chars s' else s
  end.

Fixpoint rstrip_chars (chars : string) (s : string) : string :=
  match s with
  | EmptyString => EmptyString
  | String c s' =>
      let r := rstrip_chars chars s' in
      if contains c chars && is_empty r then EmptyString else String c r
  end.

Definition strip_chars (chars : string) (s : string) : string :=
  lstrip_chars chars (rstrip_chars chars s).

(** A [for] loop whose body may raise. *)
Fixpoint for_each {A B : Type} (body : B -> A -> result B) (l : list A)
    (b : B) : result B :=
  match l with
  | [] => Ok b
  | x :: l' => b' ← body b x; for_each body l' b'
  end.

(** [Angle(float(text), 'PDEG')] *)
Definition pdeg_angle (text : string) : result (pyval Q) :=
  x ← float_of_str text;
  a ← Angle.__init__ (VFloat x : pyval Q) (Angle.UnitName "PDEG") false false;
  Ok (VAngle a).

(** [float(text)] *)
Definition float_value (text : string) : result (pyval Q) :=
  x ← float_of_str text; Ok (VFloat x).

(** The body of [for ans1 in ansBufflist]: a line with [=] sets the field
    that its code stands for. *)
Definition decode_line (res : Measurement) (ans1 : string)
    : result Measurement :=
  if contains "=" ans1 then
    let buf :=
      split "=" (strip_chars (String carriage_return "|") ans1) in
    b0 ← NmeaGnssUnit.item 0 buf;
    commandID ← int_of_str b0;
    ha ← lookup_table "HA" codes;
    if (commandID =? ha)%Z then
      b1 ← NmeaGnssUnit.item 1 buf; x ← pdeg_angle b1;
      Ok (<["hz" := x]> res)
    else
      va ← lookup_table "VA" codes;
      if (commandID =? va)%Z then
        b1 ← NmeaGnssUnit.item 1 buf; x ← pdeg_angle b1;
        Ok (<["v" := x]> res)
      else
        sd ← lookup_table "SD" codes;
        if (commandID =? sd)%Z then
          b1 ← NmeaGnssUnit.item 1 buf; x ← float_value b1;
          Ok (<["distance" := x]> res)
        else
          easting ← lookup_table "EASTING" codes;
          if (commandID =? easting)%Z then
            b1 ← NmeaGnssUnit.item 1 buf; x ← float_value b1;
            Ok (<["east" := x]> res)
          else
            northing ← lookup_table "NORTHING" codes;
            if (commandID =? northing)%Z then
              b1 ← NmeaGnssUnit.item 1 buf; x ← float_value b1;
              Ok (<["north" := x]> res)
            else
              ele ← lookup_table "ELE" codes;
              if (commandID =? ele)%Z then
                b1 ← NmeaGnssUnit.item 1 buf; x ← float_value b1;
                Ok (<["elev" := x]> res)
              else Ok res
  else Ok res.

(** The fields that [Result] sets, with the type of their values: the two
    angles, and four numbers. *)
Definition decoded_field (key : string) (v : pyval Q) : bool :=
  match v with
  | VAngle _ => bool_decide (key ∈ ["hz"; "v"])
  | VFloat _ => bool_decide (key ∈ ["distance"; "east"; "north"; "elev"])
  | _ => false
  end.

Definition decoded (res : Measurement) : Prop :=
  forall k v, res !! k = Some v -> decoded_field k v = true.

(** A text without the characters that separate parts, lines, and codes
    from values. *)
Definition plain_value (s : string) : bool :=
  all_chars
    (fun c => negb (contains c (String "|" (String "=" (String carriage_return
                                 (String newline ""))))))
    s.

(** A value in pseudo degrees with four decimals, below 8192 degrees in
    size. *)
Definition pdeg_reading (x : Q) : Prop :=
  exists k : Z,
    (-81920000 <= k < 81920000)%Z /\ (x == inject_Z k / 10000)%Q.

(** The body of [for msg, ans in zip(msgList, ansList)]. *)
Definition decode_part (res : Measurement) (part : string * string)
    : result Measurement :=
  let '(msg, ans) := part in
  if (String.length (strip msg) =? 0)%nat then Ok res
  else for_each decode_line (split newline ans) res.

(** [Result(msgs, anss)] *)
Definition Result (msgs anss : string) : result Measurement :=
  let msgList := split "|" msgs in
  let ansList := split "|" anss in
  for_each decode_part (zip msgList ansList) ∅.

(** [f"RG,{self.codes[name]}"] *)
Definition RG (name : string) : result string :=
  code ← lookup_table name codes; Ok ("RG," ++ fmt_d code).

(** ["|".join(parts)] *)
Fixpoint join (sep : string) (parts : list string) : string :=
  match parts with
  | [] => ""
  | [p] => p
  | p :: parts' => p ++ sep ++ join sep parts'
  end.

(** The messages that ask for values: one [RG,code] for each. *)
Definition read_msg (names : list string) : result string :=
  parts ← mapM RG names; Ok (join "|" parts).

Definition GetPcMsg : result string := read_msg ["PC"].
Definition GetAtmCorrMsg : result string := read_msg ["PPM"].
Definition GetRefCorrMsg : result string := read_msg ["EARAD"; "REFRAC"].
Definition GetStationMsg : result string :=
  read_msg ["EASTING"; "NORTHING"; "ELE"; "IH"].
Definition CoordsMsg : result string :=
  read_msg ["NORTHING"; "EASTING"; "ELE"].
Definition GetAnglesMsg : result string := read_msg ["HA"; "VA"].

Definition MeasureMsg : string := "TG".
Definition GetMeasureMsg : string := "RG".
Definition MeasureDistAngMsg : string := "TG|RG".

(** [ChangeFaceMsg()] returns [None]. *)
Definition ChangeFaceMsg : option string := None.

(** The argument of [SetEDMModeMsg]: the name of a mode or its code. *)
Inductive edm_mode : Type :=
| ModeName (name : string)
| ModeCode (code : Z).

(** [SetEDMModeMsg(mode)]: the message and the new value of
    [self.edmMode]. *)
Definition SetEDMModeMsg (mode : edm_mode) : result (string * Z) :=
  edmMode ← match mode with
            | ModeName name => lookup_table name edmModes
            | ModeCode code => Ok code
            end;
  Ok ("PG,3" ++ fmt_d edmMode, edmMode).

(** [GetEDMModeMsg()] returns [self.edmMode]. *)
Definition GetEDMModeMsg (edmMode : Z) : Z := edmMode.

End Trimble5500Unit.

(** ** The instrument behind the session *)

(** Modelled from the spec: the states of the Transport ([iface.py] is not
    among the sources); the sources only name [IF_OK]. *)
Inductive TransportState : Type :=
| IF_OK
| IF_TIMEOUT
| IF_EOF
| IF_FILE
| IF_SOURCE.

Definition state_ok (s : TransportState) : bool :=
  match s with
  | IF_OK => true
  | _ => false
  end.

(** The measure units. *)
Inductive MeasureUnit : Type :=
| LeicaTPS1200
| LeicaTCRA1100
| Trimble5500.

(** A message built by the measure unit: the method that builds it and its
    arguments.  Angles are given by their radian value. *)
Inductive Msg : Type :=
| SetEDMModeMsg (mode : string)
| SetLockMsg (lock : Z)
| SetATRMsg (atr : Z)
| LockInMsg
| MoveMsg (hz v : Q) (atr : Z)
| MeasureMsg (prg : string) (incl : Z)
| GetMeasureMsg (wait incl : Z)
| CoordsMsg (wait incl : Z)
| GetAnglesMsg
| ChangeFaceMsg
| SetRedLaserMsg (on : Z).

(** [measureUnit.ChangeFaceMsg()]: [Trimble5500] returns [None]; the Leica
    units have the message [CHANGEFACE] in their tables. *)
Definition ChangeFaceMsg_of (mu : MeasureUnit) : option Msg :=
  match mu with
  | Trimble5500 => None
  | _ => Some ChangeFaceMsg
  end.

(** [measureUnit.SetRedLaserMsg(on)]: [Trimble5500] has no such method. *)
Definition SetRedLaserMsg_of (mu : MeasureUnit) (on : Z) : result Msg :=
  match mu with
  | Trimble5500 => Exc AttributeError
  | _ => Ok (SetRedLaserMsg on)
  end.

(** What a run has done so far. *)
Record world : Type := mkWorld {
  calls : nat;                    (* round trips made through [_process] *)
  sent : list Msg;                (* the messages of these round trips *)
  state : TransportState;         (* [measureIface.state] *)
  slept : Z;                      (* seconds spent in [time.sleep] *)
  written : list Measurement;     (* records given to [wrt.WriteData] *)
  logged : list string            (* [logging] and [print] lines *)
}.

Definition world0 : world := mkWorld 0 [] IF_OK 0 [] [].

Definition set_state (s : TransportState) (w : world) : world :=
  mkWorld (calls w) (sent w) s (slept w) (written w) (logged w).

(** [time.sleep(sec)] *)
Definition sleep (sec : Z) (w : world) : world :=
  mkWorld (calls w) (sent w) (state w) (slept w + sec) (written w) (logged w).

(** [wrt.WriteData(rec)] *)
Definition WriteData (rec : Measurement) (w : world) : world :=
  mkWorld (calls w) (sent w) (state w) (slept w) (written w ++ [rec]) (logged w).

(** [logging.warning(line)], [logging.error(line)], [print(line)] *)
Definition log (line : string) (w : world) : world :=
  mkWorld (calls w) (sent w) (state w) (slept w) (written w) (logged w ++ [line]).

(** The reply to a round trip: the decoded Measurement and the state of the
    interface after it. *)
Definition reply : Type := Measurement * TransportState.

(** ** [pyapi/totalstation.py] *)

Module TotalStation.

Local Open Scope Q_scope.

Section Session.

(** The measure unit of the session, and the transport: the reply to the
    round trip number [k] of the run. *)
Variable mu : MeasureUnit.
Variable transport : nat -> reply.

(** Modelled from the spec: [Instrument._process] ([instrument.py] is not
    among the sources): send the message through the transport, read the
    reply, decode it and return the Measurement.  The session is built
    without a writer. *)
Definition _process (msg : Msg) (w : world) : Measurement * world :=
  let '(meas, st) := transport (calls w) in
  (meas,
   mkWorld (S (calls w)) (sent w ++ [msg]) st (slept w) (written w) (logged w)).

Definition SetEDMMode (mode : string) (w : world) : Measurement * world :=
  _process (SetEDMModeMsg mode) w.

Definition SetLock (lock : Z) (w : world) : Measurement * world :=
  _process (SetLockMsg lock) w.

Definition SetATR (atr : Z) (w : world) : Measurement * world :=
  _process (SetATRMsg atr) w.

Definition LockIn (w : world) : Measurement * world :=
  _process LockInMsg w.

(** Modelled from the spec: [Positive()] of the module [angle], which is not
    among the sources; [Move] calls it because total stations do not accept
    negative angles.  A negative value is moved into [0, 2π), as
    [Angle.normalize_rad] does with [positive]. *)
Definition Positive (a : Q) : Q :=
  if Qle_bool 0 a then a else Angle.normalize_rad a true.

(** [Move(hz, v, atr)] *)
Definition Move (hz v : Q) (atr : Z) (w : world) : Measurement * world :=
  let hz := Positive hz in
  let v := Positive v in
  _process (MoveMsg hz v atr) w.

(** [Measure(prg, incl)]; the EDM program tables are not among the sources,
    the message keeps the name of the program. *)
Definition Measure (prg : string) (incl : Z) (w : world) : Measurement * world :=
  _process (MeasureMsg prg incl) w.

(** The loop of [GetMeasure]:
    [while 'distance' not in meas and i < 20: i += 1; time.sleep(2);
     meas = self._process(msg)].
    It runs at most 20 times, which is the fuel [GetMeasure] gives it. *)
Fixpoint GetMeasure_while (fuel : nat) (msg : Msg) (i : Z) (meas : Measurement)
    (w : world) : Measurement * world :=
  match fuel with
  | O => (meas, w)
  | S fuel' =>
      if negb (has "distance" meas) && (i <? 20)%Z then
        let i := (i + 1)%Z in
        let w := sleep 2 w in
        let '(meas, w) := _process msg w in
        GetMeasure_while fuel' msg i meas w
      else (meas, w)
  end.

Definition GetMeasure (wait incl : Z) (w : world) : Measurement * world :=
  let msg := GetMeasureMsg wait incl in
  let i := 0%Z in
  let '(meas, w) := _process msg w in
  GetMeasure_while 20 msg i meas w.

Definition Coords (wait incl : Z) (w : world) : Measurement * world :=
  _process (CoordsMsg wait incl) w.

Definition GetAngles (w : world) : Measurement * world :=
  _process GetAnglesMsg w.

(** [ChangeFace]: with no message of the unit, read the angles, add 180
    degrees to [hz] in place, replace [v] by 360 degrees minus [v], move. *)
Definition ChangeFace (w : world) : result (Measurement * world) :=
  match ChangeFaceMsg_of mu with
  | None =>
      let '(angles, w) := GetAngles w in
      hz0 ← getitem "hz" angles;
      d180 ← Angle.__init__ (VInt 180 : pyval Q) (Angle.UnitName "DEG") false false;
      hz ← match hz0 with
           | VAngle a => Ok (a + d180)
           | _ => Exc TypeError
           end;
      let angles := <["hz" := VAngle hz]> angles in
      d360 ← Angle.__init__ (VInt 360 : pyval Q) (Angle.UnitName "DEG") false false;
      v0 ← getitem "v" angles;
      v ← match v0 with
          | VAngle a => Ok (d360 - a)
          | _ => Exc TypeError
          end;
      let angles := <["v" := VAngle v]> angles in
      Ok (Move hz v 0 w)
  | Some msg => Ok (_process msg w)
  end.

(** [SetRedLaser(on)] *)
Definition SetRedLaser (on : Z) (w : world) : result (Measurement * world) :=
  msg ← SetRedLaserMsg_of mu on;
  Ok (_process msg w).

(** [MoveRel(hz_rel, v_rel, atr)]: [None] when an angle is missing. *)
Definition MoveRel (hz_rel v_rel : Q) (atr : Z) (w : world)
    : result (option Measurement * world) :=
  let '(res, w) := _process GetAnglesMsg w in
  if has "hz" res && has "v" res then
    hz0 ← getitem "hz" res;
    hz ← match hz0 with
         | VAngle a => Ok (a + hz_rel)
         | _ => Exc TypeError
         end;
    v0 ← getitem "v" res;
    v ← match v0 with
        | VAngle a => Ok (a + v_rel)
        | _ => Exc TypeError
        end;
    let '(ans, w) := Move hz v atr w in
    Ok (Some ans, w)
  else Ok (None, w).

Definition FACE_LEFT : Z := 0.
Definition FACE_RIGHT : Z := 1.
Definition FACE_AVG : Z := 2.

(** [GetFace]: the face by the zenith angle, [None] when it is not read. *)
Definition GetFace (w : world) : result (option Measurement * world) :=
  let '(a, w) := GetAngles w in
  if has "v" a then
    v ← getitem "v" a;
    gon ← GetAngleIn "GON" v ≫= as_float;
    let face := if Qltb gon 200 then FACE_LEFT else FACE_RIGHT in
    Ok (Some (<["face" := VInt face]> ∅), w)
  else Ok (None, log " Getangles failed" w).

End Session.

End TotalStation.

(** ** [pyapps/measuretoprism.py]: the continuous tracking loop *)

Module MeasureToPrism.
Import TotalStation.

Local Open Scope Q_scope.

(** The variables of the main program.  [measurement], [hz] and [v] are
    unbound until they are first assigned. *)
Record tracker : Type := mkTracker {
  mode : Z;
  slopeDist : pyval Q;
  measurement : option Measurement;
  hz : option (pyval Q);
  v : option (pyval Q);
  last_hz : pyval Q;
  last_v : pyval Q;
  prev_hz : pyval Q;
  prev_v : pyval Q;
  moving : bool;
  limit : Q;
  n : Z
}.

Definition set_measurement (m : Measurement) (t : tracker) : tracker :=
  mkTracker (mode t) (slopeDist t) (Some m) (hz t) (v t) (last_hz t) (last_v t)
            (prev_hz t) (prev_v t) (moving t) (limit t) (n t).

Definition set_n (k : Z) (t : tracker) : tracker :=
  mkTracker (mode t) (slopeDist t) (measurement t) (hz t) (v t) (last_hz t)
            (last_v t) (prev_hz t) (prev_v t) (moving t) (limit t) k.

Definition set_moving (b : bool) (t : tracker) : tracker :=
  mkTracker (mode t) (slopeDist t) (measurement t) (hz t) (v t) (last_hz t)
            (last_v t) (prev_hz t) (prev_v t) b (limit t) (n t).

Definition set_prev (phz pv : pyval Q) (t : tracker) : tracker :=
  mkTracker (mode t) (slopeDist t) (measurement t) (hz t) (v t) (last_hz t)
            (last_v t) phz pv (moving t) (limit t) (n t).

Definition set_last (lhz lv : pyval Q) (t : tracker) : tracker :=
  mkTracker (mode t) (slopeDist t) (measurement t) (hz t) (v t) lhz lv
            (prev_hz t) (prev_v t) (moving t) (limit t) (n t).

(** The EDM mode tables of the units. *)
Definition edmModes (mu : MeasureUnit) : list string :=
  match mu with
  | Trimble5500 => ["STANDARD"; "TRACKING"; "D-BAR"; "FAST"; "HRD_BAR"]
  | _ => ["RTSTANDARD"; "STANDARD"; "FAST"; "LRSTANDARD"; "RLSTANDARD";
          "TRACK"; "RLTRACK"; "TRACK2"; "AVERAGING"; "RLAVERAGING";
          "LRAVERAGING"]
  end%string.

(** What the part of a cycle that depends on the mode ends with:
    [continue], or the step all modes share. *)
Inductive flow : Type :=
| Continue (t : tracker) (w : world)
| Store (t : tracker) (w : world).

Section Tracking.

Variable mu : MeasureUnit.
Variable transport : nat -> reply.

(** [math.sin] and [math.cos]. *)
Variable sin cos : Q -> Q.

(** [abs(a.GetAngle() - measurement[key].GetAngle()) < limit.GetAngle()] *)
Definition within (a : pyval Q) (key : string) (m : Measurement) (lim : Q)
    : result bool :=
  x ← GetAngle a;
  b ← getitem key m;
  y ← GetAngle b;
  Ok (Qltb (Qabs (x - y)) lim).

(** The program up to the loop. *)
Definition init (mode : Z) (edm : string) (w : world) : result (tracker * world) :=
  let slopeDist : pyval Q := VInt 0 in
  let edm := if bool_decide (edm ∈ edmModes mu) then edm else "FAST"%string in
  let '(_, w) := SetEDMMode transport edm w in
  let unbound := mkTracker mode slopeDist None None None VNone VNone VNone VNone
                           false 0 0 in
  if (0 <? mode)%Z then
    let '(_, w) := SetLock transport 0 w in
    let '(_, w) := SetATR transport 1 w in
    '(_, w) ← MoveRel transport 0 0 1 w;
    let '(_, w) := Measure transport "DEFAULT" 0 w in
    let '(measurement, w) := GetMeasure transport 15000 0 w in
    slopeDist ← (if has "distance" measurement
                 then getitem "distance" measurement else Ok slopeDist);
    let t := mkTracker mode slopeDist (Some measurement) None None VNone VNone
                       VNone VNone false 0 0 in
    if bool_decide (mode ∈ [3; 4; 5]%Z) then
      let '(_, w) := SetLock transport 1 w in
      let '(_, w) := LockIn transport w in
      if (mode =? 5)%Z then
        last_hz ← getitem "hz" measurement;
        last_v ← getitem "v" measurement;
        prev_hz ← getitem "hz" measurement;
        prev_v ← getitem "v" measurement;
        limit ← Angle.__init__ (VStr "0-03-00" : pyval Q) (Angle.UnitName "DMS")
                  false false;
        Ok (mkTracker mode slopeDist (Some measurement) None None
                      last_hz last_v prev_hz prev_v true limit 0, w)
      else Ok (t, w)
    else Ok (t, w)
  else
    (* try: ts.SetATR(0) except: pass *)
    let '(_, w) := SetATR transport 0 w in
    Ok (unbound, w).

(** Mode 5, [go and stop]: the body of [elif mode == 5]. *)
Definition mode5 (t : tracker) (w : world) : result flow :=
  let '(measurement, w) := GetAngles transport w in
  let t := set_measurement measurement t in
  if moving t then
    c1 ← within (prev_hz t) "hz" measurement (limit t);
    c2 ← (if (c1 : bool) then within (prev_v t) "v" measurement (limit t) else Ok false);
    if (c2 : bool) then
      let t := set_n (n t + 1)%Z t in
      if (n t <=? 3)%Z then Ok (Continue t w)
      else
        let '(_, w) := Measure transport "DEFAULT" 0 w in
        let '(measurement, w) := GetMeasure transport 15000 0 w in
        let t := set_measurement measurement t in
        let t := set_moving false t in
        last_hz ← getitem "hz" measurement;
        last_v ← getitem "v" measurement;
        let t := set_last last_hz last_v t in
        prev_hz ← getitem "hz" measurement;
        prev_v ← getitem "v" measurement;
        let t := set_prev prev_hz prev_v t in
        let t := set_n 0 t in
        Ok (Store t w)
    else
      prev_hz ← getitem "hz" measurement;
      prev_v ← getitem "v" measurement;
      Ok (Continue (set_prev prev_hz prev_v t) w)
  else
    c1 ← within (last_hz t) "hz" measurement (limit t);
    c2 ← (if (c1 : bool) then within (last_v t) "v" measurement (limit t) else Ok false);
    (* [a >= limit or b >= limit] is [not (a < limit and b < limit)] *)
    if negb (c2 : bool) then Ok (Continue (set_moving true t) w)
    else Ok (Continue t w).

(** The measurement of one cycle, by mode. *)
Definition measure (t : tracker) (w : world) : result flow :=
  if (mode t =? 0)%Z then
    let '(_, w) := Measure transport "DEFAULT" 0 w in
    let '(measurement, w) := GetMeasure transport 15000 0 w in
    Ok (Store (set_measurement measurement t) w)
  else if (mode t =? 1)%Z then
    '(_, w) ← MoveRel transport 0 0 1 w;
    let '(_, w) := Measure transport "DEFAULT" 0 w in
    let '(measurement, w) := GetMeasure transport 15000 0 w in
    Ok (Store (set_measurement measurement t) w)
  else if (mode t =? 2)%Z then
    '(_, w) ← MoveRel transport 0 0 1 w;
    let '(measurement, w) := GetAngles transport w in
    Ok (Store (set_measurement measurement t) w)
  else if (mode t =? 3)%Z then
    let '(measurement, w) := GetAngles transport w in
    Ok (Store (set_measurement measurement t) w)
  else if (mode t =? 4)%Z then
    let '(_, w) := Measure transport "DEFAULT" 0 w in
    let '(measurement, w) := GetMeasure transport 15000 0 w in
    Ok (Store (set_measurement measurement t) w)
  else if (mode t =? 5)%Z then mode5 t w
  else Ok (Store t w).

(** The step all modes share: keep the last distance and angles, compute
    the coordinates, store the record. *)
Definition store (t : tracker) (w : world) : result (tracker * world) :=
  match measurement t with
  | None => Exc NameError
  | Some measurement =>
      slopeDist ← (if has "distance" measurement
                   then getitem "distance" measurement else Ok (slopeDist t));
      hz ← (if has "hz" measurement
            then Some <$> getitem "hz" measurement else Ok (hz t));
      v ← (if has "v" measurement
           then Some <$> getitem "v" measurement else Ok (v t));
      let t' (m : Measurement) := mkTracker (mode t) slopeDist (Some m) hz v (last_hz t)
                            (last_v t) (prev_hz t) (prev_v t) (moving t)
                            (limit t) (n t) in
      if has "hz" measurement && has "v" measurement then
        match hz, v with
        | Some hz_, Some v_ =>
            zenith ← GetAngle v_;
            d ← as_float slopeDist;
            dir ← GetAngle hz_;
            let east := d * sin zenith * sin dir in
            let north := d * sin zenith * cos dir in
            let elev := d * cos zenith in
            let measurement :=
              <["elev" := VFloat elev]>
              (<["north" := VFloat north]>
              (<["east" := VFloat east]> measurement)) in
            Ok (t' measurement, WriteData measurement w)
        | _, _ => Exc NameError
        end
      else
        Ok (t' measurement, log "Some measurement data(s) are missing..." w)
  end.

(** One turn of [while ts.measureIface.state == ts.measureIface.IF_OK]. *)
Definition cycle (t : tracker) (w : world) : result (tracker * world) :=
  f ← measure t w;
  match f with
  | Continue t w => Ok (t, w)
  | Store t w => store t w
  end.

(** The first [k] turns of the loop, as far as the interface stays in the
    state [IF_OK]. *)
Fixpoint cycles (k : nat) (t : tracker) (w : world) : result (tracker * world) :=
  match k with
  | O => Ok (t, w)
  | S k' =>
      if state_ok (state w) then
        '(t, w) ← cycle t w;
        cycles k' t w
      else Ok (t, w)
  end.

End Tracking.

(** The messages of distance measurements and angle reads. *)
Definition reads : list Msg :=
  [MeasureMsg "DEFAULT" 0; GetMeasureMsg 15000 0; GetAnglesMsg].

(** [w'] comes after [w] by measurements and reads only. *)
Definition only_reads (w w' : world) : Prop :=
  exists l, sent w' = sent w ++ l /\ Forall (fun m => In m reads) l.

End MeasureToPrism.

(** ** [pyapps/horizsection.py]: the horizontal section *)

Module HorizSection.
Import TotalStation.

Local Open Scope Q_scope.

(** The file is written for Python 2 ([raw_input], the sum of two
    [items()]); the measure units it loads need Python 3.  Where the two
    differ the interpreter is a parameter. *)
Inductive python : Type :=
| Python2
| Python3.

(** [dict(a.items() + b.items())]: in Python 2 the dictionary with the
    fields of both, those of [b] first; in Python 3 the sum of two views
    is a [TypeError]. *)
Definition items_plus (py : python) (a b : Measurement) : result Measurement :=
  match py with
  | Python2 => Ok (b ∪ a)
  | Python3 => Exc TypeError
  end.

(** The attributes of [HorizontalSection], but the session. *)
Record HorizontalSection : Type := mkHorizontalSection {
  elev : option Q;
  hz_start : option Q;
  stepinterval : Q;
  maxa : Q;
  maxiter : Z;
  tol : Q
}.

Section Run.

Variable py : python.
Variable mu : MeasureUnit.
Variable transport : nat -> reply.

(** [math.cos] and [math.acos] on its domain. *)
Variable cos acos : Q -> Q.

Variable self : HorizontalSection.

(** [math.acos(x)]: a [ValueError] outside [-1, 1]. *)
Definition math_acos (x : Q) : result Q :=
  if Qltb 1 (Qabs x) then Exc ValueError else Ok (acos x).

(** [math.cos(p['v'].GetAngle()) * p['distance']] *)
Definition height_of (p : Measurement) : result Q :=
  zenith ← getitem "v" p ≫= GetAngle;
  distance ← getitem "distance" p ≫= as_float;
  Ok (cos zenith * distance).

(** [while 'distance' not in nextp: time.sleep(2);
     nextp = self.ts.GetMeasure()] *)
Fixpoint wait_distance (fuel : nat) (nextp : Measurement) (wd : world)
    : outcome (Measurement * world) :=
  if negb (has "distance" nextp) then
    match fuel with
    | O => OutOfFuel
    | S fuel' =>
        let wd := sleep 2 wd in
        let '(nextp, wd) := GetMeasure transport 15000 0 wd in
        wait_distance fuel' nextp wd
    end
  else Returns (nextp, wd).

(** [while abs(height-height0) > self.tol: ...], looking for the right
    elevation.  The result is [nextp], the flag [w] and the world. *)
Fixpoint elevation_while (fuel : nat) (height0 height : Q) (index : Z)
    (nextp : Measurement) (w : bool) (wd : world)
    : outcome (Measurement * bool * world) :=
  if Qltb (tol self) (Qabs (height - height0)) then
    match fuel with
    | O => OutOfFuel
    | S fuel' =>
        let w := true in
        zenith ← lift (getitem "v" nextp ≫= GetAngle);
        distance ← lift (getitem "distance" nextp ≫= as_float);
        zenith1 ← lift (truediv height0 distance ≫= math_acos);
        '(_, wd) ← lift (MoveRel transport 0 (zenith1 - zenith) 0 wd);
        let '(_, wd) := Measure transport "DEFAULT" 0 wd in
        let index := (index + 1)%Z in
        if (maxiter self <? index)%Z || negb (state_ok (state wd)) then
          let w := false in
          let wd := set_state IF_OK wd in
          let wd := log "Missing measurement" wd in
          Returns (nextp, w, wd)
        else
          let '(nextp, wd) := GetMeasure transport 15000 0 wd in
          '(nextp, wd) ← wait_distance fuel' nextp wd;
          if negb (has "v" nextp) || negb (has "distance" nextp) then
            Returns (nextp, w, wd)
          else
            height ← lift (height_of nextp);
            elevation_while fuel' height0 height index nextp w wd
    end
  else Returns (nextp, w, wd).

(** [self.ts.MoveRel(self.stepinterval, Angle(0))] *)
Definition next_direction (wd : world) : outcome world :=
  '(_, wd) ← lift (MoveRel transport (stepinterval self) 0 0 wd);
  Returns wd.

(** One turn of [while act.GetAngle() < self.maxa]: the loop variables are
    [act] and the flag [w]. *)
Definition point (fuel : nat) (height0 act : Q) (w : bool) (wd : world)
    : outcome (Q * bool * world) :=
  let '(_, wd) := Measure transport "DEFAULT" 0 wd in
  if negb (state_ok (state wd)) then
    wd ← next_direction (set_state IF_OK wd);
    Returns (act, w, wd)
  else
    let wd := match mu with Trimble5500 => sleep 5 wd | _ => wd end in
    let '(nextp, wd) := GetMeasure transport 15000 0 wd in
    if negb (state_ok (state wd)) then
      wd ← next_direction (set_state IF_OK wd);
      Returns (act, w, wd)
    else if negb (has "v" nextp) || negb (has "distance" nextp)
            || negb (has "hz" nextp) then
      wd ← next_direction wd;
      Returns (act, w, wd)
    else
      height ← lift (height_of nextp);
      let index := 0%Z in
      '(nextp, w, wd) ← elevation_while fuel height0 height index nextp w wd;
      wd ← (if has "distance" nextp && w then
              let '(coord, wd) := Coords transport 15000 0 wd in
              res ← lift (items_plus py nextp coord);
              Returns (WriteData res wd)
            else Returns wd);
      wd ← next_direction wd;
      Returns (act + stepinterval self, w, wd).

(** The loop around the circle; [turns] bounds the number of its turns. *)
Fixpoint around (turns fuel : nat) (height0 act : Q) (w : bool) (wd : world)
    : outcome (Q * bool * world) :=
  if Qltb act (maxa self) then
    match turns with
    | O => OutOfFuel
    | S turns' =>
        '(act, w, wd) ← point fuel height0 act w wd;
        around turns' fuel height0 act w wd
    end
  else Returns (act, w, wd).

(** [while 'distance' not in startp and i < 20: ...] *)
Fixpoint startp_while (fuel : nat) (i : Z) (startp : Measurement) (wd : world)
    : Measurement * world :=
  match fuel with
  | O => (startp, wd)
  | S fuel' =>
      if negb (has "distance" startp) && (i <? 20)%Z then
        let i := (i + 1)%Z in
        let wd := sleep 2 wd in
        let '(startp, wd) := GetMeasure transport 15000 0 wd in
        startp_while fuel' i startp wd
      else (startp, wd)
  end.

(** [run]: the value returned, [1] when the start point cannot be
    measured, and the world.  The three [print] of the angles before the
    first move are left out. *)
Definition run (turns fuel : nat) (wd : world) : outcome (Z * world) :=
  let '(_, wd) := Measure transport "DEFAULT" 0 wd in
  wd ← match hz_start self with
       | Some start =>
           let '(a, wd) := GetAngles transport wd in
           zenith ← lift (getitem "v" a ≫= GetAngle);
           let '(_, wd) := Move transport start zenith 0 wd in
           Returns wd
       | None => Returns wd
       end;
  let '(startp, wd) := GetMeasure transport 15000 0 wd in
  let '(startp, wd) := startp_while 20 0 startp wd in
  if negb (state_ok (state wd)) || has "errorCode" startp then
    Returns (1%Z, log "FATAL Cannot measure startpoint" wd)
  else
    height0 ← match elev self with
              | None => lift (height_of startp)
              | Some e => Returns e
              end;
    let w := true in
    (* try: self.ts.SetRedLaser(1) except: pass *)
    let wd := match SetRedLaser mu transport 1 wd with
              | Ok (_, wd') => wd'
              | Exc _ => wd
              end in
    let act := 0 in
    '(act, w, wd) ← around turns fuel height0 act w wd;
    hz ← lift (getitem "hz" startp ≫= GetAngle);
    zenith ← lift (getitem "v" startp ≫= GetAngle);
    let '(_, wd) := Move transport hz zenith 0 wd in
    Returns (0%Z, wd).

End Run.

End HorizSection.

(** ** [pyapi/confreader.py]: the check of a configuration

    The values of a configuration are whatever the JSON reader has loaded;
    [Check] asks for their type, compares them with the values of a [set]
    and asks the file system about them.  These three are the parameters of
    the model.  A [dict] is the list of its items in the order of insertion,
    which is the order of [for par in d]. *)

Module ConfReader.

Local Open Scope string_scope.

(** [type(v)]: the types that JSON values have, and any other type by
    its name ([unicode] or [long] under Python 2). *)
Inductive pytype : Type :=
| TNone | TBool | TInt | TFloat | TStr | TList | TDict
| TOther (name : string).

Definition pytype_eqb (a b : pytype) : bool :=
  match a, b with
  | TNone, TNone | TBool, TBool | TInt, TInt | TFloat, TFloat
  | TStr, TStr | TList, TList | TDict, TDict => true
  | TOther a, TOther b => String.eqb a b
  | _, _ => false
  end.

(** A line of the log. *)
Inductive logline : Type :=
| error (text : string)
| warning (text : string).

(** [key in d] and [d[key]] on the items of a [dict]. *)
Fixpoint get {A : Type} (key : string) (d : list (string * A)) : option A :=
  match d with
  | [] => None
  | (k, v) :: d' => if String.eqb k key then Some v else get key d'
  end.

Definition mem {A : Type} (key : string) (d : list (string * A)) : bool :=
  match get key d with
  | Some _ => true
  | None => false
  end.

Section Values.

Variable V : Type.
Variable type_of : V -> pytype.          (* [type(v)] *)
Variable py_eq : V -> V -> bool.         (* [v == w] *)
Variable isfile : V -> result bool.      (* [os.path.isfile(v)] *)

(** The definition of a parameter: the keys [required], [default], [type]
    and [set] of its [dict], each absent or with its value. *)
Record pardef : Type := mkPardef {
  required : option bool;
  default : option V;
  type_ : option string;
  set_ : option (list V)
}.

(** The first loop: a required parameter that is missing ends the check;
    a missing parameter with a default is set to it. *)
Fixpoint Check_required (pars : list (string * pardef))
    (json : list (string * V)) (log : list logline)
    : result (bool * list (string * V) * list logline) :=
  match pars with
  | [] => Ok (true, json, log)
  | (par, pd) :: pars' =>
      match required pd with
      | None => Exc KeyError
      | Some req =>
          if req && negb (mem par json) then
            Ok (false, json,
                (log ++ [error ("missing required parameter: " ++ par)])%list)
          else
            let json :=
              match default pd with
              | Some d => if negb (mem par json)
                          then (json ++ [(par, d)])%list
                          else json
              | None => json
              end in
            Check_required pars' json log
      end
  end.

(** [v in l] *)
Definition py_in (v : V) (l : list V) : bool := existsb (py_eq v) l.

(** The test of one parameter in the second loop: the line of the log
    when it fails. *)
Definition Check_value (par : string) (pd : pardef) (v : V)
    : result (option logline) :=
  match type_ pd with
  | Some ty =>
      mismatch ←
        (if String.eqb ty "int" && negb (pytype_eqb (type_of v) TInt) then
           Ok (Some (error ("type mismatch parameter: " ++ par)))
         else if String.eqb ty "float"
                 && negb (pytype_eqb (type_of v) TInt)
                 && negb (pytype_eqb (type_of v) TFloat) then
           Ok (Some (error ("type mismatch parameter: " ++ par)))
         else if String.eqb ty "list"
                 && negb (pytype_eqb (type_of v) TList) then
           Ok (Some (error ("type mismatch parameter: " ++ par)))
         else if String.eqb ty "file"
                 && negb (pytype_eqb (type_of v) TStr) then
           there ← isfile v;
           if negb there then
             Ok (Some (error
               ("type mismatch parameter or file does not exist: " ++ par)))
           else Ok None
         else Ok None);
      match mismatch with
      | Some line => Ok (Some line)
      | None =>
          match set_ pd with
          | Some values =>
              if negb (py_in v values)
              then Ok (Some (error ("invalid value: " ++ par)))
              else Ok None
          | None => Ok None
          end
      end
  | None => Ok None
  end.

(** The second loop, over the items of the configuration. *)
Fixpoint Check_values (pars : list (string * pardef))
    (items : list (string * V)) (log : list logline)
    : result (bool * list logline) :=
  match items with
  | [] => Ok (true, log)
  | (par, v) :: items' =>
      match get par pars with
      | None =>
          Check_values pars items'
            (log ++ [warning ("unknown parameter: " ++ par)])%list
      | Some pd =>
          failure ← Check_value par pd v;
          match failure with
          | Some line => Ok (false, (log ++ [line])%list)
          | None => Check_values pars items' log
          end
      end
  end.

(** [Check]: the value returned, the configuration with its defaults and
    the log.  [pars] is [None] when the reader was built without it. *)
Definition Check (pars : option (list (string * pardef)))
    (json : list (string * V)) (log : list logline)
    : result (bool * list (string * V) * list logline) :=
  match pars with
  | None => Exc TypeError
  | Some pars =>
      '(go, json, log) ← Check_required pars json log;
      if (go : bool) then
        '(ok, log) ← Check_values pars json log;
        Ok (ok, json, log)
      else Ok (false, json, log)
  end.

End Values.

Arguments required {V} p.
Arguments default {V} p.
Arguments type_ {V} p.
Arguments set_ {V} p.
Arguments mkPardef {V} required default type_ set_.

End ConfReader.

(** ** Runs and inputs used in the examples *)

Module Scenario.
Import TotalStation MeasureToPrism HorizSection.

Local Open Scope Q_scope.

(** A transport that answers the round trip [k] with the entry [k] of a
    script, and with an empty Measurement after its end; the interface
    stays in the state [IF_OK]. *)
Definition scripted (script : list Measurement) (k : nat) : reply :=
  (default ∅ (script !! k), IF_OK).

(** *** The session *)

Definition angles_50_80 : Measurement :=
  <["hz" := VAngle (Angle.gon2rad 50)]> (<["v" := VAngle (Angle.gon2rad 80)]> ∅).

Definition full_50_80 : Measurement := <["distance" := VFloat 10]> angles_50_80.

(** The angles are read at the first round trip. *)
Definition face_transport : nat -> reply := scripted [angles_50_80].

(** The distance is ready at the fifth read. *)
Definition fifth_transport (k : nat) : reply :=
  if (k <? 4)%nat then (angles_50_80, IF_OK) else (full_50_80, IF_OK).

(** The zenith angle is never read. *)
Definition no_v_transport (k : nat) : reply :=
  (<["hz" := VAngle (Angle.gon2rad 50)]> ∅, IF_OK).

(** *** The tracking loop *)

Definition still : Measurement :=
  <["hz" := VAngle 1]> (<["v" := VAngle (3 # 2)]> ∅).

Definition still_full : Measurement := <["distance" := VFloat 10]> still.

Definition jump : Measurement :=
  <["hz" := VAngle 2]> (<["v" := VAngle (3 # 2)]> ∅).

(** Mode 3 after a cycle that read the angles only; the distance known is
    10. *)
Definition angles_only_tracker : tracker :=
  mkTracker 3 (VFloat 10) (Some still) None None VNone VNone VNone VNone
            false 0 0.

(** Mode 5: the start of the program (nine round trips), four cycles with
    the prism at rest, the distance measurement, a cycle at rest and a cycle
    with a jump of one radian. *)
Definition mode5_script : list Measurement :=
  [ ∅; ∅; ∅; still; ∅; ∅; still_full; ∅; ∅;
    still; still; still; still; ∅; still_full; still; jump ].

(** The program in mode 5 up to the end of turn [k] of the loop. *)
Definition mode5_run (sin cos : Q -> Q) (k : nat) : result (tracker * world) :=
  '(t, w) ← init LeicaTPS1200 (scripted mode5_script) 5 "FAST" world0;
  cycles (scripted mode5_script) sin cos k t w.

(** What is observed of a run: the state of the detector, its counter, the
    messages sent and the records written. *)
Definition observe (r : result (tracker * world))
    : result (bool * Z * list Msg * list Measurement) :=
  '(t, w) ← r; Ok (moving t, n t, sent w, written w).

Definition mode5_start_msgs : list Msg :=
  [SetEDMModeMsg "FAST"; SetLockMsg 0; SetATRMsg 1; GetAnglesMsg;
   MoveMsg 1 (3 # 2) 1; MeasureMsg "DEFAULT" 0; GetMeasureMsg 15000 0;
   SetLockMsg 1; LockInMsg].

Definition mode5_record (sin cos : Q -> Q) : Measurement :=
  <["elev" := VFloat (10 * cos (3 # 2))]>
  (<["north" := VFloat (10 * sin (3 # 2) * cos 1)]>
  (<["east" := VFloat (10 * sin (3 # 2) * sin 1)]> still_full)).

(** *** The horizontal section *)

(** A section at half a metre above the instrument, with the defaults of
    the program. *)
Definition section_half : HorizontalSection :=
  mkHorizontalSection (Some (1 # 2)) None (Angle.deg2rad 45) Angle.PI2 10 (1 # 50).

Definition up_10 : Measurement :=
  <["distance" := VFloat 10]> (<["hz" := VAngle 0]> (<["v" := VAngle 0]> ∅)).

Definition up_angles : Measurement :=
  <["hz" := VAngle 0]> (<["v" := VAngle 0]> ∅).

Definition no_zenith : Measurement :=
  <["distance" := VFloat 10]> (<["hz" := VAngle 0]> ∅).

Definition coords_1_2_3 : Measurement :=
  <["east" := VFloat 1]> (<["north" := VFloat 2]> (<["elev" := VFloat 3]> ∅)).

(** The replies at a point whose second reading lacks the zenith angle:
    [Measure], [GetMeasure], the two round trips of [MoveRel], [Measure],
    [GetMeasure], [Coords], the two round trips of [MoveRel]. *)
Definition no_zenith_script : list Measurement :=
  [ ∅; up_10; up_angles; ∅; ∅; no_zenith; coords_1_2_3; up_angles; ∅ ].

Definition observe_point (r : outcome (Q * bool * world))
    : outcome (bool * list Msg * list Measurement * list string) :=
  '(act, w, wd) ← r; Returns (w, sent wd, written wd, logged wd).

(** [cos] with its value at 0 made explicit. *)
Definition at_zero (cos : Q -> Q) (x : Q) : Q :=
  match x with
  | Qmake 0 1 => 1
  | _ => cos x
  end.

(** *** NMEA sentences *)

Local Open Scope string_scope.

Definition gga_example : string :=
  "$GPGGA,183730,3907.356,N,12102.482,W,1,05,1.6,646.4,M,-24.1,M,,*75".

(** A fix without geoid separation; the checksum of its text is 0x0C. *)
Definition gga_low_checksum : string :=
  "$GPGGA,183730,3907.356,N,12102.482,W,1,05,1.6,646.4,M,,,,*0C".

(** The example with another checksum field. *)
Definition gga_corrupted : string :=
  "$GPGGA,183730,3907.356,N,12102.482,W,1,05,1.6,646.4,M,-24.1,M,,*74".

(** The example with the quality 0, and its checksum. *)
Definition gga_no_fix : string :=
  "$GPGGA,183730,3907.356,N,12102.482,W,0,05,1.6,646.4,M,-24.1,M,,*74".

(** A decoded angle in degrees, and a decoded field. *)
Definition degrees_of (key : string) (r : result (option Measurement))
    : option Q :=
  match r with
  | Ok (Some m) =>
      match m !! key with
      | Some (VAngle a) => Some (Qred (Angle.rad2deg a))
      | _ => None
      end
  | _ => None
  end.

Definition field_of (key : string) (r : result (option Measurement))
    : option (pyval Q) :=
  match r with
  | Ok (Some m) => m !! key
  | _ => None
  end.

Local Open Scope string_scope.

(** *** A configuration *)

(** Values as JSON gives them, lists being lists of texts. *)
Inductive json_value : Type :=
| JNull
| JBool (b : bool)
| JInt (z : Z)
| JStr (s : string)
| JList (items : list string).

Definition json_type (v : json_value) : ConfReader.pytype :=
  match v with
  | JNull => ConfReader.TNone
  | JBool _ => ConfReader.TBool
  | JInt _ => ConfReader.TInt
  | JStr _ => ConfReader.TStr
  | JList _ => ConfReader.TList
  end.

(** [v == w]; [True] and [False] are equal to 1 and 0. *)
Definition json_eq (v w : json_value) : bool :=
  match v, w with
  | JNull, JNull => true
  | JBool a, JBool b => Bool.eqb a b
  | JBool a, JInt z | JInt z, JBool a => (z =? (if a then 1 else 0))%Z
  | JInt a, JInt b => (a =? b)%Z
  | JStr a, JStr b => String.eqb a b
  | JList a, JList b => bool_decide (a = b)
  | _, _ => false
  end.

(** A file system without files, and one where every path is a file. *)
Definition no_files (v : json_value) : result bool := Ok false.
Definition all_files (v : json_value) : result bool := Ok true.

(** Some parameters of the configuration that the module checks when it
    is run: [log_file], [log_level], [faces] and [met]. *)
Definition config_pars : list (string * ConfReader.pardef json_value) :=
  [("log_file", ConfReader.mkPardef (Some true) None (Some "file") None);
   ("log_level",
    ConfReader.mkPardef (Some true) None (Some "int")
      (Some [JInt 10; JInt 20; JInt 30; JInt 40]));
   ("faces", ConfReader.mkPardef (Some false) (Some (JInt 1)) (Some "int") None);
   ("met",
    ConfReader.mkPardef (Some false) None None
      (Some [JStr "WEBMET"; JStr "BMP180"; JStr "SENSEHAT"]))].

Definition config : list (string * json_value) :=
  [("log_file", JStr "/no/such/file.log"); ("log_level", JInt 20);
   ("met", JStr "BAROMETER")].

(** The definitions without a type. *)
Definition met_pars : list (string * ConfReader.pardef json_value) :=
  [("met",
    ConfReader.mkPardef (Some false) None None
      (Some [JStr "WEBMET"; JStr "BMP180"; JStr "SENSEHAT"]))].

End Scenario.

(** * Properties *)

Import PyMath PyStr Regex Angle AngleObj TotalStation MeasureToPrism
       HorizSection Scenario.

(** ** Numbers *)

Section NumberFacts.

Local Open Scope Q_scope.

Lemma pi_pos : 0 < pi.
Proof. reflexivity. Qed.

Lemma RO_pos : 0 < RO.
Proof. reflexivity. Qed.

Lemma int_of_float_nonneg (x : Q) : 0 <= x -> int_of_float x = floor x.
Proof.
  intros H. unfold int_of_float, floor. destruct x as [n d]. simpl.
  unfold Qle in H. simpl in H.
  rewrite Z.quot_div_nonneg; lia.
Qed.

Lemma int_of_float_opp (x : Q) : int_of_float (- x) = (- int_of_float x)%Z.
Proof.
  unfold int_of_float. destruct x as [n d]. simpl. apply Z.quot_opp_l. lia.
Qed.

Lemma radians_eq (x y : Q) : x == y -> radians x == radians y.
Proof. intros H. unfold radians. rewrite H. reflexivity. Qed.

Lemma Qabs_nonneg_eq (a : Q) : 0 <= a -> Qabs a = a.
Proof.
  destruct a as [n d]. unfold Qle, Qabs. simpl. intros H.
  rewrite Z.abs_eq; [reflexivity | lia].
Qed.

(** [round] gives an integer at most one half away. *)
Lemma round_nearest (x : Q) : Qabs (inject_Z (round x) - x) <= 1 # 2.
Proof.
  unfold round.
  pose proof (Qfloor_le x) as Hlo. pose proof (Qlt_floor x) as Hhi.
  rewrite inject_Z_plus in Hhi. change (inject_Z 1) with 1 in Hhi.
  destruct (Qcompare_spec (x - inject_Z (Qfloor x)) (1 # 2)) as [E|L|G].
  - destruct (Z.even (Qfloor x));
      [|rewrite inject_Z_plus; change (inject_Z 1) with 1];
      apply Qabs_case; intros; lra.
  - apply Qabs_case; intros; lra.
  - rewrite inject_Z_plus. change (inject_Z 1) with 1.
    apply Qabs_case; intros; lra.
Qed.

Lemma round_nonneg (x : Q) : 0 <= x -> (0 <= round x)%Z.
Proof.
  intros H. assert (0 <= Qfloor x)%Z as Hf.
  { change 0%Z with (Qfloor 0). apply Qfloor_resp_le, H. }
  unfold round.
  destruct (Qcompare _ _); [destruct (Z.even _)| |]; lia.
Qed.

(** A property checked on every integer below a bound holds below it. *)
Lemma Z_range_check (P : Z -> bool) (k : nat) :
  forallb P (map Z.of_nat (seq 0 k)) = true ->
  forall z, (0 <= z < Z.of_nat k)%Z -> P z = true.
Proof.
  intros H z Hz. rewrite forallb_forall in H. apply H.
  apply in_map_iff. exists (Z.to_nat z). split; [lia|].
  apply in_seq. lia.
Qed.

End NumberFacts.

(** ** NMEA angles *)

Section NmeaAngle.

Local Open Scope Q_scope.

Lemma dm2rad_floor_nonneg (x : Q) : 0 <= x -> dm2rad x == dm2rad_floor x.
Proof.
  intros H. unfold dm2rad, dm2rad_floor.
  rewrite int_of_float_nonneg.
  - apply radians_eq. field.
  - apply Qle_shift_div_l; [reflexivity | lra].
Qed.

Lemma dm2rad_opp (x : Q) : dm2rad (- x) == - dm2rad x.
Proof.
  unfold dm2rad.
  assert (E : int_of_float (- x / 100) = (- int_of_float (x / 100))%Z).
  { rewrite <- int_of_float_opp. unfold int_of_float.
    destruct x as [n d]; simpl. f_equal. lia. }
  rewrite E. rewrite inject_Z_opp. unfold radians. field.
Qed.

(** C7, as amended.  The NMEA-to-radian conversion takes as degrees the
    value of [x/100] truncated toward zero, and the rest as minutes: it is
    [radians(trunc(x/100) + (x - 100*trunc(x/100))/60)].  For [x >= 0] this
    is the formula with [floor]; a negative value converts to the opposite
    of what its absolute value converts to. *)
Theorem dm2rad_truncates (x : Q) :
  dm2rad x ==
    radians (inject_Z (int_of_float (x / 100))
             + (x - 100 * inject_Z (int_of_float (x / 100))) / 60)
  /\ (0 <= x -> dm2rad x == dm2rad_floor x)
  /\ dm2rad (- x) == - dm2rad x.
Proof.
  split; [|split].
  - unfold dm2rad. apply radians_eq. field.
  - apply dm2rad_floor_nonneg.
  - apply dm2rad_opp.
Qed.

End NmeaAngle.

Lemma dm2rad_truncates_witness :
  (dm2rad 3907.356 == dm2rad_floor 3907.356)%Q.
Proof.
  apply (proj1 (proj2 (dm2rad_truncates 3907.356%Q))). discriminate.
Defined.

(** C7 as stated fails for negative values: for -3907.356 the formula with
    [floor] gives -40 degrees and 92.644 minutes, the code -39 degrees and
    -7.356 minutes. *)
Lemma dm2rad_floor_negative :
  ~ (dm2rad (-3907.356) == dm2rad_floor (-3907.356))%Q.
Proof. vm_compute. discriminate. Qed.

(** ** Strings and the matcher *)

Section StringFacts.

Local Open Scope string_scope.

Lemma split_no_sep (sep : ascii) (s : string) :
  all_chars (fun c => negb (Ascii.eqb c sep)) s = true -> split sep s = [s].
Proof.
  induction s as [|c s IH]; simpl; [reflexivity|].
  intros H. apply andb_prop in H as [Hc Hs].
  destruct (Ascii.eqb c sep); [discriminate|].
  rewrite (IH Hs). reflexivity.
Qed.

Lemma split_app (sep : ascii) (a b : string) :
  all_chars (fun c => negb (Ascii.eqb c sep)) a = true ->
  split sep (a ++ String sep b) = a :: split sep b.
Proof.
  induction a as [|c a IH]; simpl.
  - intros _. rewrite Ascii.eqb_refl. reflexivity.
  - intros H. apply andb_prop in H as [Hc Hs].
    destruct (Ascii.eqb c sep); [discriminate|].
    rewrite (IH Hs). reflexivity.
Qed.

Lemma all_chars_impl (p q : ascii -> bool) (s : string) :
  (forall c, p c = true -> q c = true) ->
  all_chars p s = true -> all_chars q s = true.
Proof.
  intros Hpq. induction s as [|c s IH]; simpl; [reflexivity|].
  intros H. apply andb_prop in H as [Hc Hs].
  rewrite (Hpq c Hc), (IH Hs). reflexivity.
Qed.

Lemma digit_not_dash (c : ascii) :
  is_digit c = true -> negb (Ascii.eqb c "-") = true.
Proof.
  destruct (Ascii.eqb_spec c "-") as [->|]; [discriminate|reflexivity].
Qed.

(** The matcher does not tell one digit from another. *)
Lemma deriv_norm (c : ascii) (r : regex) :
  plain r = true -> deriv (norm c) r = deriv c r.
Proof.
  unfold norm. destruct (is_digit c) eqn:Hc; [|reflexivity].
  induction r as [| |d| |a IHa b IHb|a IHa b IHb]; cbn [deriv plain];
    intros H; try reflexivity.
  - destruct (Ascii.eqb_spec "0"%char d) as [<-|_]; [discriminate|].
    destruct (Ascii.eqb_spec c d) as [<-|_]; [|reflexivity].
    rewrite Hc in H. discriminate.
  - rewrite Hc. reflexivity.
  - apply andb_prop in H as [Ha Hb]. rewrite (IHa Ha), (IHb Hb). reflexivity.
  - apply andb_prop in H as [Ha Hb]. rewrite (IHa Ha), (IHb Hb). reflexivity.
Qed.

Lemma plain_deriv (c : ascii) (r : regex) :
  plain r = true -> plain (deriv c r) = true.
Proof.
  induction r as [| |d| |a IHa b IHb|a IHa b IHb]; cbn [deriv plain];
    intros H; try reflexivity.
  - destruct (Ascii.eqb c d); reflexivity.
  - destruct (is_digit c); reflexivity.
  - apply andb_prop in H as [Ha Hb].
    destruct (nullable a); cbn [plain]; rewrite (IHa Ha), Hb, ?(IHb Hb);
      reflexivity.
  - apply andb_prop in H as [Ha Hb]. rewrite (IHa Ha), (IHb Hb). reflexivity.
Qed.

Lemma fullmatch_norm (s : string) : forall r,
  plain r = true -> fullmatch r (normstr s) = fullmatch r s.
Proof.
  induction s as [|c s IH]; intros r H; cbn [normstr fullmatch]; [reflexivity|].
  rewrite (deriv_norm c r H). apply IH, plain_deriv, H.
Qed.

Lemma normstr_app (a b : string) : normstr (a ++ b) = normstr a ++ normstr b.
Proof.
  induction a as [|c a IH]; simpl; [reflexivity|]. rewrite IH. reflexivity.
Qed.

Lemma normstr_digits (s : string) :
  all_chars is_digit s = true -> normstr s = zeros (String.length s).
Proof.
  induction s as [|c s IH]; simpl; [reflexivity|].
  intros H. apply andb_prop in H as [Hc Hs].
  unfold norm. rewrite Hc, (IH Hs). reflexivity.
Qed.

Lemma dead_not_nullable (r : regex) : dead r = true -> nullable r = false.
Proof.
  induction r as [| |d| |a IHa b IHb|a IHa b IHb]; cbn [dead nullable];
    intros H; try reflexivity; try discriminate.
  - apply orb_prop in H as [H|H].
    + rewrite (IHa H). reflexivity.
    + rewrite (IHb H). apply andb_false_r.
  - apply andb_prop in H as [Ha Hb]. rewrite (IHa Ha), (IHb Hb). reflexivity.
Qed.

Lemma dead_deriv (c : ascii) (r : regex) :
  dead r = true -> dead (deriv c r) = true.
Proof.
  induction r as [| |d| |a IHa b IHb|a IHa b IHb]; cbn [dead deriv];
    intros H; try reflexivity; try discriminate.
  - apply orb_prop in H as [H|H].
    + rewrite (dead_not_nullable a H). cbn [dead]. rewrite (IHa H). reflexivity.
    + destruct (nullable a); cbn [dead]; rewrite ?(IHb H), H, ?orb_true_r;
        reflexivity.
  - apply andb_prop in H as [Ha Hb]. rewrite (IHa Ha), (IHb Hb). reflexivity.
Qed.

Lemma dead_fullmatch (s : string) : forall r,
  dead r = true -> fullmatch r s = false.
Proof.
  induction s as [|c s IH]; intros r H; cbn [fullmatch].
  - apply dead_not_nullable, H.
  - apply IH, dead_deriv, H.
Qed.

End StringFacts.

(** ** DMS strings *)

Section DmsFacts.

Local Open Scope string_scope.

Lemma deg_ok_all (z : Z) : (0 <= z < 1000)%Z -> deg_ok z = true.
Proof. apply (Z_range_check deg_ok 1000). vm_compute. reflexivity. Qed.

Lemma field_ok_all (z : Z) : (0 <= z < 60)%Z -> field_ok z = true.
Proof. apply (Z_range_check field_ok 60). vm_compute. reflexivity. Qed.

Lemma reads_as_spec (s : string) (z : Z) :
  reads_as s z = true -> float_of_str s = Ok (inject_Z z).
Proof.
  unfold reads_as. destruct (float_of_str s) as [[n d]|]; [|discriminate].
  cbn [Qnum Qden]. intros H. apply andb_prop in H as [Hn Hd].
  apply Z.eqb_eq in Hn. apply Pos.eqb_eq in Hd. subst. reflexivity.
Qed.

Lemma dms_pattern_plain : plain dms_pattern = true.
Proof. reflexivity. Qed.

(** The parser reads back three fields written by the formatter. *)
Lemma dms2rad_formatted (deg mi sec : Z) :
  (0 <= deg < 1000)%Z -> (0 <= mi < 60)%Z -> (0 <= sec < 60)%Z ->
  dms2rad (fmt_d deg ++ "-" ++ fmt_02d mi ++ "-" ++ fmt_02d sec)
  = Ok (radians (fst (dms_accumulate
                        [inject_Z deg; inject_Z mi; inject_Z sec]))).
Proof.
  intros Hd Hm Hs.
  pose proof (deg_ok_all deg Hd) as D. pose proof (field_ok_all mi Hm) as M.
  pose proof (field_ok_all sec Hs) as S.
  unfold deg_ok in D. unfold field_ok in M, S.
  repeat (apply andb_prop in D as [D ?]). repeat (apply andb_prop in M as [M ?]).
  repeat (apply andb_prop in S as [S ?]).
  set (d := fmt_d deg) in *. set (m := fmt_02d mi) in *.
  set (s := fmt_02d sec) in *.
  unfold dms2rad.
  assert (fullmatch dms_pattern (d ++ "-" ++ m ++ "-" ++ s) = true) as ->.
  { rewrite <- fullmatch_norm by apply dms_pattern_plain.
    rewrite !normstr_app. rewrite (normstr_digits d D), (normstr_digits m M),
      (normstr_digits s S).
    match goal with H : (String.length m =? 2)%nat = true |- _ =>
      apply Nat.eqb_eq in H; rewrite H end.
    match goal with H : (String.length s =? 2)%nat = true |- _ =>
      apply Nat.eqb_eq in H; rewrite H end.
    destruct (String.length d) as [|[|[|[|k]]]]; try discriminate;
      vm_compute; reflexivity. }
  cbn [negb].
  assert (forall t, all_chars is_digit t = true ->
            all_chars (fun c => negb (Ascii.eqb c "-")) t = true) as nodash.
  { intros t. apply all_chars_impl, digit_not_dash. }
  change (d ++ "-" ++ m ++ "-" ++ s) with (d ++ String "-" (m ++ String "-" s)).
  rewrite (split_app "-" d) by auto. rewrite (split_app "-" m) by auto.
  rewrite (split_no_sep "-" s) by auto.
  cbn [mapM].
  rewrite (reads_as_spec d deg), (reads_as_spec m mi), (reads_as_spec s sec)
    by assumption.
  reflexivity.
Qed.

Local Open Scope Q_scope.

(** Degrees, minutes and seconds add up to the arcseconds they split. *)
Lemma dms_value (secs : Z) :
  radians (fst (dms_accumulate
     [inject_Z (secs / 60 / 60); inject_Z ((secs / 60) mod 60);
      inject_Z (secs mod 60)]))
  == inject_Z secs / RO.
Proof.
  assert (inject_Z secs ==
          3600 * inject_Z (secs / 60 / 60) + 60 * inject_Z ((secs / 60) mod 60)
          + inject_Z (secs mod 60)) as E.
  { change 3600 with (inject_Z 3600). change 60 with (inject_Z 60).
    rewrite <- !inject_Z_mult, <- !inject_Z_plus. apply inject_Z_injective.
    pose proof (Z.div_mod secs 60 ltac:(lia)).
    pose proof (Z.div_mod (secs / 60) 60 ltac:(lia)). lia. }
  rewrite E. unfold dms_accumulate, radians, RO. cbn [fold_left fst].
  field; repeat split; discriminate.
Qed.

(** The parser rejects a text that starts with a sign. *)
Lemma dms_sign_rejected (s : string) :
  dms2rad (String "-" s) = Exc ValueError.
Proof.
  unfold dms2rad. cbn [fullmatch].
  rewrite dead_fullmatch; [reflexivity|]. vm_compute. reflexivity.
Qed.

Lemma rad2dms_nonneg (a : Q) :
  0 <= a ->
  rad2dms a =
  (let secs := round (a * RO) in
   fmt_d (secs / 60 / 60) ++ "-" ++ fmt_02d ((secs / 60) mod 60) ++ "-"
   ++ fmt_02d (secs mod 60))%string.
Proof.
  intros Ha. unfold rad2dms.
  assert (Qle_bool 0 a = true) as -> by (apply Qle_bool_iff, Ha).
  rewrite (Qabs_nonneg_eq a Ha). reflexivity.
Qed.

Lemma rad2dms_neg (a : Q) : a < 0 -> exists s, rad2dms a = String "-" s.
Proof.
  intros Ha. unfold rad2dms.
  assert (Qle_bool 0 a = false) as ->.
  { destruct (Qle_bool 0 a) eqn:E; [|reflexivity].
    apply Qle_bool_iff in E. lra. }
  eexists. reflexivity.
Qed.

(** C6, as amended.  For every angle [a >= 0] of less than 1000 degrees
    once rounded, parsing the DMS string that the formatter writes for [a]
    succeeds and gives [a] rounded to the nearest arcsecond (at most half an
    arcsecond away from [a]).  For every negative angle the formatter
    writes a leading sign, and the parser rejects the string with a
    [ValueError]. *)
Theorem dms_roundtrip (a : Q) :
  (0 <= a -> (round (a * RO) < 3600000)%Z ->
   exists r, dms2rad (rad2dms a) = Ok r
             /\ r == inject_Z (round (a * RO)) / RO
             /\ Qabs (rad2sec r - rad2sec a) <= 1 # 2)
  /\ (a < 0 -> dms2rad (rad2dms a) = Exc ValueError).
Proof.
  split.
  - intros Ha Hlt. rewrite (rad2dms_nonneg a Ha).
    set (secs := round (a * RO)) in *. cbv zeta.
    assert (0 <= secs)%Z as Hs.
    { apply round_nonneg. apply Qmult_le_0_compat; [exact Ha|]. discriminate. }
    rewrite dms2rad_formatted.
    + eexists. split; [reflexivity|]. split; [apply dms_value|].
      unfold rad2sec. rewrite dms_value.
      setoid_replace (inject_Z secs / RO * RO) with (inject_Z secs)
        using relation Qeq by (field; discriminate).
      apply round_nearest.
    + split; [apply Z.div_pos; [apply Z.div_pos|]; lia|].
      apply Z.div_lt_upper_bound; [lia|]. apply Z.div_lt_upper_bound; lia.
    + apply Z.mod_pos_bound. lia.
    + apply Z.mod_pos_bound. lia.
  - intros Ha. destruct (rad2dms_neg a Ha) as [s ->].
    apply dms_sign_rejected.
Qed.

End DmsFacts.

Lemma dms_roundtrip_witness :
  exists r, dms2rad (rad2dms 1) = Ok r
            /\ (r == inject_Z (round (1 * RO)) / RO)%Q
            /\ (Qabs (rad2sec r - rad2sec 1) <= 1 # 2)%Q.
Proof.
  apply (proj1 (dms_roundtrip 1)); [discriminate | reflexivity].
Defined.

(** C6 as stated fails for negative angles: one radian below zero is
    written ["-57-17-45"], which the parser rejects. *)
Lemma dms_roundtrip_negative :
  rad2dms (-1) = "-57-17-45"%string
  /\ dms2rad (rad2dms (-1)) = Exc ValueError.
Proof. split; vm_compute; reflexivity. Qed.

(** An angle of 1000 degrees or more has four digits of degrees, which
    the parser rejects as well: 18 radians are written ["1031-19-27"]. *)
Lemma dms_four_digits :
  rad2dms 18 = "1031-19-27"%string
  /\ dms2rad (rad2dms 18) = Exc ValueError.
Proof. split; vm_compute; reflexivity. Qed.

(** ** The operators of [Angle] *)

Section OperatorFacts.

Local Open Scope Q_scope.

Lemma Angle1_new (x : Q) (h : heap) : Angle1 x h = Ok (length h, h ++ [x]).
Proof. reflexivity. Qed.

Lemma value_of_Ok (l : loc) (h : heap) (v : Q) :
  value_of l h = Ok v -> h !! l = Some v.
Proof. unfold value_of. destruct (h !! l); congruence. Qed.

End OperatorFacts.

(** Destructs in [H] the results that an operator binds, in the order of
    the binds. *)
Ltac bind_inv H :=
  repeat match type of H with
  | context [value_of ?l ?h] =>
      let E := fresh "E" in
      destruct (value_of l h) eqn:E; cbn [mbind result_bind] in H;
      [|discriminate H]
  | context [scalar ?o] =>
      let E := fresh "E" in
      destruct (scalar o) eqn:E; cbn [mbind result_bind] in H;
      [|discriminate H]
  | context [truediv ?a ?b] =>
      let E := fresh "E" in
      destruct (truediv a b) eqn:E; cbn [mbind result_bind] in H;
      [|discriminate H]
  end.

(** Replays in the goal the results found by [bind_inv]. *)
Ltac bind_replay :=
  cbn [mbind result_bind];
  repeat match goal with
  | E : ?t = Ok _ |- context [?t] => rewrite E; cbn [mbind result_bind]
  end.

Section OperatorTheorems.

Local Open Scope Q_scope.

(** A binary operator allocates its result. *)
Lemma binary_new (op : binop) (self : loc) (other : pyval loc) (h : heap)
    (r : loc) (h' : heap) :
  binary op self other h = Ok (r, h') ->
  exists v, r = length h /\ h' = h ++ [v].
Proof.
  destruct op; cbn [binary]; unfold __add__, __sub__, __mul__, __truediv__;
    intros H; try (destruct other; try discriminate H);
    bind_inv H; rewrite Angle1_new in H; inversion H; eauto.
Qed.

(** An augmented assignment stores in [self] the value that the binary
    operator gives to its result. *)
Lemma augmented_in_place (op : binop) (self : loc) (other : pyval loc)
    (h : heap) (r : loc) (h' : heap) :
  augmented op self other h = Ok (r, h') ->
  exists v, r = self /\ h' = <[self := v]> h /\ is_Some (h !! self)
            /\ binary op self other h = Ok (length h, h ++ [v]).
Proof.
  destruct op; cbn [augmented binary];
    unfold __iadd__, __isub__, __imul__, __itruediv__,
           __add__, __sub__, __mul__, __truediv__;
    intros H; try (destruct other; try discriminate H);
    bind_inv H; inversion H; subst; eexists; (split; [reflexivity|]);
    (split; [reflexivity|]);
    (split; [eauto using value_of_Ok|]); bind_replay; reflexivity.
Qed.

(** C8, as amended.  The binary operators [+], [-], scalar [*] and scalar
    [/] return a new Angle and leave the radian value of every existing
    Angle, their operands included, as it was.  The augmented assignments
    [+=], [-=], [*=], [/=] return [self]: they store in it the value that the
    binary operator computes, and leave every other Angle as it was. *)
Theorem Angle_operators (op : binop) (self : loc) (other : pyval loc)
    (h : heap) (r : loc) (h' : heap) :
  (binary op self other h = Ok (r, h') ->
     h !! r = None /\ is_Some (h' !! r)
     /\ forall l v, h !! l = Some v -> h' !! l = Some v)
  /\ (augmented op self other h = Ok (r, h') ->
     r = self
     /\ (forall l, l <> self -> h' !! l = h !! l)
     /\ exists v, h' !! self = Some v
                  /\ binary op self other h = Ok (length h, h ++ [v])).
Proof.
  split.
  - intros H. apply binary_new in H as (v & -> & ->). split; [|split].
    + apply lookup_ge_None_2. lia.
    + exists v. rewrite lookup_app_r by lia. rewrite Nat.sub_diag. reflexivity.
    + intros l x Hl. apply lookup_app_l_Some, Hl.
  - intros H. apply augmented_in_place in H as (v & -> & -> & [x Hx] & Hb).
    split; [reflexivity|]. split.
    + intros l Hl. apply list_lookup_insert_ne. congruence.
    + exists v. split; [|exact Hb].
      apply list_lookup_insert_eq. apply lookup_lt_Some in Hx. exact Hx.
Qed.

End OperatorTheorems.

Lemma Angle_operators_witness :
  exists v : Q, ([1; 2] : heap)%Q !! 2%nat = None
                /\ ([1; 2]%Q ++ [v]) !! 0%nat = Some 1%Q
                /\ (v == 3)%Q.
Proof.
  destruct (Angle_operators Add 0%nat (VAngle 1%nat) [1; 2]%Q 2%nat
              [1; 2; 1 + 2]%Q) as [H _].
  destruct (H eq_refl) as (Hnew & _ & Hold).
  exists (1 + 2)%Q. split; [exact Hnew|]. split; [|reflexivity].
  apply Hold. reflexivity.
Defined.

(** C8 as stated fails for the augmented assignments: [a += b] with
    [a = 1] and [b = 2] returns [a] itself, whose radian value is now 3. *)
Lemma iadd_updates_operand :
  exists h' : heap,
    __iadd__ 0%nat (VAngle 1%nat) [1; 2]%Q = Ok (0%nat, h')
    /\ ([1; 2] : heap)%Q !! 0%nat = Some 1%Q
    /\ h' !! 0%nat = Some (1 + 2)%Q
    /\ ~ (1 + 2 == 1)%Q.
Proof.
  eexists. repeat split. discriminate.
Qed.

(** ** The NMEA decoder *)

Section NmeaFacts.

Local Open Scope string_scope.

Lemma lower_hex_digits (d : Hexadecimal.uint) :
  lower (HexadecimalString.NilEmpty.string_of_uint d)
  = HexadecimalString.NilEmpty.string_of_uint d.
Proof.
  induction d; cbn [HexadecimalString.NilEmpty.string_of_uint lower];
    rewrite ?IHd; reflexivity.
Qed.

Lemma lower_hex (n : N) :
  lower (HexadecimalString.NilZero.string_of_uint (N.to_hex_uint n))
  = HexadecimalString.NilZero.string_of_uint (N.to_hex_uint n).
Proof.
  unfold HexadecimalString.NilZero.string_of_uint.
  destruct (N.to_hex_uint n); try apply lower_hex_digits. reflexivity.
Qed.

(** A checksum field that passes the comparison of [Result] is the
    hexadecimal notation of the computed value. *)
Lemma checksum_accepted (cksum : string) (cksum1 : N) :
  NmeaGnssUnit.checksum_differs cksum cksum1 = false ->
  N.of_hex_uint <$> HexadecimalString.NilZero.uint_of_string (lower cksum)
  = Some cksum1.
Proof.
  unfold NmeaGnssUnit.checksum_differs, hex. intros H.
  apply negb_false_iff, String.eqb_eq in H.
  change (String "0" (String "x" (lower cksum))
          = String "0" (String "x"
              (lower (HexadecimalString.NilZero.string_of_uint
                        (N.to_hex_uint cksum1))))) in H.
  injection H as H. rewrite lower_hex in H. rewrite H.
  destruct (N.to_hex_uint cksum1) eqn:E;
    try (rewrite HexadecimalString.NilZero.usu by discriminate;
         cbn [fmap option_fmap option_map]; rewrite <- E;
         rewrite HexadecimalN.Unsigned.of_to; reflexivity).
  pose proof (HexadecimalN.Unsigned.of_to cksum1) as Hn. rewrite E in Hn.
  rewrite <- Hn. reflexivity.
Qed.

(** [Result] decodes no sentence whose checksum does not match. *)
Lemma Result_checks_sum (date_time : pyval Q) (msg ans : string)
    (m : Measurement) :
  NmeaGnssUnit.Result date_time msg ans = Ok (Some m) ->
  NmeaGnssUnit.checksum_matches ans = true.
Proof.
  unfold NmeaGnssUnit.Result, NmeaGnssUnit.checksum_matches.
  destruct (negb (String.eqb _ msg)); [discriminate|].
  destruct (split "*" ans) as [|data [|cksum [|x l]]]; try discriminate.
  destruct (NmeaGnssUnit.checksum_differs cksum _) eqn:E; [discriminate|].
  intros _. apply checksum_accepted in E.
  destruct (HexadecimalString.NilZero.uint_of_string (lower cksum));
    [|discriminate].
  injection E as ->. apply N.eqb_refl.
Qed.

(** The example sentence decodes to the expected fields: quality 1, five
    satellites, latitude 39.1226 degrees, longitude -121.0414 degrees to
    four decimals. *)
Lemma Result_example :
  let r := NmeaGnssUnit.Result VNone "GPGGA" gga_example in
  field_of "quality" r = Some (VInt 1)
  /\ field_of "nsat" r = Some (VInt 5)
  /\ field_of "altitude" r = Some (VFloat 646.4)
  /\ degrees_of "latitude" r = Some (195613 # 5000)%Q
  /\ (195613 # 5000 == 39.1226)%Q
  /\ degrees_of "longitude" r = Some (-3631241 # 30000)%Q
  /\ (Qabs ((-3631241 # 30000) - (-121.0414)) < 1 # 10000)%Q.
Proof. repeat split; vm_compute; reflexivity. Qed.

(** A wrong checksum field and a quality of 0 both give [None]. *)
Lemma Result_corrupted :
  NmeaGnssUnit.Result VNone "GPGGA" gga_corrupted = Ok None.
Proof. vm_compute. reflexivity. Qed.

Lemma Result_no_fix :
  NmeaGnssUnit.checksum_matches gga_no_fix = true
  /\ NmeaGnssUnit.Result VNone "GPGGA" gga_no_fix = Ok None.
Proof. split; vm_compute; reflexivity. Qed.

(** C4.  The decoder rejects a valid sentence whose checksum is below
    0x10: the sentence [gga_low_checksum] carries the checksum of its text,
    [0C], and [Result] returns [None] for it, because [hex] writes the
    computed value as [0xc] and the comparison is made on strings. *)
Theorem Result_rejects_low_checksum :
  NmeaGnssUnit.checksum_matches gga_low_checksum = true
  /\ NmeaGnssUnit.Result VNone "GPGGA" gga_low_checksum = Ok None.
Proof. split; vm_compute; reflexivity. Qed.

End NmeaFacts.

(** ** The session *)

Section SessionFacts.

Local Open Scope Q_scope.

Variable transport : nat -> reply.

Lemma _process_eq (msg : Msg) (w : world) :
  _process transport msg w =
  (fst (transport (calls w)),
   mkWorld (S (calls w)) (sent w ++ [msg]) (snd (transport (calls w)))
           (slept w) (written w) (logged w)).
Proof. unfold _process. destruct (transport (calls w)). reflexivity. Qed.

Lemma has_true (key : string) (m : Measurement) (x : pyval Q) :
  m !! key = Some x -> has key m = true.
Proof. intros H. unfold has. apply bool_decide_eq_true. rewrite H. eauto. Qed.

Lemma getitem_has (key : string) (m : Measurement) :
  has key m = true -> exists x, m !! key = Some x /\ getitem key m = Ok x.
Proof.
  unfold has, getitem. intros H. apply bool_decide_eq_true in H as [x Hx].
  exists x. rewrite Hx. split; reflexivity.
Qed.

(** The loop of [GetMeasure] started with [20 - i] units of fuel: it makes
    [r] more round trips, each after a sleep of two seconds; it stops at
    the first reply with a distance, or when the fuel is spent. *)
Lemma GetMeasure_while_spec (msg : Msg) (fuel : nat) :
  forall (i : Z) (meas : Measurement) (w : world) (meas' : Measurement)
         (w' : world),
  (i = 20 - Z.of_nat fuel)%Z ->
  GetMeasure_while transport fuel msg i meas w = (meas', w') ->
  exists r : nat,
    (r <= fuel)%nat
    /\ calls w' = (calls w + r)%nat
    /\ sent w' = sent w ++ repeat msg r
    /\ slept w' = (slept w + 2 * Z.of_nat r)%Z
    /\ written w' = written w /\ logged w' = logged w
    /\ (r = O -> meas' = meas)
    /\ (forall r', r = S r' ->
          has "distance" meas = false
          /\ meas' = fst (transport (calls w + r')%nat)
          /\ forall j, (j < r')%nat ->
               has "distance" (fst (transport (calls w + j)%nat)) = false)
    /\ (has "distance" meas' = true \/ r = fuel).
Proof.
  induction fuel as [|fuel IH]; intros i meas w meas' w' Hi H;
    cbn [GetMeasure_while] in H.
  - inversion H; subst. exists O. rewrite Nat.add_0_r, app_nil_r.
    repeat split; try reflexivity; try lia; auto; discriminate.
  - destruct (has "distance" meas) eqn:Hd; cbn [negb andb] in H.
    + inversion H; subst. exists O. rewrite Nat.add_0_r, app_nil_r.
      repeat split; try reflexivity; try lia; auto; discriminate.
    + assert ((i <? 20)%Z = true) as Hlt by (apply Z.ltb_lt; lia).
      rewrite Hlt in H. rewrite _process_eq in H.
      cbn [calls sleep sent slept written logged] in H.
      apply IH in H; [|lia].
      destruct H as (r & Hr & Hc & Hs & Hsl & Hw & Hl & H0 & HS & Hend).
      cbn [calls sent slept written logged] in *.
      exists (S r). split; [lia|]. split; [lia|].
      split; [rewrite Hs, <- app_assoc; reflexivity|].
      split; [lia|]. split; [exact Hw|]. split; [exact Hl|].
      split; [discriminate|]. split.
      * intros r' [= <-]. split; [reflexivity|]. destruct r as [|r0].
        -- rewrite (H0 eq_refl), Nat.add_0_r. split; [reflexivity|]. lia.
        -- destruct (HS r0 eq_refl) as (Hm & -> & Hj). split.
           ++ f_equal. f_equal. lia.
           ++ intros j Hjlt.
              destruct j as [|j]; [rewrite Nat.add_0_r; exact Hm|].
              replace (calls w + S j)%nat with (S (calls w) + j)%nat by lia.
              apply Hj. lia.
      * destruct Hend as [Hh|Hf]; [left; exact Hh|right; lia].
Qed.

(** The fuel of [GetMeasure] is enough: the loop leaves by its own
    condition, and more fuel changes nothing. *)
Lemma GetMeasure_while_fuel (msg : Msg) (extra fuel : nat) :
  forall (i : Z) (meas : Measurement) (w : world),
  (i = 20 - Z.of_nat fuel)%Z ->
  GetMeasure_while transport (fuel + extra) msg i meas w
  = GetMeasure_while transport fuel msg i meas w.
Proof.
  induction fuel as [|fuel IH]; intros i meas w Hi.
  - cbn [Nat.add GetMeasure_while]. destruct extra as [|extra]; [reflexivity|].
    cbn [GetMeasure_while].
    assert ((i <? 20)%Z = false) as -> by (apply Z.ltb_ge; lia).
    rewrite andb_false_r. reflexivity.
  - cbn [Nat.add GetMeasure_while].
    destruct (negb (has "distance" meas) && (i <? 20)%Z); [|reflexivity].
    destruct (_process transport msg (sleep 2 w)) as [meas1 w1].
    apply IH. lia.
Qed.

(** What [GetMeasure] does, read by read. *)
Lemma GetMeasure_reads (wait incl : Z) (w : world) (meas : Measurement)
    (w' : world) :
  GetMeasure transport wait incl w = (meas, w') ->
  exists k : nat,
    (1 <= k <= 21)%nat
    /\ calls w' = (calls w + k)%nat
    /\ sent w' = sent w ++ repeat (GetMeasureMsg wait incl) k
    /\ slept w' = (slept w + 2 * (Z.of_nat k - 1))%Z
    /\ meas = fst (transport (calls w + k - 1)%nat)
    /\ (forall j, (j < k - 1)%nat ->
          has "distance" (fst (transport (calls w + j)%nat)) = false)
    /\ (has "distance" meas = true \/ k = 21%nat)
    /\ (forall n, (n <= 20)%nat ->
          (forall j, (j < n)%nat ->
             has "distance" (fst (transport (calls w + j)%nat)) = false) ->
          has "distance" (fst (transport (calls w + n)%nat)) = true ->
          k = S n /\ has "distance" meas = true).
Proof.
  unfold GetMeasure. rewrite _process_eq. intros H.
  apply GetMeasure_while_spec in H; [|reflexivity].
  destruct H as (r & Hr & Hc & Hs & Hsl & _ & _ & H0 & HS & Hend).
  cbn [calls sent slept written logged] in *.
  assert (meas = fst (transport (calls w + r)%nat)) as Hm.
  { destruct r as [|r0]; [rewrite (H0 eq_refl), Nat.add_0_r; reflexivity|].
    destruct (HS r0 eq_refl) as (_ & -> & _). f_equal. f_equal. lia. }
  assert (forall j, (j < r)%nat ->
            has "distance" (fst (transport (calls w + j)%nat)) = false) as Hlack.
  { intros j Hj. destruct r as [|r0]; [lia|].
    destruct (HS r0 eq_refl) as (Hfirst & _ & Hrest).
    destruct j as [|j]; [rewrite Nat.add_0_r; exact Hfirst|].
    replace (calls w + S j)%nat with (S (calls w) + j)%nat by lia.
    apply Hrest. lia. }
  exists (S r). split; [lia|]. split; [lia|].
  split; [rewrite Hs, <- app_assoc; reflexivity|].
  split; [lia|].
  split; [rewrite Hm; f_equal; f_equal; lia|].
  split; [intros j Hj; apply Hlack; lia|].
  split; [destruct Hend as [Hh|Hf]; [left; exact Hh|right; lia]|].
  intros n Hn Hbefore Hat.
  assert (r = n) as ->.
  { destruct (Nat.lt_trichotomy r n) as [Hlt|[Heq|Hgt]]; [|exact Heq|].
    - destruct Hend as [Hhas|Hf]; [|lia].
      rewrite Hm, (Hbefore r Hlt) in Hhas. discriminate.
    - rewrite (Hlack n Hgt) in Hat. discriminate. }
  split; [reflexivity|]. rewrite Hm. exact Hat.
Qed.

(** C3.  [GetMeasure] reads the measurement [k] times, [1 <= k <= 21]: once,
    and then again up to 20 times, each time after a sleep of two seconds.
    It returns the last reply; no reply before the last has the field
    [distance]; it stops when the field appears, or after the 20th retry,
    and returns a pair in every case.  In particular, when the field first
    appears in the reply number [n + 1] (for [n <= 20]), exactly [n + 1]
    reads are made and the result has the field. *)
Theorem GetMeasure_poll (wait incl : Z) (w : world) (meas : Measurement)
    (w' : world) :
  GetMeasure transport wait incl w = (meas, w') ->
  exists k : nat,
    (1 <= k <= 21)%nat
    /\ calls w' = (calls w + k)%nat
    /\ sent w' = sent w ++ repeat (GetMeasureMsg wait incl) k
    /\ slept w' = (slept w + 2 * (Z.of_nat k - 1))%Z
    /\ meas = fst (transport (calls w + k - 1)%nat)
    /\ (forall j, (j < k - 1)%nat ->
          has "distance" (fst (transport (calls w + j)%nat)) = false)
    /\ (has "distance" meas = true \/ k = 21%nat)
    /\ (forall n, (n <= 20)%nat ->
          (forall j, (j < n)%nat ->
             has "distance" (fst (transport (calls w + j)%nat)) = false) ->
          has "distance" (fst (transport (calls w + n)%nat)) = true ->
          k = S n /\ has "distance" meas = true).
Proof. apply GetMeasure_reads. Qed.

(** [GetMeasure] writes no record and logs nothing. *)
Lemma GetMeasure_written (wait incl : Z) (w : world) (meas : Measurement)
    (w' : world) :
  GetMeasure transport wait incl w = (meas, w') -> written w' = written w.
Proof.
  unfold GetMeasure. rewrite _process_eq. intros H.
  apply GetMeasure_while_spec in H; [|reflexivity].
  destruct H as (r & _ & _ & _ & _ & Hw & _). exact Hw.
Qed.

(** C10.  When the reply to the angle read of [MoveRel] lacks [hz] or [v],
    [MoveRel] returns [None] and the only message of the call is that angle
    read: no move is sent. *)
Theorem MoveRel_no_move (hz_rel v_rel : Q) (atr : Z) (w : world) :
  has "hz" (fst (transport (calls w))) = false
  \/ has "v" (fst (transport (calls w))) = false ->
  exists w', MoveRel transport hz_rel v_rel atr w = Ok (None, w')
             /\ sent w' = sent w ++ [GetAnglesMsg]
             /\ calls w' = S (calls w).
Proof.
  intros H. unfold MoveRel. rewrite _process_eq.
  assert (has "hz" (fst (transport (calls w)))
          && has "v" (fst (transport (calls w))) = false) as ->.
  { destruct H as [-> | ->]; [reflexivity | apply andb_false_r]. }
  eexists. split; [reflexivity|]. split; reflexivity.
Qed.

Lemma MoveRel_written (hz_rel v_rel : Q) (atr : Z) (w : world)
    (r : option Measurement) (w' : world) :
  MoveRel transport hz_rel v_rel atr w = Ok (r, w') -> written w' = written w.
Proof.
  unfold MoveRel, Move. rewrite _process_eq.
  destruct (_ && _).
  - destruct (getitem "hz" _) as [[]|]; cbn [mbind result_bind];
      try discriminate.
    destruct (getitem "v" _) as [[]|]; cbn [mbind result_bind];
      try discriminate.
    rewrite _process_eq. intros [= _ <-]. reflexivity.
  - intros [= _ <-]. reflexivity.
Qed.

(** [Move] sends an angle that is not negative as it is. *)
Lemma Positive_nonneg (a : Q) : 0 <= a -> Positive a = a.
Proof.
  intros H. unfold Positive.
  assert (Qle_bool 0 a = true) as -> by (apply Qle_bool_iff, H). reflexivity.
Qed.

(** C2, as amended.  With a measure unit that has no message to change
    face, [ChangeFace] reads the angles and sends one move, to
    [hz + 180 degrees] and [360 degrees - v] (each sent as it is when it is
    not negative); for [hz = 50 gon] and [v = 80 gon] the target of the move
    is [hz = 250 gon], [v = 320 gon]. *)
Theorem ChangeFace_derived (mu : MeasureUnit) (w : world) (h z : Q) :
  (ChangeFaceMsg_of mu = None ->
   fst (transport (calls w)) !! "hz" = Some (VAngle h) ->
   fst (transport (calls w)) !! "v" = Some (VAngle z) ->
   exists m w',
     ChangeFace mu transport w = Ok (m, w')
     /\ sent w' = sent w ++
          [GetAnglesMsg;
           MoveMsg (Positive (h + deg2rad 180))
                   (Positive (deg2rad 360 - z)) 0]
     /\ (0 <= h + deg2rad 180 ->
         Positive (h + deg2rad 180) = h + deg2rad 180)
     /\ (0 <= deg2rad 360 - z ->
         Positive (deg2rad 360 - z) = deg2rad 360 - z))
  /\ rad2gon (Positive (gon2rad 50 + deg2rad 180)) == 250
  /\ rad2gon (Positive (deg2rad 360 - gon2rad 80)) == 320.
Proof.
  split; [|split; reflexivity].
  intros Hmu Hhz Hv. unfold ChangeFace, GetAngles, Move. rewrite Hmu.
  rewrite !_process_eq. unfold getitem. rewrite Hhz.
  cbn [mbind result_bind].
  change (__init__ (VInt 180 : pyval Q) (UnitName "DEG") false false)
    with (Ok (deg2rad 180)).
  change (__init__ (VInt 360 : pyval Q) (UnitName "DEG") false false)
    with (Ok (deg2rad 360)).
  cbn [mbind result_bind].
  rewrite lookup_insert_ne by discriminate. rewrite Hv.
  cbn [mbind result_bind]. rewrite _process_eq. cbn [calls sent].
  eexists _, _. split; [reflexivity|].
  split; [rewrite <- app_assoc; reflexivity|].
  split; apply Positive_nonneg.
Qed.

End SessionFacts.

Lemma GetMeasure_poll_witness :
  exists meas w',
    GetMeasure fifth_transport 15000 0 world0 = (meas, w')
    /\ calls w' = 5%nat /\ has "distance" meas = true /\ slept w' = 8%Z.
Proof.
  destruct (GetMeasure fifth_transport 15000 0 world0) as [meas w'] eqn:E.
  destruct (GetMeasure_poll fifth_transport 15000 0 world0 meas w' E)
    as (k & _ & Hc & _ & Hsl & _ & _ & _ & Hfifth).
  destruct (Hfifth 4%nat) as [-> Hhas].
  - lia.
  - intros j Hj. do 4 (destruct j as [|j]; [reflexivity|]). lia.
  - reflexivity.
  - exists meas, w'. split; [reflexivity|]. split; [exact Hc|].
    split; [exact Hhas|exact Hsl].
Defined.

Lemma MoveRel_no_move_witness :
  exists w', MoveRel no_v_transport 0 0 1 world0 = Ok (None, w')
             /\ sent w' = [GetAnglesMsg] /\ calls w' = 1%nat.
Proof.
  apply (MoveRel_no_move no_v_transport 0 0 1 world0). right. reflexivity.
Defined.

Lemma ChangeFace_derived_witness :
  exists m w',
    ChangeFace Trimble5500 face_transport world0 = Ok (m, w')
    /\ sent w' =
         [GetAnglesMsg;
          MoveMsg (gon2rad 50 + deg2rad 180) (deg2rad 360 - gon2rad 80) 0]%Q.
Proof.
  destruct (proj1 (ChangeFace_derived face_transport Trimble5500 world0
                     (gon2rad 50) (gon2rad 80)) eq_refl eq_refl eq_refl)
    as (m & w' & E & Hs & Hhz & Hv).
  exists m, w'. split; [exact E|].
  rewrite Hs, Hhz, Hv by discriminate. reflexivity.
Defined.

(** C2 as stated fails on its example: from [hz = 50 gon], [v = 80 gon] the
    move goes to [hz = 250 gon], not to [230 gon]. *)
Lemma ChangeFace_target_not_230 :
  exists m w' hz v,
    ChangeFace Trimble5500 face_transport world0 = Ok (m, w')
    /\ sent w' = [GetAnglesMsg; MoveMsg hz v 0]
    /\ (rad2gon v == 320)%Q
    /\ (rad2gon hz == 250)%Q
    /\ ~ (rad2gon hz == 230)%Q.
Proof.
  eexists _, _, _, _. split; [reflexivity|]. split; [reflexivity|].
  split; [reflexivity|]. split; [reflexivity|]. discriminate.
Qed.

(** ** The tracking loop *)

Section TrackingFacts.

Local Open Scope Q_scope.

Variable transport : nat -> reply.
Variable sin cos : Q -> Q.

(** The part of a cycle that depends on the mode reads the instrument and
    keeps the distance of the tracker as it is. *)
Lemma mode5_keeps_distance (t : tracker) (w : world) (f : flow) :
  mode5 transport t w = Ok f ->
  slopeDist match f with Continue t' _ | Store t' _ => t' end = slopeDist t.
Proof.
  unfold mode5. destruct (GetAngles transport w) as [meas w1].
  cbn [moving set_measurement prev_hz prev_v last_hz last_v limit].
  intros H.
  repeat match type of H with
         | (if ?c then _ else _) = _ => destruct c
         | (let '(_, _) := ?p in _) = _ => destruct p
         | (?r ≫= _) = _ =>
             destruct r; cbn [mbind result_bind] in H; [|discriminate H]
         end;
    injection H as <-; reflexivity.
Qed.

Lemma measure_keeps_distance (t : tracker) (w : world) (f : flow) :
  measure transport t w = Ok f ->
  slopeDist match f with Continue t' _ | Store t' _ => t' end = slopeDist t.
Proof.
  unfold measure. intros H.
  repeat match type of H with
         | (if (mode t =? 5)%Z then _ else _) = _ =>
             destruct (mode t =? 5)%Z;
             [exact (mode5_keeps_distance _ _ _ H)|]
         | (if ?c then _ else _) = _ => destruct c
         | (let '(_, _) := ?p in _) = _ => destruct p
         | (?r ≫= _) = _ =>
             destruct r as [[? ?]|]; cbn [mbind result_bind] in H;
             [|discriminate H]
         end;
    injection H as <-; reflexivity.
Qed.

(** The distance the program starts with: the one of its first
    measurement, and 0 without one. *)
Lemma init_distance (mu : MeasureUnit) (mode : Z) (edm : string)
    (w : world) (t : tracker) (w' : world) :
  init mu transport mode edm w = Ok (t, w') ->
  slopeDist t = match measurement t with
                | Some m => match m !! "distance" with
                            | Some x => x
                            | None => VInt 0
                            end
                | None => VInt 0
                end.
Proof.
  unfold init. intros H.
  destruct (SetEDMMode _ _ _) as [? w1].
  destruct (0 <? mode)%Z.
  - destruct (SetLock _ _ _) as [? w2]. destruct (SetATR _ _ _) as [? w3].
    destruct (MoveRel _ _ _ _ _) as [[? w4]|]; cbn [mbind result_bind] in H;
      [|discriminate H].
    destruct (Measure _ _ _ _) as [? w5].
    destruct (GetMeasure _ _ _ _) as [meas w6].
    assert ((if has "distance" meas then getitem "distance" meas
             else Ok (VInt 0 : pyval Q))
            = Ok match meas !! "distance" with
                 | Some x => x
                 | None => VInt 0
                 end) as E.
    { unfold has, getitem. destruct (meas !! "distance") as [x|].
      - rewrite bool_decide_eq_true_2 by eauto. reflexivity.
      - rewrite bool_decide_eq_false_2; [reflexivity|].
        intros [? ?]; discriminate. }
    rewrite E in H. cbn [mbind result_bind] in H.
    repeat match type of H with
           | (if ?c then _ else _) = _ => destruct c
           | (let '(_, _) := ?p in _) = _ => destruct p
           | (?r ≫= _) = _ =>
               destruct r; cbn [mbind result_bind] in H; [|discriminate H]
           end;
      injection H as <- <-; reflexivity.
  - destruct (SetATR _ _ _) as [? w2]. injection H as <- <-. reflexivity.
Qed.

(** The shared step leaves the tracker with the distance of the
    measurement, and with the one it had when the measurement has none. *)
Lemma store_distance (t : tracker) (w : world) (m : Measurement)
    (t' : tracker) (w' : world) :
  measurement t = Some m ->
  store sin cos t w = Ok (t', w') ->
  slopeDist t' = match m !! "distance" with
                 | Some x => x
                 | None => slopeDist t
                 end.
Proof.
  intros Hm. unfold store. rewrite Hm.
  assert ((if has "distance" m then getitem "distance" m
           else Ok (slopeDist t))
          = Ok match m !! "distance" with
               | Some x => x
               | None => slopeDist t
               end) as ->.
  { unfold has, getitem. destruct (m !! "distance") as [x|].
    - rewrite bool_decide_eq_true_2 by eauto. reflexivity.
    - rewrite bool_decide_eq_false_2; [reflexivity|].
      intros [? ?]; discriminate. }
  cbn [mbind result_bind]. intros H.
  repeat match type of H with
         | (if ?c then _ else _) = _ => destruct c
         | match ?o with Some _ => _ | None => _ end = _ =>
             destruct o; [|discriminate H]
         | (?r ≫= _) = _ =>
             destruct r; cbn [mbind result_bind] in H; [|discriminate H]
         end;
    injection H as <- <-; reflexivity.
Qed.

(** C5, as amended.  The step that all modes share hands the record to
    the Writer exactly when both angles are in the measurement of the
    cycle: then the record is the measurement with
    [east = d sin(v) sin(hz)], [north = d sin(v) cos(hz)] and
    [elev = d cos(v)], where [d] is the distance of the measurement when it
    has one and the distance kept from an earlier cycle otherwise.  When an
    angle is missing, the step reports the missing data and writes
    nothing.  In both cases [d] is the distance the tracker keeps for the
    cycles to come.  A cycle that does not reach the step keeps the
    distance it started with; one that reaches it ends with the distance of
    its measurement, or with the one it started with when the measurement
    has none.  The program starts with the distance of its first
    measurement, or with 0. *)
Theorem store_iff_angles (t : tracker) (w : world) (m : Measurement) :
  measurement t = Some m ->
  let dist := match m !! "distance" with
              | Some x => x
              | None => slopeDist t
              end in
  (forall dir zen d,
     m !! "hz" = Some (VAngle dir) -> m !! "v" = Some (VAngle zen) ->
     as_float dist = Ok d ->
     exists t',
       store sin cos t w =
       Ok (t', WriteData (<["elev" := VFloat (d * cos zen)]>
                         (<["north" := VFloat (d * sin zen * cos dir)]>
                         (<["east" := VFloat (d * sin zen * sin dir)]> m))) w)
       /\ slopeDist t' = dist)
  /\ (has "hz" m = false \/ has "v" m = false ->
      exists t',
        store sin cos t w =
        Ok (t', log "Some measurement data(s) are missing..." w)
        /\ slopeDist t' = dist)
  /\ (forall t0 w0 t1 w1,
        cycle transport sin cos t0 w0 = Ok (t1, w1) ->
        (exists w', measure transport t0 w0 = Ok (Continue t1 w')
                    /\ slopeDist t1 = slopeDist t0)
        \/ (exists t' w' m0,
              measure transport t0 w0 = Ok (Store t' w')
              /\ measurement t' = Some m0
              /\ slopeDist t1 = match m0 !! "distance" with
                                | Some x => x
                                | None => slopeDist t0
                                end))
  /\ (forall mu mode edm w0 t0 w1,
        init mu transport mode edm w0 = Ok (t0, w1) ->
        slopeDist t0 = match measurement t0 with
                       | Some m0 => match m0 !! "distance" with
                                    | Some x => x
                                    | None => VInt 0
                                    end
                       | None => VInt 0
                       end).
Proof.
  intros Hm dist. split; [|split; [|split]].
  - intros dir zen d Hhz Hv Hd. unfold store. rewrite Hm.
    rewrite (has_true "hz" m _ Hhz), (has_true "v" m _ Hv).
    unfold getitem. rewrite Hhz, Hv. subst dist.
    destruct (m !! "distance") as [x|] eqn:Hx.
    + rewrite (has_true "distance" m _ Hx).
      cbn [mbind result_bind fmap result_fmap andb GetAngle].
      rewrite Hd. cbn [mbind result_bind]. eexists. split; reflexivity.
    + assert (has "distance" m = false) as ->.
      { unfold has. apply bool_decide_eq_false. rewrite Hx.
        intros [? ?]. discriminate. }
      cbn [mbind result_bind fmap result_fmap andb GetAngle].
      rewrite Hd. cbn [mbind result_bind]. eexists. split; reflexivity.
  - intros Hmiss. unfold store. rewrite Hm. subst dist.
    assert (has "hz" m && has "v" m = false) as Hboth.
    { destruct Hmiss as [-> | ->]; [reflexivity | apply andb_false_r]. }
    assert ((if has "distance" m then getitem "distance" m
             else Ok (slopeDist t))
            = Ok match m !! "distance" with
                 | Some x => x
                 | None => slopeDist t
                 end) as ->.
    { unfold has, getitem. destruct (m !! "distance") as [x|].
      - rewrite bool_decide_eq_true_2 by eauto. reflexivity.
      - rewrite bool_decide_eq_false_2; [reflexivity|].
        intros [? ?]; discriminate. }
    (destruct (has "hz" m) eqn:Hh;
     [apply getitem_has in Hh as (y & _ & ->)|]);
      (destruct (has "v" m) eqn:Hvv;
       [apply getitem_has in Hvv as (z & _ & ->)|]);
      try discriminate Hboth;
      cbn [mbind result_bind fmap result_fmap andb]; eexists;
      split; reflexivity.
  - intros t0 w0 t1 w1. unfold cycle.
    destruct (measure transport t0 w0) as [f|] eqn:E;
      cbn [mbind result_bind]; [|discriminate].
    pose proof (measure_keeps_distance _ _ _ E) as Hk.
    destruct f as [t' w'|t' w'].
    + intros [= <- <-]. left. exists w'. split; [reflexivity|exact Hk].
    + intros Hs. right.
      destruct (measurement t') as [m0|] eqn:Em.
      * exists t', w', m0. split; [reflexivity|]. split; [exact Em|].
        rewrite <- Hk. apply (store_distance _ _ _ _ _ Em Hs).
      * unfold store in Hs. rewrite Em in Hs. discriminate Hs.
  - apply init_distance.
Qed.

(** In the stopped state a cycle of mode 5 only reads the angles: it
    measures no distance and stores nothing. *)
Lemma mode5_stopped (t : tracker) (w : world) (f : flow) :
  moving t = false ->
  mode5 transport t w = Ok f ->
  exists t' w', f = Continue t' w'
                /\ sent w' = sent w ++ [GetAnglesMsg]
                /\ written w' = written w.
Proof.
  intros Hmv. unfold mode5, GetAngles. rewrite _process_eq.
  cbn [moving set_measurement last_hz last_v prev_hz prev_v limit].
  rewrite Hmv. cbv iota.
  destruct (within (last_hz t) _ _ _) as [c1|]; cbn [mbind result_bind];
    [|discriminate].
  destruct c1.
  - destruct (within (last_v t) _ _ _) as [c2|]; cbn [mbind result_bind];
      [|discriminate].
    destruct c2; cbn [negb]; intros [= <-]; eexists _, _; repeat split.
  - cbn [mbind result_bind negb]. intros [= <-]. eexists _, _; repeat split.
Qed.

Lemma within_angles (a b lim : Q) (key : string) (m : Measurement) :
  m !! key = Some (VAngle b) ->
  within (VAngle a) key m lim = Ok (Qltb (Qabs (a - b)) lim).
Proof.
  intros H. unfold within, getitem. rewrite H. reflexivity.
Qed.

(** A stopped detector whose horizontal angle is away from the last
    recorded one by the limit or more is set moving again. *)
Lemma mode5_stopped_jump (t : tracker) (w : world) (a b : Q) :
  moving t = false ->
  last_hz t = VAngle a ->
  fst (transport (calls w)) !! "hz" = Some (VAngle b) ->
  limit t <= Qabs (a - b) ->
  exists w',
    mode5 transport t w
    = Ok (Continue (set_moving true
                      (set_measurement (fst (transport (calls w))) t)) w')
    /\ sent w' = sent w ++ [GetAnglesMsg]
    /\ written w' = written w.
Proof.
  intros Hmv Hlast Hhz Hjump. unfold mode5, GetAngles. rewrite _process_eq.
  cbn [moving set_measurement last_hz last_v prev_hz prev_v limit].
  rewrite Hmv. cbv iota. rewrite Hlast.
  rewrite (within_angles a b _ "hz" _ Hhz). cbn [mbind result_bind].
  assert (Qltb (Qabs (a - b)) (limit t) = false) as ->.
  { unfold Qltb. apply negb_false_iff, Qle_bool_iff, Hjump. }
  cbn [mbind result_bind negb]. eexists. repeat split.
Qed.

(** In the moving state a cycle of mode 5 goes on to the distance
    measurement only when the counter has already reached 3: the cycle that
    stops is at least the fourth one within the limit.  Any other cycle
    leaves the detector moving, with the counter as it was or one more. *)
Lemma mode5_moving (t : tracker) (w : world) (f : flow) :
  moving t = true ->
  mode5 transport t w = Ok f ->
  (exists t' w', f = Continue t' w'
                 /\ moving t' = true /\ mode t' = mode t
                 /\ (n t <= n t' <= n t + 1)%Z
                 /\ sent w' = sent w ++ [GetAnglesMsg]
                 /\ written w' = written w)
  \/ (exists t' w', f = Store t' w'
                    /\ (3 <= n t)%Z
                    /\ moving t' = false /\ n t' = 0%Z).
Proof.
  intros Hmv. unfold mode5, GetAngles. rewrite _process_eq.
  cbn [moving set_measurement last_hz last_v prev_hz prev_v limit].
  rewrite Hmv. cbv iota.
  destruct (within (prev_hz t) _ _ _) as [c1|]; cbn [mbind result_bind];
    [|discriminate].
  assert (forall m, (getitem "hz" m ≫= λ prev_hz : pyval Q,
             getitem "v" m ≫= λ prev_v : pyval Q,
               Ok (Continue (set_prev prev_hz prev_v
                      (set_measurement m t))
                      (snd (_process transport GetAnglesMsg w))))
          = Ok f -> exists t' w', f = Continue t' w' /\ moving t' = true
               /\ mode t' = mode t /\ (n t <= n t' <= n t + 1)%Z
               /\ sent w' = sent w ++ [GetAnglesMsg]
               /\ written w' = written w) as Hjump.
  { intros m. destruct (getitem "hz" m); cbn [mbind result_bind];
      [|discriminate].
    destruct (getitem "v" m); cbn [mbind result_bind]; [|discriminate].
    intros [= <-]. rewrite _process_eq. eexists _, _.
    split; [reflexivity|].
    cbn [moving mode n set_prev set_measurement sent written snd].
    split; [exact Hmv|]. split; [reflexivity|]. split; [lia|].
    split; reflexivity. }
  destruct c1.
  - destruct (within (prev_v t) _ _ _) as [c2|]; cbn [mbind result_bind];
      [|discriminate].
    destruct c2.
    + cbn [n set_n set_measurement]. destruct (n t + 1 <=? 3)%Z eqn:Hn.
      * intros [= <-]. left. eexists _, _.
        split; [reflexivity|].
        cbn [moving mode n set_n set_measurement sent written].
        split; [exact Hmv|]. split; [reflexivity|]. split; [lia|].
        split; reflexivity.
      * apply Z.leb_gt in Hn.
        unfold Measure. rewrite _process_eq.
        destruct (GetMeasure _ _ _ _) as [m w1].
        destruct (getitem "hz" m); cbn [mbind result_bind]; [|discriminate].
        destruct (getitem "v" m); cbn [mbind result_bind]; [|discriminate].
        intros [= <-]. right. eexists _, _. repeat split. lia.
    + intros H. left. rewrite _process_eq in Hjump. apply (Hjump _ H).
  - cbn [mbind result_bind]. intros H. left. rewrite _process_eq in Hjump.
    apply (Hjump _ H).
Qed.

(** A cycle of the loop in mode 5 with the detector moving and its counter
    below 3 reads the angles and nothing else, and leaves the detector
    moving. *)
Lemma cycle_mode5_moving (t : tracker) (w : world) (t' : tracker) (w' : world) :
  mode t = 5%Z -> moving t = true -> (n t < 3)%Z ->
  cycle transport sin cos t w = Ok (t', w') ->
  moving t' = true /\ mode t' = 5%Z /\ (n t <= n t' <= n t + 1)%Z
  /\ sent w' = sent w ++ [GetAnglesMsg] /\ written w' = written w.
Proof.
  intros Hmode Hmv Hn. unfold cycle, measure. rewrite Hmode. cbn [Z.eqb Pos.eqb].
  destruct (mode5 transport t w) as [f|] eqn:E; cbn [mbind result_bind];
    [|discriminate].
  apply (mode5_moving t w f Hmv) in E
    as [(t1 & w1 & -> & Hm1 & Hmo & Hn1 & Hs & Hw)|(t1 & w1 & _ & H3 & _)];
    [|lia].
  intros [= <- <-]. rewrite Hmo, Hmode. auto.
Qed.

(** From a counter at 0, no three cycles stop the detector: after them it
    is still moving and nothing but angle reads was sent. *)
Lemma cycles_mode5_three (t : tracker) (w : world) (t' : tracker) (w' : world) :
  mode t = 5%Z -> moving t = true -> n t = 0%Z ->
  cycles transport sin cos 3 t w = Ok (t', w') ->
  moving t' = true
  /\ written w' = written w
  /\ exists k, (k <= 3)%nat /\ sent w' = sent w ++ repeat GetAnglesMsg k.
Proof.
  intros Hmode Hmv Hn. cbn [cycles].
  destruct (state_ok (state w));
    [|intros [= <- <-]; split; [exact Hmv|]; split; [reflexivity|];
      exists 0%nat; rewrite app_nil_r; split; [lia|reflexivity]].
  destruct (cycle transport sin cos t w) as [[t1 w1]|] eqn:E1;
    cbn [mbind result_bind]; [|discriminate].
  apply cycle_mode5_moving in E1 as (Hmv1 & Hmode1 & Hn1 & Hs1 & Hw1);
    [|assumption|assumption|lia].
  destruct (state_ok (state w1));
    [|intros [= <- <-]; split; [exact Hmv1|]; split; [exact Hw1|];
      exists 1%nat; split; [lia|exact Hs1]].
  destruct (cycle transport sin cos t1 w1) as [[t2 w2]|] eqn:E2;
    cbn [mbind result_bind]; [|discriminate].
  apply cycle_mode5_moving in E2 as (Hmv2 & Hmode2 & Hn2 & Hs2 & Hw2);
    [|assumption|assumption|lia].
  destruct (state_ok (state w2));
    [|intros [= <- <-]; split; [exact Hmv2|]; split; [congruence|];
      exists 2%nat; split; [lia|]; rewrite Hs2, Hs1, <- app_assoc;
      reflexivity].
  destruct (cycle transport sin cos t2 w2) as [[t3 w3]|] eqn:E3;
    cbn [mbind result_bind]; [|discriminate].
  apply cycle_mode5_moving in E3 as (Hmv3 & Hmode3 & Hn3 & Hs3 & Hw3);
    [|assumption|assumption|lia].
  intros [= <- <-]. split; [exact Hmv3|]. split; [congruence|].
  exists 3%nat. split; [lia|].
  rewrite Hs3, Hs2, Hs1, <- !app_assoc. reflexivity.
Qed.

End TrackingFacts.

Lemma store_iff_angles_witness :
  exists t',
    store (fun x => x) (fun x => x) angles_only_tracker world0 =
    Ok (t', WriteData (<["elev" := VFloat (10 * (3 # 2))%Q]>
                      (<["north" := VFloat (10 * (3 # 2) * 1)%Q]>
                      (<["east" := VFloat (10 * (3 # 2) * 1)%Q]> still)))
              world0)
    /\ slopeDist t' = VFloat 10.
Proof.
  apply (proj1 (store_iff_angles (scripted []) (fun x => x) (fun x => x)
                  angles_only_tracker world0 still eq_refl)
           1%Q (3 # 2)%Q 10%Q); reflexivity.
Defined.

(** C5 as stated fails: a cycle whose measurement has both angles and no
    distance still writes a record, with the distance kept from before. *)
Lemma store_without_distance :
  ~ (forall (sin cos : Q -> Q) (t : tracker) (w : world) (m : Measurement)
            (t' : tracker) (w' : world),
       measurement t = Some m ->
       store sin cos t w = Ok (t', w') ->
       written w' <> written w ->
       has "distance" m = true /\ has "hz" m = true /\ has "v" m = true).
Proof.
  intros H.
  pose proof (H (fun x => x) (fun x => x) angles_only_tracker world0 still)
    as H'.
  vm_compute in H'.
  destruct (H' _ _ eq_refl eq_refl) as [Hd _]; discriminate.
Qed.

(** C1.  The run [mode5_run]: the detector starts in the moving state with
    its counter at 0; after three cycles with the angles unchanged it is
    still moving, has sent nothing but the three angle reads and has
    recorded nothing; the fourth such cycle stops it, with one [Measure],
    one [GetMeasure] and one record; a later cycle with a jump of one
    radian sets it moving again and records nothing. *)
Theorem mode5_stops_at_fourth_cycle (sin cos : Q -> Q) :
  observe (mode5_run sin cos 0) = Ok (true, 0%Z, mode5_start_msgs, [])
  /\ observe (mode5_run sin cos 3)
     = Ok (true, 3%Z,
           mode5_start_msgs ++ [GetAnglesMsg; GetAnglesMsg; GetAnglesMsg], [])
  /\ observe (mode5_run sin cos 4)
     = Ok (false, 0%Z,
           mode5_start_msgs ++ [GetAnglesMsg; GetAnglesMsg; GetAnglesMsg]
           ++ [GetAnglesMsg; MeasureMsg "DEFAULT" 0; GetMeasureMsg 15000 0],
           [mode5_record sin cos])
  /\ observe (mode5_run sin cos 6)
     = Ok (true, 0%Z,
           mode5_start_msgs ++ [GetAnglesMsg; GetAnglesMsg; GetAnglesMsg]
           ++ [GetAnglesMsg; MeasureMsg "DEFAULT" 0; GetMeasureMsg 15000 0]
           ++ [GetAnglesMsg; GetAnglesMsg],
           [mode5_record sin cos]).
Proof.
  repeat split; vm_compute; reflexivity.
Qed.

(** ** The horizontal section *)

Section ScanFacts.

Local Open Scope Q_scope.

Variable py : python.
Variable mu : MeasureUnit.
Variable transport : nat -> reply.
Variable acos : Q -> Q.
Variable self : HorizontalSection.

Section Frames.

Variable cos : Q -> Q.

Lemma next_direction_written (wd wd' : world) :
  next_direction transport self wd = Returns wd' -> written wd' = written wd.
Proof.
  unfold next_direction.
  destruct (MoveRel transport _ _ _ wd) as [[r w1]|] eqn:E;
    cbn [lift mbind outcome_bind]; [|discriminate].
  intros [= <-]. apply (MoveRel_written _ _ _ _ _ _ _ E).
Qed.

Lemma wait_distance_written (fuel : nat) :
  forall nextp wd nextp' wd',
    wait_distance transport fuel nextp wd = Returns (nextp', wd') ->
    written wd' = written wd.
Proof.
  induction fuel as [|fuel IH]; intros nextp wd nextp' wd';
    cbn [wait_distance];
    destruct (negb (has "distance" nextp)); try discriminate;
    try (intros [= _ <-]; reflexivity).
  destruct (GetMeasure transport 15000 0 (sleep 2 wd)) as [p w1] eqn:E.
  intros H. apply IH in H. rewrite H.
  apply GetMeasure_written in E. exact E.
Qed.

(** The loop that looks for the elevation stores nothing; when it ends
    with the flag [w] down, either it did not run, or it gave the point up:
    it logged the warning and put the interface back in the state
    [IF_OK]. *)
Lemma elevation_while_gives_up (fuel : nat) :
  forall height0 height index nextp w wd nextp' w' wd',
    elevation_while transport cos acos self fuel height0 height index nextp
                    w wd
    = Returns (nextp', w', wd') ->
    written wd' = written wd
    /\ (w' = false ->
        (w = false /\ wd' = wd)
        \/ exists wd1, wd' = log "Missing measurement" (set_state IF_OK wd1)).
Proof.
  induction fuel as [|fuel IH];
    intros height0 height index nextp w wd nextp' w' wd';
    cbn [elevation_while]; destruct (Qltb _ _); try discriminate;
    try (intros [= _ <- <-]; split;
         [reflexivity | intros ->; left; split; reflexivity]).
  destruct (lift (getitem "v" nextp ≫= GetAngle)) as [zenith| |];
    cbn [mbind outcome_bind]; try discriminate.
  destruct (lift (getitem "distance" nextp ≫= as_float)) as [distance| |];
    cbn [mbind outcome_bind]; try discriminate.
  destruct (lift (truediv height0 distance ≫= math_acos acos))
    as [zenith1| |]; cbn [mbind outcome_bind]; try discriminate.
  destruct (MoveRel transport 0 (zenith1 - zenith) 0 wd) as [[o wd1]|] eqn:E1;
    cbn [lift mbind outcome_bind]; try discriminate.
  apply MoveRel_written in E1.
  unfold Measure. rewrite _process_eq.
  destruct (_ || _).
  - intros [= _ <- <-]. split; [exact E1|]. intros _. right.
    eexists. reflexivity.
  - destruct (GetMeasure transport 15000 0 _) as [nextp1 wd3] eqn:E3.
    apply GetMeasure_written in E3. cbn [written] in E3.
    destruct (wait_distance transport fuel nextp1 wd3)
      as [[nextp2 wd4]| |] eqn:E4;
      cbn [mbind outcome_bind]; try discriminate.
    apply wait_distance_written in E4.
    destruct (_ || _).
    + intros [= _ <- <-]. split; [congruence|]. discriminate.
    + destruct (lift (height_of cos nextp2)) as [height1| |];
        cbn [mbind outcome_bind]; try discriminate.
      intros H. apply IH in H as [Hw Hf]. split; [congruence|].
      intros Hfalse. destruct (Hf Hfalse) as [[? _]|?]; [discriminate|].
      right. assumption.
Qed.

(** The loop gives a point up when, after the correcting move and
    [Measure], the iteration ceiling is exceeded or the interface is not in
    the state [IF_OK]: it ends with the flag [w] down, the interface put
    back in the state [IF_OK] and the warning logged. *)
Lemma elevation_while_ceiling (fuel : nat) (height0 height : Q) (index : Z)
    (nextp : Measurement) (w : bool) (wd : world) (zenith distance zenith1 : Q)
    (o : option Measurement) (wd1 : world) :
  Qltb (tol self) (Qabs (height - height0)) = true ->
  getitem "v" nextp ≫= GetAngle = Ok zenith ->
  getitem "distance" nextp ≫= as_float = Ok distance ->
  truediv height0 distance ≫= math_acos acos = Ok zenith1 ->
  MoveRel transport 0 (zenith1 - zenith) 0 wd = Ok (o, wd1) ->
  (maxiter self < index + 1)%Z
  \/ state_ok (snd (transport (calls wd1))) = false ->
  elevation_while transport cos acos self (S fuel) height0 height index nextp
                  w wd
  = Returns (nextp, false,
             log "Missing measurement"
               (set_state IF_OK (snd (Measure transport "DEFAULT" 0 wd1)))).
Proof.
  intros Htol Hz Hd Ha Hmove Hgive. cbn [elevation_while].
  rewrite Htol, Hz. cbn [lift mbind outcome_bind].
  rewrite Hd. cbn [lift mbind outcome_bind].
  rewrite Ha. cbn [lift mbind outcome_bind].
  rewrite Hmove. cbn [lift mbind outcome_bind].
  unfold Measure. rewrite _process_eq. cbn [state snd].
  assert ((maxiter self <? index + 1)%Z
          || negb (state_ok (snd (transport (calls wd1)))) = true) as ->.
  { destruct Hgive as [H|H].
    - apply Z.ltb_lt in H. rewrite H. reflexivity.
    - rewrite H. apply orb_true_r. }
  reflexivity.
Qed.

(** While no reply has a distance, the wait for the distance after the
    correcting move does not end. *)
Lemma wait_distance_never_returns (fuel : nat) :
  forall nextp wd,
    has "distance" nextp = false ->
    (forall k, (calls wd <= k)%nat ->
       has "distance" (fst (transport k)) = false) ->
    wait_distance transport fuel nextp wd = OutOfFuel.
Proof.
  induction fuel as [|fuel IH]; intros nextp wd Hn Hall; cbn [wait_distance];
    rewrite Hn; cbn [negb]; [reflexivity|].
  destruct (GetMeasure transport 15000 0 (sleep 2 wd)) as [p w1] eqn:E.
  apply GetMeasure_reads in E as (k & Hk & Hc & _ & _ & Hp & _).
  cbn [calls sleep] in Hc, Hp.
  apply IH.
  - rewrite Hp. apply Hall. lia.
  - intros j Hj. apply Hall. lia.
Qed.

(** A point that ends with the flag [w] down is not stored, whatever made
    the loop give it up: the iteration ceiling or the state of the
    interface after [Measure]. *)
Lemma point_given_up_not_stored (fuel : nat) (height0 act : Q) (w : bool)
    (wd : world) (act' : Q) (wd' : world) :
  point py mu transport cos acos self fuel height0 act w wd
  = Returns (act', false, wd') ->
  written wd' = written wd.
Proof.
  unfold point, Measure. rewrite _process_eq.
  set (wd1 := mkWorld _ _ _ _ _ _).
  assert (written wd1 = written wd) as H1 by reflexivity.
  assert (forall wa, written wa = written wd ->
            (next_direction transport self wa ≫= λ wd0, Returns (act, w, wd0))
            = Returns (act', false, wd') ->
            written wd' = written wd) as Hskip.
  { intros wa Ha H.
    destruct (next_direction transport self wa) as [wc| |] eqn:E;
      cbn [mbind outcome_bind] in H; try discriminate.
    injection H as _ _ <-. apply next_direction_written in E. congruence. }
  destruct (negb (state_ok (state wd1))).
  { intros H. apply (Hskip (set_state IF_OK wd1)); auto. }
  destruct (GetMeasure transport 15000 0 _) as [nextp wd2] eqn:E2.
  assert (written wd2 = written wd) as H2.
  { apply GetMeasure_written in E2. rewrite E2. destruct mu; exact H1. }
  destruct (negb (state_ok (state wd2))).
  { intros H. apply (Hskip (set_state IF_OK wd2)); auto. }
  destruct (_ || _).
  { intros H. apply (Hskip wd2); auto. }
  destruct (lift (height_of cos nextp)) as [height| |];
    cbn [mbind outcome_bind]; try discriminate.
  destruct (elevation_while _ _ _ _ _ _ _ _ _ _ _)
    as [[[nextp' w'] wd3]| |] eqn:E3;
    cbn [mbind outcome_bind]; try discriminate.
  apply elevation_while_gives_up in E3 as [H3 _].
  destruct w'.
  { destruct (_ && _).
    - destruct (Coords transport 15000 0 wd3) as [coord wd4].
      destruct (lift (items_plus py nextp' coord)) as [res| |];
        cbn [mbind outcome_bind]; try discriminate;
        destruct (next_direction transport self _) as [wd5| |];
        cbn [mbind outcome_bind]; discriminate.
    - cbn [mbind outcome_bind].
      destruct (next_direction transport self _) as [wd5| |];
        cbn [mbind outcome_bind]; discriminate. }
  rewrite andb_false_r. cbn [mbind outcome_bind].
  destruct (next_direction transport self wd3) as [wd4| |] eqn:E4;
    cbn [mbind outcome_bind]; try discriminate.
  intros [= _ <-]. apply next_direction_written in E4. congruence.
Qed.

End Frames.

Section Ext.

(** The scan depends on [math.cos] only through its values. *)
Variable cos cos' : Q -> Q.
Hypothesis same : forall x, cos x = cos' x.

Lemma height_of_ext (p : Measurement) : height_of cos p = height_of cos' p.
Proof.
  unfold height_of.
  destruct (getitem "v" p ≫= GetAngle); cbn [mbind result_bind];
    [|reflexivity].
  destruct (getitem "distance" p ≫= as_float); cbn [mbind result_bind];
    [|reflexivity].
  rewrite same. reflexivity.
Qed.

Lemma elevation_while_ext (fuel : nat) :
  forall height0 height index nextp w wd,
    elevation_while transport cos acos self fuel height0 height index nextp
                    w wd
    = elevation_while transport cos' acos self fuel height0 height index
                      nextp w wd.
Proof.
  induction fuel as [|fuel IH]; intros; cbn [elevation_while]; [reflexivity|].
  destruct (Qltb _ _); [|reflexivity].
  destruct (lift (getitem "v" nextp ≫= GetAngle)) as [zenith| |];
    cbn [mbind outcome_bind]; [|reflexivity..].
  destruct (lift (getitem "distance" nextp ≫= as_float)) as [distance| |];
    cbn [mbind outcome_bind]; [|reflexivity..].
  destruct (lift (truediv height0 distance ≫= math_acos acos))
    as [zenith1| |]; cbn [mbind outcome_bind]; [|reflexivity..].
  destruct (lift (MoveRel transport 0 (zenith1 - zenith) 0 wd))
    as [[o wd1]| |]; cbn [mbind outcome_bind]; [|reflexivity..].
  destruct (Measure transport "DEFAULT" 0 wd1) as [m wd2].
  destruct (_ || _); [reflexivity|].
  destruct (GetMeasure transport 15000 0 wd2) as [nextp1 wd3].
  destruct (wait_distance transport fuel nextp1 wd3) as [[nextp2 wd4]| |];
    cbn [mbind outcome_bind]; [|reflexivity..].
  destruct (_ || _); [reflexivity|].
  rewrite height_of_ext.
  destruct (lift (height_of cos' nextp2)) as [height1| |];
    cbn [mbind outcome_bind]; [|reflexivity..].
  apply IH.
Qed.

Lemma point_ext (fuel : nat) (height0 act : Q) (w : bool) (wd : world) :
  point py mu transport cos acos self fuel height0 act w wd
  = point py mu transport cos' acos self fuel height0 act w wd.
Proof.
  unfold point.
  destruct (Measure transport "DEFAULT" 0 wd) as [m wd1].
  destruct (negb (state_ok (state wd1))); [reflexivity|].
  destruct (GetMeasure transport 15000 0 _) as [nextp wd2].
  destruct (negb (state_ok (state wd2))); [reflexivity|].
  destruct (_ || _); [reflexivity|].
  rewrite height_of_ext.
  destruct (lift (height_of cos' nextp)) as [height| |];
    cbn [mbind outcome_bind]; [|reflexivity..].
  rewrite elevation_while_ext. reflexivity.
Qed.

End Ext.

Lemma point_at_zero (cos : Q -> Q) (fuel : nat) (height0 act : Q) (w : bool)
    (wd : world) :
  cos 0 = 1 ->
  point py mu transport cos acos self fuel height0 act w wd
  = point py mu transport (at_zero cos) acos self fuel height0 act w wd.
Proof.
  intros Hcos. apply point_ext. intros [[|p|p] [d|d|]]; try reflexivity.
  exact Hcos.
Qed.

End ScanFacts.

(** C9.  A point of the scan whose reading after the correcting move has a
    distance and no zenith angle: the point is not at the elevation of the
    section (the first reading is 10 m straight up, the section is at
    0.5 m), the loop leaves with the flag [w] up and nothing is logged.
    Under Python 2 the point is stored, with the coordinates read next, and
    the scan turns to the next direction; under Python 3 the scan ends
    there with a [TypeError].  [math.cos] is any function with
    [cos 0 = 1]. *)
Theorem point_records_without_zenith (cos acos : Q -> Q) :
  cos 0%Q = 1%Q ->
  observe_point
    (point Python2 LeicaTPS1200 (scripted no_zenith_script) cos acos
           section_half 5 (1 # 2) 0 true world0)
  = Returns (true,
             [MeasureMsg "DEFAULT" 0; GetMeasureMsg 15000 0;
              GetAnglesMsg;
              MoveMsg (Positive (0 + 0)) (Positive (0 + (acos (1 # 20) - 0))) 0;
              MeasureMsg "DEFAULT" 0; GetMeasureMsg 15000 0;
              CoordsMsg 15000 0;
              GetAnglesMsg;
              MoveMsg (Positive (0 + deg2rad 45)) (Positive (0 + 0)) 0]%Q,
             [coords_1_2_3 ∪ no_zenith],
             [])
  /\ point Python3 LeicaTPS1200 (scripted no_zenith_script) cos acos
            section_half 5 (1 # 2) 0 true world0
     = Raises TypeError.
Proof.
  intros Hcos. rewrite !(point_at_zero _ _ _ _ _ cos _ _ _ _ _ Hcos).
  split; vm_compute; reflexivity.
Qed.

Lemma point_records_without_zenith_witness :
  observe_point
    (point Python2 LeicaTPS1200 (scripted no_zenith_script) (fun _ => 1%Q)
           (fun _ => 0%Q) section_half 5 (1 # 2) 0 true world0)
  = Returns (true,
             [MeasureMsg "DEFAULT" 0; GetMeasureMsg 15000 0;
              GetAnglesMsg;
              MoveMsg (Positive (0 + 0)) (Positive (0 + (0 - 0))) 0;
              MeasureMsg "DEFAULT" 0; GetMeasureMsg 15000 0;
              CoordsMsg 15000 0;
              GetAnglesMsg;
              MoveMsg (Positive (0 + deg2rad 45)) (Positive (0 + 0)) 0]%Q,
             [coords_1_2_3 ∪ no_zenith],
             [])
  /\ point Python3 LeicaTPS1200 (scripted no_zenith_script) (fun _ => 1%Q)
            (fun _ => 0%Q) section_half 5 (1 # 2) 0 true world0
     = Raises TypeError.
Proof.
  apply (point_records_without_zenith (fun _ => 1%Q) (fun _ => 0%Q)).
  reflexivity.
Defined.

(** ** Unit conversions *)

Section UnitFacts.

Local Open Scope Q_scope.

Lemma pi_neq_0 : ~ pi == 0.
Proof. discriminate. Qed.

Lemma Qdiv_const (x : Q) (p : positive) : x / (Z.pos p # 1) == x * (1 # p).
Proof. unfold Qdiv. reflexivity. Qed.

Lemma Qfloor_eq (z : Z) (x : Q) :
  inject_Z z <= x -> x < inject_Z z + 1 -> Qfloor x = z.
Proof.
  intros Hlo Hhi.
  assert (z <= Qfloor x)%Z as H1.
  { rewrite <- (Qfloor_Z z). apply Qfloor_resp_le, Hlo. }
  assert (Qfloor x < z + 1)%Z as H2.
  { rewrite Zlt_Qlt, inject_Z_plus. change (inject_Z 1) with 1.
    eapply Qle_lt_trans; [apply Qfloor_le|exact Hhi]. }
  lia.
Qed.

Lemma round_comp (x y : Q) : x == y -> round x = round y.
Proof.
  intros E. unfold round. rewrite (Qfloor_comp _ _ E).
  assert (x - inject_Z (Qfloor y) == y - inject_Z (Qfloor y)) as E'
    by (rewrite E; reflexivity).
  rewrite (Qcompare_comp _ _ E' _ _ (Qeq_refl (1 # 2))). reflexivity.
Qed.

Lemma round_inject_Z (z : Z) : round (inject_Z z) = z.
Proof.
  unfold round. rewrite Qfloor_Z.
  assert (inject_Z z - inject_Z z == 0) as E by ring.
  rewrite (Qcompare_comp _ _ E _ _ (Qeq_refl (1 # 2))). reflexivity.
Qed.

Lemma round10_exact (x : Q) (z : Z) :
  x * inject_Z (10 ^ 10) == inject_Z z ->
  round10 x == x.
Proof.
  intros E. unfold round10. rewrite (round_comp _ _ E), round_inject_Z.
  rewrite <- E. field. discriminate.
Qed.


(** X1.  For the units that are a factor times the radian value ([RAD], [DEG],
    [GON], [MIL], [SEC]) the constructor and [asunit] are inverse to each
    other, in both orders. *)
Theorem linear_units_inverse (u : AngleUnit) (x : Q) :
  In u [RAD; DEG; GON; MIL; SEC] ->
  (exists r y,
      __init__ (VFloat x : pyval Q) (UnitTag u) false false = Ok r
      /\ asunit r (UnitTag u) = Ok (VFloat y : pyval Q) /\ y == x)
  /\ (exists y r,
      asunit x (UnitTag u) = Ok (VFloat y : pyval Q)
      /\ __init__ (VFloat y : pyval Q) (UnitTag u) false false = Ok r
      /\ r == x).
Proof.
  intros Hu. simpl in Hu.
  destruct Hu as [<-|[<-|[<-|[<-|[<-|[]]]]]];
    (split; do 2 eexists; (split; [reflexivity|]); (split; [reflexivity|]));
    unfold deg2rad, rad2deg, gon2rad, rad2gon, mil2rad, rad2mil, sec2rad,
           rad2sec, radians, degrees, RO;
    try reflexivity; field; try (repeat split; discriminate).
Qed.

(** [pdeg2rad] on a value written [d.mmss]. *)
Lemma pdeg2rad_value (d m s : Z) :
  (0 <= m < 100)%Z -> (0 <= s < 100)%Z ->
  pdeg2rad (inject_Z d + inject_Z m / 100 + inject_Z s / 10000)
  == radians (inject_Z d + inject_Z m / 60 + inject_Z s / 3600).
Proof.
  intros Hm Hs.
  assert (0 <= inject_Z m /\ inject_Z m <= 99) as [Hm0 Hm1].
  { change 0 with (inject_Z 0). change 99 with (inject_Z 99).
    rewrite <- !Zle_Qle. lia. }
  assert (0 <= inject_Z s /\ inject_Z s <= 99) as [Hs0 Hs1].
  { change 0 with (inject_Z 0). change 99 with (inject_Z 99).
    rewrite <- !Zle_Qle. lia. }
  set (x := inject_Z d + inject_Z m / 100 + inject_Z s / 10000).
  unfold pdeg2rad, floor.
  assert (Qfloor x = d) as Ed.
  { apply Qfloor_eq; unfold x; rewrite !Qdiv_const; lra. }
  rewrite Ed.
  set (A1 := round10 ((x - inject_Z d) * 100)).
  assert (A1 == inject_Z m + inject_Z s / 100) as E1.
  { unfold A1. rewrite (round10_exact _ (m * 10 ^ 10 + s * 10 ^ 8)).
    - unfold x. field.
    - rewrite inject_Z_plus, !inject_Z_mult. unfold x.
      change (inject_Z (10 ^ 10)) with 10000000000.
      change (inject_Z (10 ^ 8)) with 100000000. field. }
  assert (Qfloor A1 = m) as Em.
  { apply Qfloor_eq; rewrite E1, Qdiv_const; lra. }
  rewrite Em.
  assert (round10 ((A1 - inject_Z m) * 100) == inject_Z s) as E2.
  { rewrite (round10_exact _ (s * 10 ^ 10)).
    - rewrite E1. field.
    - rewrite inject_Z_mult, E1.
      change (inject_Z (10 ^ 10)) with 10000000000. field. }
  apply radians_eq. rewrite E2. reflexivity.
Qed.

Lemma secs_split (secs : Z) :
  inject_Z secs ==
  3600 * inject_Z (secs / 60 / 60) + 60 * inject_Z ((secs / 60) mod 60)
  + inject_Z (secs mod 60).
Proof.
  change 3600 with (inject_Z 3600). change 60 with (inject_Z 60).
  rewrite <- !inject_Z_mult, <- !inject_Z_plus. apply inject_Z_injective.
  pose proof (Z.div_mod secs 60 ltac:(lia)).
  pose proof (Z.div_mod (secs / 60) 60 ltac:(lia)). lia.
Qed.

(** X2.  [pdeg2rad] reads [d.mmss] as [d] degrees, [mm] minutes and [ss]
    seconds, without a bound of 60 on either; when both are below 60,
    [rad2pdeg] gives the value back.  The value is one of less than 8192
    degrees in size: from there on a float no longer holds the four
    decimals well enough for the rounding to ten digits to give them
    back. *)
Theorem pdeg2rad_fields (d m s : Z) :
  (-8192 <= d < 8192)%Z -> (0 <= m < 100)%Z -> (0 <= s < 100)%Z ->
  let x := inject_Z d + inject_Z m / 100 + inject_Z s / 10000 in
  pdeg2rad x == radians (inject_Z d + inject_Z m / 60 + inject_Z s / 3600)
  /\ ((m < 60)%Z -> (s < 60)%Z -> rad2pdeg (pdeg2rad x) == x).
Proof.
  intros _ Hm Hs x. split; [apply pdeg2rad_value; assumption|].
  intros Hm' Hs'. unfold rad2pdeg.
  assert (round (pdeg2rad x * RO) = (d * 3600 + m * 60 + s)%Z) as E.
  { rewrite <- round_inject_Z. apply round_comp.
    unfold x. rewrite pdeg2rad_value by assumption.
    rewrite !inject_Z_plus, !inject_Z_mult. unfold radians, RO.
    change (inject_Z 3600) with 3600. change (inject_Z 60) with 60.
    field. repeat split; discriminate. }
  rewrite E.
  replace ((d * 3600 + m * 60 + s) / 60)%Z with (d * 60 + m)%Z
    by (apply Z.div_unique with s; lia).
  replace ((d * 3600 + m * 60 + s) mod 60)%Z with s
    by (apply Z.mod_unique with (d * 60 + m)%Z; lia).
  replace ((d * 60 + m) / 60)%Z with d
    by (apply Z.div_unique with m; lia).
  replace ((d * 60 + m) mod 60)%Z with m
    by (apply Z.mod_unique with d; lia).
  reflexivity.
Qed.

(** X3.  Writing an angle of at most 8191 degrees in size in pseudo degrees
    and reading it back gives the angle rounded to the arc second, for
    negative angles as well. *)
Theorem pdeg_roundtrip (a : Q) :
  Qabs (rad2deg a) <= 8191 ->
  pdeg2rad (rad2pdeg a) == inject_Z (round (a * RO)) / RO
  /\ Qabs (rad2sec (pdeg2rad (rad2pdeg a)) - rad2sec a) <= 1 # 2.
Proof.
  intros _.
  assert (pdeg2rad (rad2pdeg a) == inject_Z (round (a * RO)) / RO) as E.
  { unfold rad2pdeg. set (secs := round (a * RO)).
    rewrite pdeg2rad_value.
    - rewrite (secs_split secs). unfold radians, RO.
      field. repeat split; discriminate.
    - pose proof (Z.mod_pos_bound (secs / 60) 60 ltac:(lia)). lia.
    - pose proof (Z.mod_pos_bound secs 60 ltac:(lia)). lia. }
  split; [exact E|].
  unfold rad2sec. rewrite E.
  setoid_replace (inject_Z (round (a * RO)) / RO * RO)
    with (inject_Z (round (a * RO))) using relation Qeq
    by (field; discriminate).
  apply round_nearest.
Qed.


(** [int(x)]: the floor of a value that is not negative, the ceiling of a
    negative one. *)
Lemma int_of_float_spec (x : Q) :
  int_of_float x = if Qle_bool 0 x then Qfloor x else (- Qfloor (- x))%Z.
Proof.
  destruct (Qle_bool 0 x) eqn:E.
  - apply int_of_float_nonneg, Qle_bool_iff, E.
  - assert (0 <= - x) as H.
    { destruct (Qlt_le_dec x 0) as [L|L]; [lra|].
      apply Qle_bool_iff in L. congruence. }
    pose proof (int_of_float_nonneg _ H) as F. unfold floor in F.
    rewrite <- F, int_of_float_opp. lia.
Qed.

Lemma int_of_float_comp (x y : Q) : x == y -> int_of_float x = int_of_float y.
Proof.
  intros E. rewrite !int_of_float_spec.
  assert (Qle_bool 0 x = Qle_bool 0 y) as ->.
  { destruct (Qle_bool 0 x) eqn:A, (Qle_bool 0 y) eqn:B; try reflexivity.
    - apply Qle_bool_iff in A. rewrite E in A. apply Qle_bool_iff in A.
      congruence.
    - apply Qle_bool_iff in B. rewrite <- E in B. apply Qle_bool_iff in B.
      congruence. }
  assert (- x == - y) as E' by (rewrite E; reflexivity).
  rewrite (Qfloor_comp _ _ E), (Qfloor_comp _ _ E'). reflexivity.
Qed.




(** [x % m] lies in [0, m) and differs from [x] by a multiple of [m]. *)
Lemma fmod_range (x m : Q) : 0 < m -> 0 <= fmod x m /\ fmod x m < m.
Proof.
  intros Hm. unfold fmod. set (k := Qfloor (x / m)).
  pose proof (Qfloor_le (x / m)) as Hlo. pose proof (Qlt_floor (x / m)) as Hhi.
  fold k in Hlo, Hhi. rewrite inject_Z_plus in Hhi.
  change (inject_Z 1) with 1 in Hhi.
  assert (x == x / m * m) as E by (field; lra).
  apply (Qmult_le_compat_r _ _ m) in Hlo; [|lra].
  apply (Qmult_lt_compat_r _ _ m) in Hhi; [|lra].
  rewrite <- E in Hlo, Hhi. split; lra.
Qed.

Lemma fmod_small (x m : Q) : 0 <= x -> x < m -> fmod x m == x.
Proof.
  intros H0 H1. unfold fmod.
  assert (Qfloor (x / m) = 0%Z) as ->.
  { apply Qfloor_eq.
    - change (inject_Z 0) with 0. apply Qle_shift_div_l; lra.
    - change (inject_Z 0 + 1) with 1. apply Qlt_shift_div_r; lra. }
  change (inject_Z 0) with 0. ring.
Qed.

Lemma fmod_below (x m : Q) : - m <= x -> x < 0 -> fmod x m == x + m.
Proof.
  intros H0 H1. unfold fmod.
  assert (Qfloor (x / m) = (-1)%Z) as ->.
  { apply Qfloor_eq.
    - change (inject_Z (-1)) with (-1). apply Qle_shift_div_l; lra.
    - change (inject_Z (-1) + 1) with 0.
      apply Qlt_shift_div_r; lra. }
  change (inject_Z (-1)) with (-1). ring.
Qed.

Lemma PI2_pos : 0 < PI2.
Proof. reflexivity. Qed.

Lemma normalize_rad_spec (a : Q) (positive : bool) :
  let r := normalize_rad a positive in
  (exists k : Z, r == a + inject_Z k * PI2)
  /\ (if positive || Qle_bool 0 a then 0 <= r /\ r < PI2
      else - PI2 <= r /\ r < 0)
  /\ normalize_rad r positive == r.
Proof.
  intros r. unfold r, normalize_rad.
  pose proof (fmod_range a PI2 PI2_pos) as [H0 H1].
  pose proof PI2_pos as HP.
  destruct positive; cbn [negb andb orb].
  - split; [|split].
    + exists (- Qfloor (a / PI2))%Z. unfold fmod. rewrite inject_Z_opp. ring.
    + split; assumption.
    + apply fmod_small; assumption.
  - destruct (Qle_bool 0 a) eqn:E; cbn [negb].
    + split; [|split].
      * exists (- Qfloor (a / PI2))%Z. unfold fmod. rewrite inject_Z_opp. ring.
      * split; assumption.
      * assert (Qle_bool 0 (fmod a PI2) = true) as ->
          by (apply Qle_bool_iff, H0).
        apply fmod_small; assumption.
    + split; [|split].
      * exists (- Qfloor (a / PI2) - 1)%Z. unfold fmod, Z.sub.
        rewrite inject_Z_plus, !inject_Z_opp. change (inject_Z 1) with 1.
        ring.
      * split; lra.
      * assert (Qle_bool 0 (fmod a PI2 - PI2) = false) as ->.
        { destruct (Qle_bool 0 (fmod a PI2 - PI2)) eqn:E'; [|reflexivity].
          apply Qle_bool_iff in E'. lra. }
        cbn [negb andb]. rewrite fmod_below by lra. ring.
Qed.

(** X5.  [normalize_rad]: the result differs from the angle by full turns; it
    lies between 0 and [2 pi] when a positive value is asked for or the
    angle is not negative, and between [-2 pi] and 0 otherwise; an angle
    from 0 up to [2 pi], without it, is returned as it is.  The ends of
    the ranges are included: the remainder of a float can be rounded onto
    the divisor. *)
Theorem normalize_rad_range (a : Q) (positive : bool) :
  let r := normalize_rad a positive in
  (exists k : Z, r == a + inject_Z k * PI2)
  /\ (if positive || Qle_bool 0 a then 0 <= r /\ r <= PI2
      else - PI2 <= r /\ r <= 0)
  /\ (0 <= a -> a < PI2 -> r == a).
Proof.
  intros r. destruct (normalize_rad_spec a positive) as (Hk & Hr & _).
  fold r in Hk, Hr. split; [exact Hk|]. split.
  - destruct (positive || Qle_bool 0 a); destruct Hr; split; lra.
  - intros H0 H1. unfold r, normalize_rad.
    assert (Qle_bool 0 a = true) as -> by (apply Qle_bool_iff, H0).
    cbn [negb]. rewrite andb_false_r. apply fmod_small; assumption.
Qed.

(** X6.  The unary operators [+a], [-a] and [abs(a)] build a new object and
    leave every object there is as it was.  The new values are [a], [-a] and, for
    [abs], the angle moved between 0 and [2 pi] by full turns: for an angle
    from [-2 pi] up to 0, without it, that is [a + 2 pi], not [-a]. *)
Theorem unary_operators (self : loc) (h : heap) (a : Q) :
  h !! self = Some a ->
  __pos__ self h = Ok (length h, h ++ [a])
  /\ __neg__ self h = Ok (length h, h ++ [- a])
  /\ exists v,
       __abs__ self h = Ok (length h, h ++ [v])
       /\ (forall l x, h !! l = Some x -> (h ++ [v]) !! l = Some x)
       /\ 0 <= v /\ v <= PI2
       /\ (exists k : Z, v == a + inject_Z k * PI2)
       /\ (- PI2 <= a -> a < 0 -> v == a + PI2).
Proof.
  intros H.
  unfold __pos__, __neg__, __abs__, normalized, value_of. rewrite H.
  cbn [mbind result_bind]. rewrite !Angle1_new.
  split; [reflexivity|]. split; [reflexivity|].
  exists (normalize_rad a true). split; [reflexivity|].
  destruct (normalize_rad_spec a true) as (Hk & [H0 H1] & _).
  split; [|split; [exact H0|split; [lra|split; [exact Hk|]]]].
  - intros l x Hl. apply lookup_app_l_Some, Hl.
  - intros Ha Hb. unfold normalize_rad. cbn [negb andb].
    apply fmod_below; assumption.
Qed.

End UnitFacts.

Lemma linear_units_inverse_witness :
  (exists r y,
      __init__ (VFloat 50 : pyval Q) (UnitTag GON) false false = Ok r
      /\ asunit r (UnitTag GON) = Ok (VFloat y : pyval Q) /\ (y == 50)%Q)
  /\ (exists y r,
      asunit 50 (UnitTag GON) = Ok (VFloat y : pyval Q)
      /\ __init__ (VFloat y : pyval Q) (UnitTag GON) false false = Ok r
      /\ (r == 50)%Q).
Proof. apply (linear_units_inverse GON 50). simpl. auto. Defined.

Lemma pdeg2rad_fields_witness :
  (pdeg2rad (inject_Z 12 + inject_Z 34 / 100 + inject_Z 56 / 10000)
   == radians (inject_Z 12 + inject_Z 34 / 60 + inject_Z 56 / 3600))%Q
  /\ ((34 < 60)%Z -> (56 < 60)%Z ->
      (rad2pdeg (pdeg2rad (inject_Z 12 + inject_Z 34 / 100 + inject_Z 56 / 10000))
       == inject_Z 12 + inject_Z 34 / 100 + inject_Z 56 / 10000)%Q).
Proof. apply (pdeg2rad_fields 12 34 56); lia. Defined.

Lemma pdeg_roundtrip_witness :
  (pdeg2rad (rad2pdeg 1) == inject_Z (round (1 * RO)) / RO)%Q
  /\ (Qabs (rad2sec (pdeg2rad (rad2pdeg 1)) - rad2sec 1) <= 1 # 2)%Q.
Proof. apply (pdeg_roundtrip 1). apply Qle_bool_iff. reflexivity. Defined.

Lemma unary_operators_witness :
  __pos__ 0%nat [-1]%Q = Ok (1%nat, [-1; -1]%Q)
  /\ __neg__ 0%nat [-1]%Q = Ok (1%nat, [-1; - -1]%Q)
  /\ exists v,
       __abs__ 0%nat [-1]%Q = Ok (1%nat, [-1; v]%Q)
       /\ (forall l x, [-1]%Q !! l = Some x -> ([-1]%Q ++ [v]) !! l = Some x)
       /\ (0 <= v)%Q /\ (v <= PI2)%Q
       /\ (exists k : Z, v == -1 + inject_Z k * PI2)%Q
       /\ ((- PI2 <= -1)%Q -> (-1 < 0)%Q -> (v == -1 + PI2)%Q).
Proof. apply (unary_operators 0%nat [-1]%Q (-1)%Q). reflexivity. Defined.

(** ** What the matcher accepts *)

Section RegexFacts.

Local Open Scope string_scope.

Lemma append_nil_l (s : string) : "" ++ s = s.
Proof. reflexivity. Qed.

Lemma append_cons (c : ascii) (s t : string) :
  String c s ++ t = String c (s ++ t).
Proof. reflexivity. Qed.

Lemma append_assoc (a b c : string) : (a ++ b) ++ c = a ++ (b ++ c).
Proof.
  induction a as [|x a IH]; [reflexivity|].
  rewrite !append_cons, IH. reflexivity.
Qed.

Lemma append_nil_r (s : string) : s ++ "" = s.
Proof.
  induction s as [|x s IH]; [reflexivity|].
  rewrite append_cons, IH. reflexivity.
Qed.

Lemma fullmatch_Fail (s : string) : fullmatch Fail s = false.
Proof. induction s as [|c s IH]; [reflexivity|exact IH]. Qed.

Lemma fullmatch_Eps (s : string) : fullmatch Eps s = true <-> s = "".
Proof.
  destruct s as [|c s]; cbn [fullmatch deriv nullable].
  - split; reflexivity.
  - rewrite fullmatch_Fail. split; discriminate.
Qed.

Lemma fullmatch_Chr (c : ascii) (s : string) :
  fullmatch (Chr c) s = true <-> s = String c "".
Proof.
  destruct s as [|d s]; cbn [fullmatch deriv nullable]; [split; discriminate|].
  destruct (Ascii.eqb_spec d c) as [->|N].
  - rewrite fullmatch_Eps. split; [intros ->; reflexivity|congruence].
  - rewrite fullmatch_Fail. split; [discriminate|congruence].
Qed.

Lemma fullmatch_Digit (s : string) :
  fullmatch Digit s = true <-> exists c, is_digit c = true /\ s = String c "".
Proof.
  destruct s as [|d s]; cbn [fullmatch deriv nullable].
  - split; [discriminate|intros (c & _ & E); discriminate].
  - destruct (is_digit d) eqn:D.
    + rewrite fullmatch_Eps. split.
      * intros ->. exists d. split; [exact D|reflexivity].
      * intros (c & _ & E). congruence.
    + rewrite fullmatch_Fail. split; [discriminate|].
      intros (c & Hc & E). congruence.
Qed.

Lemma fullmatch_Alt (s : string) : forall a b,
  fullmatch (Alt a b) s = fullmatch a s || fullmatch b s.
Proof.
  induction s as [|c s IH]; intros a b; [reflexivity|].
  cbn [fullmatch deriv]. apply IH.
Qed.

Lemma fullmatch_Seq (s : string) : forall a b,
  fullmatch (Seq a b) s = true <->
  exists s1 s2, s = s1 ++ s2 /\ fullmatch a s1 = true /\ fullmatch b s2 = true.
Proof.
  induction s as [|c s IH]; intros a b.
  - cbn [fullmatch nullable]. rewrite andb_true_iff. split.
    + intros [Ha Hb]. exists "", "". auto.
    + intros (s1 & s2 & E & Ha & Hb).
      destruct s1; [|discriminate]. destruct s2; [|discriminate]. auto.
  - cbn [fullmatch deriv]. destruct (nullable a) eqn:Na.
    + rewrite fullmatch_Alt, orb_true_iff, IH. split.
      * intros [(s1 & s2 & -> & Ha & Hb)|Hb].
        -- exists (String c s1), s2. auto.
        -- exists "", (String c s). auto.
      * intros (s1 & s2 & E & Ha & Hb). destruct s1 as [|d s1].
        -- right. rewrite append_nil_l in E. subst s2. exact Hb.
        -- left. rewrite append_cons in E. injection E as -> ->.
           exists s1, s2. auto.
    + rewrite IH. split.
      * intros (s1 & s2 & -> & Ha & Hb). exists (String c s1), s2. auto.
      * intros (s1 & s2 & E & Ha & Hb). destruct s1 as [|d s1].
        -- cbn [fullmatch] in Ha. congruence.
        -- rewrite append_cons in E. injection E as -> ->.
           exists s1, s2. auto.
Qed.

(** [[0-9]{0,n}]: at most [n] digits. *)
Lemma fullmatch_upto_Digit (n : nat) : forall s,
  fullmatch (upto n Digit) s = true ->
  all_chars is_digit s = true /\ (String.length s <= n)%nat.
Proof.
  induction n as [|n IH]; intros s; cbn [upto].
  - rewrite fullmatch_Eps. intros ->. split; [reflexivity|cbn; lia].
  - unfold Opt. rewrite fullmatch_Alt, orb_true_iff, fullmatch_Seq, fullmatch_Eps.
    intros [(s1 & s2 & -> & H1 & H2)| ->]; [|split; [reflexivity|cbn; lia]].
    apply fullmatch_Digit in H1 as (c & Hc & ->).
    destruct (IH _ H2) as [Hd Hl]. rewrite append_cons, append_nil_l.
    cbn [all_chars String.length]. rewrite Hc, Hd. split; [reflexivity|lia].
Qed.

(** [[0-9]{1,k}]: one to [k] digits. *)
Lemma fullmatch_digits (k : nat) (s : string) :
  fullmatch (Rep 1 (S k) Digit) s = true ->
  all_chars is_digit s = true /\ (1 <= String.length s <= S k)%nat.
Proof.
  assert (Rep 1 (S k) Digit = Seq Digit (upto k Digit)) as ->.
  { cbn [Rep]. replace (S k - 1)%nat with k by lia. reflexivity. }
  rewrite fullmatch_Seq.
  intros (s1 & s2 & -> & H1 & H2).
  apply fullmatch_Digit in H1 as (c & Hc & ->).
  apply fullmatch_upto_Digit in H2 as [Hd Hl].
  rewrite append_cons, append_nil_l.
  cbn [all_chars String.length]. rewrite Hc, Hd. split; [reflexivity|lia].
Qed.


Lemma fullmatch_Dollar (s : string) :
  fullmatch Dollar s = true -> s = "" \/ s = String newline "".
Proof.
  unfold Dollar, Opt. rewrite fullmatch_Alt, orb_true_iff, fullmatch_Chr,
    fullmatch_Eps. tauto.
Qed.

Lemma dash_groups_app (gs : list string) (nl : string) :
  dash_groups gs "" ++ nl = dash_groups gs nl.
Proof.
  induction gs as [|g gs IH]; [reflexivity|].
  cbn [dash_groups]. rewrite append_cons, <- IH.
  f_equal. apply append_assoc.
Qed.

(** [(-[0-9]{1,2}){0,n}]: at most [n] groups of a dash and one or two
    digits. *)
Lemma fullmatch_groups (n : nat) : forall s,
  fullmatch (upto n (Seq (Chr "-") (Rep 1 2 Digit))) s = true ->
  exists gs,
    s = dash_groups gs ""
    /\ (length gs <= n)%nat
    /\ Forall (fun g => all_chars is_digit g = true
                        /\ (1 <= String.length g)%nat) gs.
Proof.
  induction n as [|n IH]; intros s; cbn [upto].
  - rewrite fullmatch_Eps. intros ->. exists []. split; [reflexivity|].
    split; [cbn; lia|constructor].
  - unfold Opt.
    rewrite fullmatch_Alt, orb_true_iff, fullmatch_Seq, fullmatch_Eps.
    intros [(s1 & s2 & -> & H1 & H2)| ->].
    + apply fullmatch_Seq in H1 as (d & g & -> & Hd & Hg).
      apply fullmatch_Chr in Hd as ->.
      apply fullmatch_digits in Hg as [Hg Hl].
      destruct (IH _ H2) as (gs & -> & Hn & Hall).
      exists (g :: gs). split; [|split].
      * cbn [dash_groups]. rewrite !append_cons, append_nil_l. reflexivity.
      * cbn [length]. lia.
      * constructor; [split; [exact Hg|lia]|exact Hall].
    + exists []. split; [reflexivity|]. split; [cbn; lia|constructor].
Qed.

Lemma all_chars_app (p : ascii -> bool) (a b : string) :
  all_chars p (a ++ b) = all_chars p a && all_chars p b.
Proof.
  induction a as [|c a IH]; [reflexivity|].
  rewrite append_cons. cbn [all_chars]. rewrite IH. apply andb_assoc.
Qed.

Lemma split_pieces (gs : list string) (nl : string) : forall d,
  all_chars (fun c => negb (Ascii.eqb c "-")) d = true ->
  Forall (fun g => all_chars (fun c => negb (Ascii.eqb c "-")) g = true) gs ->
  all_chars (fun c => negb (Ascii.eqb c "-")) nl = true ->
  split "-" (d ++ dash_groups gs nl) = pieces d gs nl.
Proof.
  induction gs as [|g gs IH]; intros d Hd Hgs Hnl.
  - cbn [dash_groups pieces]. apply split_no_sep.
    rewrite all_chars_app, Hd, Hnl. reflexivity.
  - cbn [dash_groups pieces]. rewrite split_app by exact Hd.
    f_equal. inversion Hgs; subst. apply IH; assumption.
Qed.

Lemma digit_cases (c : ascii) :
  is_digit c = true ->
  is_space c = false /\ Ascii.eqb c "-" = false /\ Ascii.eqb c "+" = false
  /\ Ascii.eqb c "." = false.
Proof.
  destruct c as [[] [] [] [] [] [] [] []]; intros H;
    try discriminate H; repeat split; reflexivity.
Qed.

Lemma rstrip_digits (nl : string) :
  nl = "" \/ nl = String newline "" ->
  forall s, all_chars is_digit s = true -> rstrip (s ++ nl) = s.
Proof.
  intros Hnl s. induction s as [|c s IH]; intros H.
  - destruct Hnl as [->| ->]; reflexivity.
  - cbn [all_chars] in H. apply andb_true_iff in H as [Hc Hs].
    rewrite append_cons. cbn [rstrip]. rewrite (IH Hs).
    destruct (digit_cases c Hc) as (-> & _). reflexivity.
Qed.

Lemma partition_digits (s : string) :
  all_chars is_digit s = true -> partition "." s = (s, "").
Proof.
  induction s as [|c s IH]; intros H; [reflexivity|].
  cbn [all_chars] in H. apply andb_true_iff in H as [Hc Hs].
  cbn [partition]. destruct (digit_cases c Hc) as (_ & _ & _ & ->).
  rewrite (IH Hs). reflexivity.
Qed.

Lemma uint_of_string_digits (s : string) :
  all_chars is_digit s = true ->
  exists d, NilEmpty.uint_of_string s = Some d.
Proof.
  induction s as [|c s IH]; intros H; [eexists; reflexivity|].
  cbn [all_chars] in H. apply andb_true_iff in H as [Hc Hs].
  destruct (IH Hs) as [d Hd]. cbn [NilEmpty.uint_of_string]. rewrite Hd.
  destruct c as [[] [] [] [] [] [] [] []]; try discriminate Hc;
    eexists; reflexivity.
Qed.

(** [float] reads digits, with or without a newline after them, as a number
    that is not negative. *)
Lemma float_of_str_digits (s nl : string) :
  all_chars is_digit s = true -> (1 <= String.length s)%nat ->
  nl = "" \/ nl = String newline "" ->
  exists q, float_of_str (s ++ nl) = Ok q /\ (0 <= q)%Q.
Proof.
  intros Hs Hl Hnl. unfold float_of_str, strip.
  rewrite (rstrip_digits nl Hnl s Hs).
  destruct s as [|c s]; [cbn in Hl; lia|].
  pose proof Hs as Hs'. cbn [all_chars] in Hs'.
  apply andb_true_iff in Hs' as [Hc _].
  destruct (digit_cases c Hc) as (Sp & Mi & Pl & _).
  cbn [lstrip]. rewrite Sp. cbn [parse_sign]. rewrite Mi, Pl.
  rewrite (partition_digits _ Hs).
  destruct (uint_of_string_digits _ Hs) as [d ->].
  cbn [NilEmpty.uint_of_string is_empty andb String.length].
  eexists. split; [reflexivity|].
  unfold Qle. cbn [Qnum Qden]. lia.
Qed.

Lemma mapM_float_of_str (l : list string) :
  Forall (fun p => exists q, float_of_str p = Ok q /\ (0 <= q)%Q) l ->
  exists qs, mapM float_of_str l = Ok qs /\ Forall (fun q => (0 <= q)%Q) qs.
Proof.
  induction 1 as [|p l (q & Hq & Hpos) _ (qs & Hqs & Hall)].
  - exists []. split; [reflexivity|constructor].
  - exists (q :: qs). split; [|constructor; assumption].
    cbn [mapM]. rewrite Hq. cbn [mbind result_bind]. rewrite Hqs. reflexivity.
Qed.

Lemma pieces_digits (gs : list string) (nl : string) :
  nl = "" \/ nl = String newline "" ->
  forall d,
  all_chars is_digit d = true /\ (1 <= String.length d)%nat ->
  Forall (fun g => all_chars is_digit g = true
                   /\ (1 <= String.length g)%nat) gs ->
  Forall (fun p => exists q, float_of_str p = Ok q /\ (0 <= q)%Q)
         (pieces d gs nl).
Proof.
  intros Hnl. induction gs as [|g gs IH]; intros d [Hd Hl] Hgs;
    cbn [pieces].
  - constructor; [|constructor]. apply float_of_str_digits; assumption.
  - inversion Hgs; subst. constructor; [|apply IH; assumption].
    rewrite <- (append_nil_r d).
    apply float_of_str_digits; auto.
Qed.

Lemma dms_accumulate_nonneg (items : list Q) : forall a div : Q,
  (0 <= a)%Q -> (0 < div)%Q -> Forall (fun q => (0 <= q)%Q) items ->
  (0 <= fst (fold_left (fun '(a, div) val => (a + val / div, div * 60))
                       items (a, div)))%Q.
Proof.
  induction items as [|x items IH]; intros a div Ha Hdiv Hall;
    cbn [fold_left fst]; [exact Ha|].
  inversion Hall; subst. apply IH; [| |assumption].
  - assert (0 <= x / div)%Q.
    { apply Qle_shift_div_l; [exact Hdiv|]. lra. }
    lra.
  - lra.
Qed.

End RegexFacts.

Section DmsTotal.

Local Open Scope string_scope.

Lemma dms2rad_spec (s : string) :
  (fullmatch dms_pattern s = true ->
   exists r, dms2rad s = Ok r /\ (0 <= r)%Q)
  /\ (fullmatch dms_pattern s = false -> dms2rad s = Exc ValueError).
Proof.
  split; intros H; unfold dms2rad; rewrite H; cbn [negb]; [|reflexivity].
  unfold dms_pattern in H.
  apply fullmatch_Seq in H as (d & rest & -> & Hd & Hrest).
  apply fullmatch_Seq in Hrest as (g & nl & -> & Hg & Hnl).
  apply fullmatch_digits in Hd as [Hd Hdl].
  apply fullmatch_groups in Hg as (gs & -> & _ & Hgs).
  apply fullmatch_Dollar in Hnl.
  rewrite dash_groups_app.
  assert (forall t, all_chars is_digit t = true ->
            all_chars (fun c => negb (Ascii.eqb c "-")) t = true) as Hnd.
  { intros t. apply all_chars_impl. exact digit_not_dash. }
  rewrite split_pieces.
  - destruct (mapM_float_of_str (pieces d gs nl)) as (qs & -> & Hqs).
    { apply pieces_digits; [exact Hnl|split; [exact Hd|lia]|exact Hgs]. }
    cbn [mbind result_bind]. eexists. split; [reflexivity|].
    unfold radians. apply Qmult_le_0_compat; [|discriminate].
    apply dms_accumulate_nonneg; [discriminate|reflexivity|exact Hqs].
  - apply Hnd, Hd.
  - eapply Forall_impl; [exact Hgs|]. intros t [Ht _]. apply Hnd, Ht.
  - destruct Hnl as [->| ->]; reflexivity.
Qed.

(** X7.  [dms2rad] raises a [ValueError] for a text that the pattern does not
    match and nothing else: the items of a text that matches always read as
    numbers, and the angle returned is never negative. *)
Theorem dms2rad_total (s : string) :
  (fullmatch dms_pattern s = true ->
   exists r, dms2rad s = Ok r /\ (0 <= r)%Q)
  /\ (fullmatch dms_pattern s = false -> dms2rad s = Exc ValueError).
Proof. apply dms2rad_spec. Qed.

(** X8.  For a value that, when it is a number, is in the range of a float,
    the constructor raises nothing but [ValueError].  It succeeds exactly
    when the unit is known and the value fits it: a text that matches the
    DMS pattern for [DMS], an [int], [float] or [bool] for any other
    unit. *)
Theorem init_accepts (A : Type) (value : pyval A) (unit : unit_arg)
    (normalize positive : bool) :
  (forall x, number_value value = Some x -> in_float_range x) ->
  (forall e, __init__ value unit normalize positive = Exc e -> e = ValueError)
  /\ ((exists r, __init__ value unit normalize positive = Ok r) <->
      exists u, resolve_unit unit = Ok u
        /\ match u with
           | DMS => exists s, value = VStr s
                              /\ fullmatch dms_pattern s = true
           | _ => is_Some (number_value value)
           end).
Proof.
  intros _. unfold __init__.
  assert (forall e, resolve_unit unit = Exc e -> e = ValueError) as Hunit.
  { destruct unit as [u|name]; cbn [resolve_unit]; [discriminate|].
    unfold unit_of_name.
    repeat match goal with
           | |- context [String.eqb ?a ?b] => destruct (String.eqb a b)
           end; intros e; try discriminate; congruence. }
  destruct (resolve_unit unit) as [u|e0] eqn:Eu; cbn [mbind result_bind].
  - assert (u = DMS \/ u <> DMS) as [->|Hu]
      by (destruct u; auto; right; discriminate).
    + destruct value as [|b|z|x|s|a]; cbn [mbind result_bind];
        try (split; [congruence|];
             split; [intros [r Hr]; discriminate Hr|];
             intros (u & Hu & Hm); injection Hu as <-;
             destruct Hm as (s' & Hs & _); discriminate Hs).
      destruct (fullmatch dms_pattern s) eqn:Em.
      * destruct (proj1 (dms2rad_spec s) Em) as (r & -> & _).
        cbn [mbind result_bind]. split; [discriminate|].
        split; [|eexists; reflexivity].
        intros _. exists DMS. split; [reflexivity|]. exists s. auto.
      * rewrite (proj2 (dms2rad_spec s) Em). cbn [mbind result_bind].
        split; [congruence|]. split; [intros [r Hr]; discriminate Hr|].
        intros (u & Hu & Hm). injection Hu as <-.
        destruct Hm as (s' & Hs & Hm). injection Hs as <-. congruence.
    + destruct (number_value value) as [x|] eqn:En.
      * destruct u; try congruence; cbv iota;
          cbn [mbind result_bind];
          (split; [discriminate|]); (split; [|eexists; reflexivity]);
          intros _; eexists; (split; [reflexivity|]); eexists; reflexivity.
      * destruct u; try congruence; cbv iota;
          cbn [mbind result_bind];
          (split; [congruence|]);
          (split; [intros [r Hr]; discriminate Hr|]);
          intros (u' & Hu' & Hm); injection Hu' as <-;
          destruct Hm as [? Hm]; discriminate Hm.
  - split; [intros e He; injection He as <-; apply (Hunit e0 eq_refl)|].
    split; [intros [r Hr]; discriminate Hr|].
    intros (u & Hu & _). discriminate Hu.
Qed.

End DmsTotal.

Lemma init_accepts_witness :
  (forall e, __init__ (VInt 90 : pyval Q) (UnitName "GON") true false = Exc e ->
             e = ValueError)
  /\ ((exists r,
         __init__ (VInt 90 : pyval Q) (UnitName "GON") true false = Ok r) <->
      exists u, resolve_unit (UnitName "GON") = Ok u
        /\ match u with
           | DMS => exists s, (VInt 90 : pyval Q) = VStr s
                              /\ fullmatch dms_pattern s = true
           | _ => is_Some (number_value (VInt 90 : pyval Q))
           end).
Proof.
  apply (init_accepts Q (VInt 90) (UnitName "GON") true false).
  intros x [= <-]. apply Qle_bool_iff. reflexivity.
Defined.

Section SentenceFacts.

Local Open Scope string_scope.

Lemma split_cons (sep c : ascii) (s : string) :
  Ascii.eqb c sep = false ->
  split sep (String c s) =
  match split sep s with
  | [] => [String c ""]
  | x :: xs => String c x :: xs
  end.
Proof. intros H. cbn [split]. rewrite H. reflexivity. Qed.

Lemma split_not_nil (sep : ascii) (s : string) : split sep s <> [].
Proof.
  destruct s as [|c s]; cbn [split]; [discriminate|].
  destruct (Ascii.eqb c sep); [discriminate|].
  destruct (split sep s); discriminate.
Qed.

(** A text without separators in front stays in the first item. *)
Lemma split_prefix (sep : ascii) (a b : string) :
  all_chars (fun c => negb (Ascii.eqb c sep)) a = true ->
  exists x xs, split sep b = x :: xs /\ split sep (a ++ b) = (a ++ x) :: xs.
Proof.
  intros Ha. induction a as [|c a IH].
  - destruct (split sep b) as [|x xs] eqn:E; [destruct (split_not_nil _ _ E)|].
    exists x, xs. rewrite append_nil_l. auto.
  - cbn [all_chars] in Ha. apply andb_true_iff in Ha as [Hc Ha].
    apply negb_true_iff in Hc.
    destruct (IH Ha) as (x & xs & E1 & E2). exists x, xs.
    split; [exact E1|]. rewrite append_cons, split_cons, E2 by exact Hc.
    reflexivity.
Qed.

Lemma length_split (sep : ascii) (s : string) :
  length (split sep s) = S (count_char sep s).
Proof.
  induction s as [|c s IH]; [reflexivity|].
  cbn [split count_char]. destruct (Ascii.eqb c sep).
  - cbn [length]. rewrite IH. reflexivity.
  - destruct (split sep s) as [|x xs] eqn:E; [destruct (split_not_nil _ _ E)|].
    cbn [length] in *. lia.
Qed.

Lemma substring_all (s : string) : substring 0 (String.length s) s = s.
Proof.
  induction s as [|c s IH]; [reflexivity|].
  cbn [String.length substring]. rewrite IH. reflexivity.
Qed.

(** [s[1:len(s)]] is [s] without its first character. *)
Lemma slice_tail (c : ascii) (s : string) :
  slice 1 (String.length (String c s)) (String c s) = s.
Proof.
  unfold slice. cbn [String.length]. rewrite Nat.sub_succ, Nat.sub_0_r.
  cbn [substring]. apply substring_all.
Qed.

Lemma xor_chars_acc (s : string) : forall n,
  NmeaGnssUnit.xor_chars s n = N.lxor n (NmeaGnssUnit.xor_chars s 0).
Proof.
  induction s as [|c s IH]; intros n; cbn [NmeaGnssUnit.xor_chars].
  - rewrite N.lxor_0_r. reflexivity.
  - rewrite (IH (N.lxor n _)), (IH (N.lxor 0 _)), N.lxor_0_l.
    apply N.lxor_assoc.
Qed.

Lemma xor_chars_app (a b : string) (n : N) :
  NmeaGnssUnit.xor_chars (a ++ b) n
  = NmeaGnssUnit.xor_chars b (NmeaGnssUnit.xor_chars a n).
Proof.
  revert n. induction a as [|c a IH]; intros n; [reflexivity|].
  rewrite append_cons. cbn [NmeaGnssUnit.xor_chars]. apply IH.
Qed.

Lemma lxor_cancel_r (a a' b : N) : N.lxor a b = N.lxor a' b -> a = a'.
Proof.
  intros E.
  rewrite <- (N.lxor_0_r a), <- (N.lxor_0_r a'), <- (N.lxor_nilpotent b),
    <- !N.lxor_assoc, E. reflexivity.
Qed.

Lemma lxor_cancel_l (a b b' : N) : N.lxor a b = N.lxor a b' -> b = b'.
Proof.
  rewrite (N.lxor_comm a b), (N.lxor_comm a b'). apply lxor_cancel_r.
Qed.

(** Changing one character changes the checksum. *)
Lemma xor_chars_change (a b : string) (c c' : ascii) :
  c <> c' ->
  NmeaGnssUnit.xor_chars (a ++ String c b) 0
  <> NmeaGnssUnit.xor_chars (a ++ String c' b) 0.
Proof.
  intros Hc. rewrite !xor_chars_app. cbn [NmeaGnssUnit.xor_chars].
  rewrite (xor_chars_acc b (N.lxor _ (ord c))),
          (xor_chars_acc b (N.lxor _ (ord c'))).
  intros E. apply lxor_cancel_r, lxor_cancel_l in E. unfold ord in E.
  apply Hc. rewrite <- (ascii_N_embedding c), <- (ascii_N_embedding c').
  f_equal. exact E.
Qed.


(** X9.  A sentence whose checksum is right is no longer decoded when one of
    its characters between the first one and the [*] is replaced by
    another: the checksum no longer matches and the result is [None]. *)
Theorem Result_detects_corruption (date_time : pyval Q)
    (msg pre post : string) (c c' : ascii) :
  (1 <= String.length pre)%nat ->
  all_chars (fun x => negb (Ascii.eqb x "*")) pre = true ->
  c <> "*"%char -> c' <> "*"%char -> c <> c' ->
  NmeaGnssUnit.checksum_matches (pre ++ String c post) = true ->
  NmeaGnssUnit.Result date_time msg (pre ++ String c' post) = Ok None.
Proof.
  intros Hl Hpre Hc Hc' Hcc H.
  destruct pre as [|p0 pre]; [cbn in Hl; lia|].
  assert (forall d, d <> "*"%char ->
            all_chars (fun x => negb (Ascii.eqb x "*"))
                      (String p0 pre ++ String d "") = true) as Hno.
  { intros d Hd'. rewrite all_chars_app, Hpre. cbn [all_chars andb].
    apply Ascii.eqb_neq in Hd'. rewrite Hd'. reflexivity. }
  assert (forall d, String p0 pre ++ String d post
                    = (String p0 pre ++ String d "") ++ post) as Happ.
  { intros d. rewrite append_assoc. reflexivity. }
  destruct (split_prefix "*" _ post (Hno c Hc)) as (x & xs & E1 & E2).
  destruct (split_prefix "*" _ post (Hno c' Hc')) as (x' & xs' & E1' & E2').
  rewrite E1 in E1'. injection E1' as <- <-.
  unfold NmeaGnssUnit.checksum_matches in H. rewrite Happ, E2 in H.
  destruct xs as [|cksum [|y l]]; try discriminate H.
  destruct (HexadecimalString.NilZero.uint_of_string (lower cksum))
    as [h|] eqn:Eh; [|discriminate H].
  apply N.eqb_eq in H.
  unfold NmeaGnssUnit.Result.
  destruct (negb (String.eqb _ msg)); [reflexivity|].
  rewrite Happ, E2'.
  rewrite !append_assoc, !append_cons, !append_nil_l, slice_tail in H |- *.
  destruct (NmeaGnssUnit.checksum_differs cksum _) eqn:E; [reflexivity|].
  apply checksum_accepted in E. rewrite Eh in E.
  cbn [fmap option_fmap option_map] in E. injection E as E.
  rewrite H in E. apply xor_chars_change in E; [destruct E|exact Hcc].
Qed.

(** X10.  A sentence with the tag asked for and no [*], or more than one, makes
    [Result] raise a [ValueError]: it does not return [None]. *)
Theorem Result_needs_one_star (date_time : pyval Q) (msg ans : string) :
  slice 1 (String.length msg + 1) ans = msg ->
  count_char "*" ans <> 1%nat ->
  NmeaGnssUnit.Result date_time msg ans = Exc ValueError.
Proof.
  intros Htag Hn. unfold NmeaGnssUnit.Result.
  rewrite Htag, String.eqb_refl. cbn [negb].
  pose proof (length_split "*" ans) as Hl.
  destruct (split "*" ans) as [|data [|cksum [|x l]]]; try reflexivity.
  cbn [length] in Hl. lia.
Qed.

(** X11.  [Result] does not look at the first character of the sentence. *)
Theorem Result_ignores_first_char (date_time : pyval Q) (msg rest : string)
    (c c' : ascii) :
  c <> "*"%char -> c <> ","%char -> c' <> "*"%char -> c' <> ","%char ->
  NmeaGnssUnit.Result date_time msg (String c rest)
  = NmeaGnssUnit.Result date_time msg (String c' rest).
Proof.
  intros Hs Hc Hs' Hc'.
  apply Ascii.eqb_neq in Hs, Hc, Hs', Hc'.
  unfold NmeaGnssUnit.Result.
  assert (forall d, slice 1 (String.length msg + 1) (String d rest)
                    = substring 0 (String.length msg) rest) as Hsl.
  { intros d. unfold slice. rewrite Nat.add_sub. reflexivity. }
  rewrite !Hsl.
  destruct (negb (String.eqb _ msg)); [reflexivity|].
  rewrite !split_cons by assumption.
  destruct (split "*" rest) as [|data [|cksum [|x l]]] eqn:E;
    try reflexivity.
  rewrite !slice_tail.
  destruct (NmeaGnssUnit.checksum_differs cksum _); [reflexivity|].
  destruct (split "," rest) as [|y ys] eqn:E'; [destruct (split_not_nil _ _ E')|].
  reflexivity.
Qed.

(** X12.  The checksum test of [Result] fails for every sentence whose checksum
    is below 0x10 unless its checksum field is a single digit: a sentence
    that writes it with two digits, as NMEA does, is answered with
    [None]. *)
Theorem Result_low_checksum (date_time : pyval Q) (msg ans data cksum : string) :
  split "*" ans = [data; cksum] ->
  (NmeaGnssUnit.xor_chars (slice 1 (String.length data) data) 0 < 16)%N ->
  String.length cksum <> 1%nat ->
  NmeaGnssUnit.Result date_time msg ans = Ok None.
Proof.
  intros Hs Hx Hl. unfold NmeaGnssUnit.Result.
  destruct (negb (String.eqb _ msg)); [reflexivity|].
  rewrite Hs.
  set (x := NmeaGnssUnit.xor_chars _ 0) in *.
  assert (NmeaGnssUnit.checksum_differs cksum x = true) as ->; [|reflexivity].
  unfold NmeaGnssUnit.checksum_differs. apply negb_true_iff, String.eqb_neq.
  intros E. apply (f_equal String.length) in E. revert E.
  assert (forall t, String.length (lower t) = String.length t) as Hlow.
  { induction t as [|d t IH]; [reflexivity|].
    cbn [lower String.length]. rewrite IH. reflexivity. }
  rewrite !Hlow.
  assert (String.length (hex x) = 3%nat) as ->.
  { assert (In x (map N.of_nat (seq 0 16))) as Hin.
    { apply in_map_iff. exists (N.to_nat x).
      split; [lia|]. apply in_seq. lia. }
    cbn [seq map In] in Hin.
    repeat (destruct Hin as [<-|Hin]; [reflexivity|]).
    destruct Hin. }
  rewrite !append_cons, append_nil_l. cbn [String.length]. lia.
Qed.

(** X13.  The hemisphere: a position whose letter is not the positive one ([N],
    [E]) decodes to the opposite of the angle that the same text gives
    with it. *)
Theorem signed_angle_mirror (hemi pos field : string) (x : Q) :
  float_of_str field = Ok x ->
  (exists a, NmeaGnssUnit.signed_angle pos pos field = Ok (VAngle a)
             /\ (a == dm2rad x)%Q)
  /\ (hemi <> pos ->
      exists a, NmeaGnssUnit.signed_angle hemi pos field = Ok (VAngle a)
                /\ (a == - dm2rad x)%Q).
Proof.
  intros Hx. unfold NmeaGnssUnit.signed_angle. rewrite Hx.
  cbn [mbind result_bind]. split.
  - rewrite String.eqb_refl. eexists. split; [reflexivity|].
    unfold dm2rad.
    rewrite (int_of_float_comp (1 * x / 100) (x / 100)) by (field; discriminate).
    apply radians_eq. field.
  - intros Hh. apply String.eqb_neq in Hh. rewrite Hh.
    eexists. split; [reflexivity|].
    rewrite <- dm2rad_opp. unfold dm2rad.
    rewrite (int_of_float_comp (-1 * x / 100) (- x / 100))
      by (field; discriminate).
    apply radians_eq. field.
Qed.

End SentenceFacts.

Lemma Result_detects_corruption_witness :
  NmeaGnssUnit.Result VNone "GPGGA"
    ("$GPGGA,183730,3907.35" ++ String "7" ",N,12102.482,W,1,05,1.6,646.4,M,-24.1,M,,*75")
  = Ok None.
Proof.
  apply (Result_detects_corruption VNone "GPGGA" "$GPGGA,183730,3907.35"
           ",N,12102.482,W,1,05,1.6,646.4,M,-24.1,M,,*75" "6" "7");
    [cbn; lia|reflexivity|discriminate|discriminate|discriminate
    |vm_compute; reflexivity].
Defined.

Lemma Result_needs_one_star_witness :
  NmeaGnssUnit.Result VNone "GPGGA" "$GPGGA,183730,3907.356,N" = Exc ValueError.
Proof.
  apply (Result_needs_one_star VNone "GPGGA" "$GPGGA,183730,3907.356,N");
    [reflexivity|cbn; lia].
Defined.

Lemma Result_ignores_first_char_witness :
  NmeaGnssUnit.Result VNone "GPGGA" gga_example
  = NmeaGnssUnit.Result VNone "GPGGA"
      "!GPGGA,183730,3907.356,N,12102.482,W,1,05,1.6,646.4,M,-24.1,M,,*75".
Proof.
  apply (Result_ignores_first_char VNone "GPGGA"
           "GPGGA,183730,3907.356,N,12102.482,W,1,05,1.6,646.4,M,-24.1,M,,*75"
           "$" "!"); discriminate.
Defined.

Lemma Result_low_checksum_witness :
  NmeaGnssUnit.Result VNone "GPGGA" gga_low_checksum = Ok None.
Proof.
  apply (Result_low_checksum VNone "GPGGA" gga_low_checksum
           "$GPGGA,183730,3907.356,N,12102.482,W,1,05,1.6,646.4,M,,,," "0C");
    [reflexivity|vm_compute; reflexivity|cbn; lia].
Defined.

Lemma signed_angle_mirror_witness :
  (exists a, NmeaGnssUnit.signed_angle "N" "N" "3907.356" = Ok (VAngle a)
             /\ (a == dm2rad 3907.356)%Q)
  /\ ("S" <> "N" ->
      exists a, NmeaGnssUnit.signed_angle "S" "N" "3907.356" = Ok (VAngle a)
                /\ (a == - dm2rad 3907.356)%Q).
Proof.
  apply (signed_angle_mirror "S" "N" "3907.356" 3907.356%Q). reflexivity.
Defined.

(** ** The decoder of the Trimble 5500 *)

Section TrimbleFacts.

Import Trimble5500Unit.

Local Open Scope string_scope.

Lemma int_of_str_exc (s : string) (e : pyexc) :
  int_of_str s = Exc e -> e = ValueError.
Proof.
  unfold int_of_str. destruct (parse_sign (strip s)) as [neg body].
  destruct (NilZero.uint_of_string body); [discriminate|congruence].
Qed.

Lemma float_of_str_exc (s : string) (e : pyexc) :
  float_of_str s = Exc e -> e = ValueError.
Proof.
  unfold float_of_str. destruct (parse_sign (strip s)) as [neg body].
  destruct (partition "." body) as [ip fp].
  destruct (NilEmpty.uint_of_string ip); [|congruence].
  destruct (NilEmpty.uint_of_string fp); [|congruence].
  destruct (is_empty ip && is_empty fp); [congruence|discriminate].
Qed.

(** A text with a separator splits into two items at least. *)
Lemma split_contains (sep : ascii) (s : string) :
  contains sep s = true -> exists x y l, split sep s = x :: y :: l.
Proof.
  induction s as [|c s IH]; cbn [contains split]; [discriminate|].
  destruct (Ascii.eqb c sep); cbn [orb].
  - intros _. destruct (split sep s) as [|y l] eqn:E;
      [destruct (split_not_nil _ _ E)|]. eauto.
  - intros H. destruct (IH H) as (x & y & l & ->). eauto.
Qed.

Lemma contains_lstrip (c : ascii) (chars s : string) :
  contains c chars = false -> contains c s = true ->
  contains c (lstrip_chars chars s) = true.
Proof.
  intros Hc. induction s as [|d s IH]; cbn [contains lstrip_chars];
    [discriminate|].
  destruct (contains d chars) eqn:Ed.
  - destruct (Ascii.eqb_spec d c) as [->|_]; [congruence|]. exact IH.
  - cbn [contains]. auto.
Qed.

Lemma contains_rstrip (c : ascii) (chars s : string) :
  contains c chars = false -> contains c s = true ->
  contains c (rstrip_chars chars s) = true.
Proof.
  intros Hc. induction s as [|d s IH]; cbn [contains rstrip_chars];
    [discriminate|].
  destruct (Ascii.eqb_spec d c) as [->|N]; cbn [orb].
  - intros _. rewrite Hc. cbn [andb contains]. rewrite Ascii.eqb_refl.
    reflexivity.
  - intros H. specialize (IH H).
    destruct (rstrip_chars chars s) as [|x r]; [discriminate IH|].
    rewrite andb_false_r. cbn [contains] in *.
    rewrite IH. apply orb_true_r.
Qed.

Lemma for_each_inv {A B : Type} (P : B -> Prop) (body : B -> A -> result B) :
  (forall b x, P b -> match body b x with
                      | Ok b' => P b'
                      | Exc e => e = ValueError
                      end) ->
  forall l b, P b -> match for_each body l b with
                     | Ok b' => P b'
                     | Exc e => e = ValueError
                     end.
Proof.
  intros Hbody. induction l as [|x l IH]; intros b Hb; cbn [for_each];
    [exact Hb|].
  specialize (Hbody b x Hb). destruct (body b x) as [b'|e];
    cbn [mbind result_bind]; [apply IH, Hbody|exact Hbody].
Qed.

Lemma decoded_insert (res : Measurement) (k : string) (v : pyval Q) :
  decoded res -> decoded_field k v = true -> decoded (<[k := v]> res).
Proof.
  intros Hres Hv k' v' H. apply lookup_insert_Some in H as [[<- <-]|[_ H]];
    [exact Hv|apply Hres, H].
Qed.

Lemma init_pdeg (x : Q) :
  __init__ (VFloat x : pyval Q) (UnitName "PDEG") false false
  = Ok (pdeg2rad x).
Proof. reflexivity. Qed.

Lemma float_of_str_cases (text : string) :
  (exists x, float_of_str text = Ok x) \/ float_of_str text = Exc ValueError.
Proof.
  destruct (float_of_str text) as [x|e] eqn:E; [eauto|].
  right. f_equal. apply (float_of_str_exc _ _ E).
Qed.

Lemma pdeg_angle_cases (text : string) :
  (exists x, float_of_str text = Ok x
             /\ pdeg_angle text = Ok (VAngle (pdeg2rad x)))
  \/ pdeg_angle text = Exc ValueError.
Proof.
  unfold pdeg_angle. destruct (float_of_str_cases text) as [[x E]|E];
    rewrite E; cbn [mbind result_bind]; [|auto].
  rewrite init_pdeg. cbn [mbind result_bind]. eauto.
Qed.

Lemma float_value_cases (text : string) :
  (exists x, float_of_str text = Ok x /\ float_value text = Ok (VFloat x))
  \/ float_value text = Exc ValueError.
Proof.
  unfold float_value. destruct (float_of_str_cases text) as [[x E]|E];
    rewrite E; cbn [mbind result_bind]; eauto.
Qed.

Lemma decode_line_inv (res : Measurement) (ans1 : string) :
  decoded res ->
  match decode_line res ans1 with
  | Ok res' => decoded res'
  | Exc e => e = ValueError
  end.
Proof.
  intros Hres. unfold decode_line.
  destruct (contains "=" ans1) eqn:C; [|exact Hres].
  destruct (split_contains "=" (strip_chars (String carriage_return "|") ans1))
    as (b0 & b1 & l & ->).
  { unfold strip_chars.
    apply contains_lstrip, contains_rstrip; try reflexivity. exact C. }
  change (NmeaGnssUnit.item 0 (b0 :: b1 :: l)) with (@Ok string b0).
  change (NmeaGnssUnit.item 1 (b0 :: b1 :: l)) with (@Ok string b1).
  cbn [mbind result_bind].
  destruct (int_of_str b0) as [n|e] eqn:E; cbn [mbind result_bind];
    [|apply (int_of_str_exc _ _ E)].
  change (lookup_table "HA" codes) with (@Ok Z 7).
  change (lookup_table "VA" codes) with (@Ok Z 8).
  change (lookup_table "SD" codes) with (@Ok Z 9).
  change (lookup_table "EASTING" codes) with (@Ok Z 38).
  change (lookup_table "NORTHING" codes) with (@Ok Z 37).
  change (lookup_table "ELE" codes) with (@Ok Z 39).
  cbn [mbind result_bind].
  destruct (pdeg_angle_cases b1) as [(x & _ & Ha)|Ha];
    destruct (float_value_cases b1) as [(y & _ & Hf)|Hf];
    rewrite Ha, Hf; cbn [mbind result_bind];
    repeat match goal with
           | |- context [Z.eqb n ?k] => destruct (Z.eqb n k)
           end;
    first [ exact Hres | reflexivity
          | apply decoded_insert; [exact Hres|reflexivity] ].
Qed.

Lemma Result_spec (msgs anss : string) :
  match Result msgs anss with
  | Ok res => decoded res
  | Exc e => e = ValueError
  end.
Proof.
  unfold Result. apply for_each_inv.
  - intros res [msg ans] Hres. cbn [decode_part].
    destruct (String.length (strip msg) =? 0)%nat; [exact Hres|].
    apply for_each_inv; [|exact Hres]. intros; apply decode_line_inv; assumption.
  - intros k v H. rewrite lookup_empty in H. discriminate H.
Qed.

(** X14.  The dictionary that [Result] returns has no other fields than [hz]
    and [v], which are angles, and [distance], [east], [north] and [elev],
    which are numbers. *)
Theorem Result_fields (msgs anss : string) (res : Measurement) :
  Result msgs anss = Ok res ->
  forall k v, res !! k = Some v -> decoded_field k v = true.
Proof.
  intros H. pose proof (Result_spec msgs anss) as Hs. rewrite H in Hs.
  exact Hs.
Qed.

Lemma rstrip_chars_id (chars s : string) :
  all_chars (fun c => negb (contains c chars)) s = true ->
  rstrip_chars chars s = s.
Proof.
  induction s as [|c s IH]; cbn [all_chars rstrip_chars]; [reflexivity|].
  intros H. apply andb_true_iff in H as [Hc Hs]. rewrite (IH Hs).
  apply negb_true_iff in Hc. rewrite Hc. reflexivity.
Qed.

Lemma lstrip_chars_id (chars s : string) :
  all_chars (fun c => negb (contains c chars)) s = true ->
  lstrip_chars chars s = s.
Proof.
  destruct s as [|c s]; cbn [all_chars lstrip_chars]; [reflexivity|].
  intros H. apply andb_true_iff in H as [Hc Hs].
  apply negb_true_iff in Hc. rewrite Hc. reflexivity.
Qed.

Lemma plain_value_not (s : string) (sep : ascii) :
  contains sep (String "|" (String "=" (String carriage_return
                  (String newline "")))) = true ->
  plain_value s = true ->
  all_chars (fun c => negb (Ascii.eqb c sep)) s = true.
Proof.
  intros Hsep. apply all_chars_impl. intros c Hc.
  apply negb_true_iff in Hc. apply negb_true_iff.
  destruct (Ascii.eqb_spec c sep) as [->|]; [congruence|reflexivity].
Qed.

Lemma plain_value_strip (s : string) :
  plain_value s = true ->
  all_chars (fun c => negb (contains c (String carriage_return "|"))) s = true.
Proof.
  apply all_chars_impl. intros c Hc.
  apply negb_true_iff in Hc. apply negb_true_iff.
  cbn [contains] in *. repeat (apply orb_false_iff in Hc as [? Hc]).
  repeat (apply orb_false_iff; split); assumption.
Qed.

(** A line [code=value] with the code [n]: what [decode_line] does with
    it, for each of the six codes it knows. *)
Lemma decode_line_known (res : Measurement) (code value : string) (n : Z)
    (key : string) (read : string -> result (pyval Q)) :
  In (n, key, read)
     [(7, "hz", pdeg_angle); (8, "v", pdeg_angle);
      (9, "distance", float_value); (38, "east", float_value);
      (37, "north", float_value); (39, "elev", float_value)]%Z ->
  plain_value code = true -> plain_value value = true ->
  int_of_str code = Ok n ->
  decode_line res (code ++ String "=" value)
  = (x ← read value; Ok (<[key := x]> res)).
Proof.
  intros Hin Hcode Hvalue Hn. unfold decode_line.
  assert (contains "=" (code ++ String "=" value) = true) as ->.
  { clear. induction code as [|c code IH]; cbn [contains append].
    - reflexivity.
    - rewrite append_cons. cbn [contains]. rewrite IH. apply orb_true_r. }
  unfold strip_chars.
  rewrite rstrip_chars_id, lstrip_chars_id;
    try (rewrite all_chars_app; cbn [all_chars];
         rewrite !plain_value_strip by assumption; reflexivity).
  rewrite split_app by (apply plain_value_not; [reflexivity|exact Hcode]).
  rewrite split_no_sep by (apply plain_value_not; [reflexivity|exact Hvalue]).
  change (NmeaGnssUnit.item 0 [code; value]) with (@Ok string code).
  change (NmeaGnssUnit.item 1 [code; value]) with (@Ok string value).
  cbn [mbind result_bind]. rewrite Hn. cbn [mbind result_bind].
  cbn [In] in Hin.
  repeat (destruct Hin as [Hin|Hin]; [injection Hin as <- <- <-; reflexivity|]).
  destruct Hin.
Qed.

(** X15.  The reply to the message that asks for the angles, with the two
    values after their codes, each written as a decimal number with four
    decimals and below 8192 degrees in size: [Result] reads both as pseudo
    degrees. *)
Theorem Result_reads_angles (a b : string) (x y : Q) :
  plain_value a = true -> plain_value b = true ->
  float_of_str a = Ok x -> float_of_str b = Ok y ->
  pdeg_reading x -> pdeg_reading y ->
  exists msg,
    GetAnglesMsg = Ok msg
    /\ Result msg ("7=" ++ a ++ "|8=" ++ b)
       = Ok (<["v" := VAngle (pdeg2rad y)]>
             (<["hz" := VAngle (pdeg2rad x)]> ∅)).
Proof.
  intros Ha Hb Hx Hy _ _. exists "RG,7|RG,8". split; [reflexivity|].
  unfold Result.
  change (split "|" "RG,7|RG,8") with ["RG,7"; "RG,8"].
  change ("7=" ++ a ++ "|8=" ++ b)
    with (("7" ++ String "=" a) ++ String "|" ("8" ++ String "=" b)).
  rewrite split_app, split_no_sep;
    try (rewrite all_chars_app; cbn [all_chars];
         rewrite plain_value_not by (try assumption; reflexivity);
         reflexivity).
  cbn [zip zip_with for_each decode_part].
  change (String.length (strip "RG,7") =? 0)%nat with false.
  change (String.length (strip "RG,8") =? 0)%nat with false.
  cbv iota.
  rewrite !split_no_sep;
    try (rewrite all_chars_app; cbn [all_chars];
         rewrite plain_value_not by (try assumption; reflexivity);
         reflexivity).
  cbn [for_each].
  rewrite (decode_line_known ∅ "7" a 7 "hz" pdeg_angle);
    [|cbn [In]; auto|reflexivity|exact Ha|reflexivity].
  unfold pdeg_angle at 1. rewrite Hx. cbn [mbind result_bind].
  rewrite init_pdeg. cbn [mbind result_bind].
  rewrite (decode_line_known _ "8" b 8 "v" pdeg_angle);
    [|cbn [In]; auto|reflexivity|exact Hb|reflexivity].
  unfold pdeg_angle. rewrite Hy. cbn [mbind result_bind].
  rewrite init_pdeg. reflexivity.
Qed.


(** X16.  [SetEDMModeMsg] raises a [KeyError] for a name that is not in the
    table of the unit.  The tracking program replaces such a name by
    [FAST] before the call, so its call returns one of the messages
    [PG,30] to [PG,34] and sets [edmMode] to the code in it. *)
Theorem SetEDMModeMsg_guarded (edm : string) :
  (edm ∉ MeasureToPrism.edmModes Trimble5500 ->
   SetEDMModeMsg (ModeName edm) = Exc KeyError)
  /\ exists code,
       SetEDMModeMsg
         (ModeName (if bool_decide (edm ∈ MeasureToPrism.edmModes Trimble5500)
                    then edm else "FAST"))
       = Ok ("PG,3" ++ fmt_d code, code)
       /\ (0 <= code <= 4)%Z
       /\ GetEDMModeMsg code = code.
Proof.
  split.
  - intros Hout. unfold SetEDMModeMsg, Trimble5500Unit.edmModes.
    cbn [lookup_table MeasureToPrism.edmModes] in *.
    repeat match goal with
           | |- context [String.eqb ?k edm] =>
               destruct (String.eqb_spec k edm) as [<-|_];
               [exfalso; apply Hout; set_solver|]
           end.
    reflexivity.
  - destruct (bool_decide_reflect (edm ∈ MeasureToPrism.edmModes Trimble5500))
      as [Hin|_].
    + cbn [MeasureToPrism.edmModes] in Hin.
      repeat (apply elem_of_cons in Hin as [->|Hin];
              [eexists; split; [reflexivity|split; [lia|reflexivity]]|]).
      apply elem_of_nil in Hin. destruct Hin.
    + eexists. split; [reflexivity|]. split; [lia|reflexivity].
Qed.

End TrimbleFacts.

Lemma Result_reads_angles_witness :
  exists msg,
    Trimble5500Unit.GetAnglesMsg = Ok msg
    /\ Trimble5500Unit.Result msg ("7=" ++ "12.3456" ++ "|8=" ++ "90.0000")
       = Ok (<["v" := VAngle (pdeg2rad 90.0000)]>
             (<["hz" := VAngle (pdeg2rad 12.3456)]> ∅)).
Proof.
  apply (Result_reads_angles "12.3456" "90.0000" 12.3456%Q 90.0000%Q);
    try reflexivity.
  - exists 123456%Z. split; [lia|reflexivity].
  - exists 900000%Z. split; [lia|reflexivity].
Defined.

Lemma Result_fields_witness :
  exists res,
    Trimble5500Unit.Result "RG,9" "9=12.5" = Ok res
    /\ forall k v, res !! k = Some v ->
                   Trimble5500Unit.decoded_field k v = true.
Proof.
  exists (<["distance" := VFloat 12.5]> ∅).
  split; [vm_compute; reflexivity|].
  apply (Result_fields "RG,9" "9=12.5"). vm_compute. reflexivity.
Defined.

Section FaceFacts.

Local Open Scope Q_scope.

Variable transport : nat -> reply.

Lemma has_false (key : string) (m : Measurement) :
  has key m = false -> m !! key = None.
Proof.
  unfold has. intros H. apply bool_decide_eq_false in H.
  destruct (m !! key); [destruct H; eauto|reflexivity].
Qed.

Lemma Qle_bool_scale (a b c : Q) :
  0 < c -> Qle_bool (a * c) (b * c) = Qle_bool a b.
Proof.
  intros Hc. apply eq_true_iff_eq. rewrite !Qle_bool_iff.
  apply Qmult_le_r, Hc.
Qed.

(** Below 200 gon is below [pi]. *)
Lemma gon_below_200 (z : Q) : Qltb (rad2gon z) 200 = Qltb z pi.
Proof.
  unfold Qltb, rad2gon. f_equal.
  assert (200 == 1 * 200) as E1 by ring.
  assert (pi == 1 * pi) as E2 by ring.
  assert (z == z / pi * pi) as E3 by (field; discriminate).
  rewrite (Qleb_comp _ _ E1 _ _ (Qeq_refl _)), Qle_bool_scale by reflexivity.
  rewrite (Qleb_comp _ _ E2 _ _ E3), Qle_bool_scale by reflexivity.
  reflexivity.
Qed.

(** X17.  [GetFace] makes one round trip, for the angles.  Without a zenith
    angle in the reply it logs the failure and returns [None]; with one, the
    face is left when the angle is below 200 gon, that is below [pi], and
    right from 200 gon on. *)
Theorem GetFace_by_zenith (w : world) :
  let reply := fst (transport (calls w)) in
  (has "v" reply = false ->
   exists w', GetFace transport w = Ok (None, w')
              /\ sent w' = sent w ++ [GetAnglesMsg]
              /\ logged w' = logged w ++ [" Getangles failed"%string])
  /\ (forall z, reply !! "v" = Some (VAngle z) ->
      exists w', GetFace transport w
                 = Ok (Some (<["face" := VInt (if Qltb z pi then 0 else 1)]> ∅),
                       w')
                 /\ sent w' = sent w ++ [GetAnglesMsg]
                 /\ logged w' = logged w).
Proof.
  intros reply. unfold GetFace, GetAngles. rewrite _process_eq.
  fold reply. split.
  - intros H. rewrite H. eexists. split; [reflexivity|]. split; reflexivity.
  - intros z Hz. rewrite (has_true _ _ _ Hz). unfold getitem. rewrite Hz.
    cbn [mbind result_bind GetAngleIn]. unfold asunit.
    change (resolve_unit (UnitName "GON")) with (@Ok AngleUnit GON).
    cbn [mbind result_bind as_float number_value].
    rewrite gon_below_200. eexists. split; [reflexivity|].
    split; reflexivity.
Qed.

(** X18.  [ChangeFace] without a message of the unit needs both angles: when
    the reply to the angle read lacks [hz], or has it and lacks [v], the
    call raises a [KeyError]. *)
Theorem ChangeFace_needs_angles (mu : MeasureUnit) (w : world) :
  ChangeFaceMsg_of mu = None ->
  let reply := fst (transport (calls w)) in
  (has "hz" reply = false -> ChangeFace mu transport w = Exc KeyError)
  /\ (forall h, reply !! "hz" = Some (VAngle h) -> has "v" reply = false ->
      ChangeFace mu transport w = Exc KeyError).
Proof.
  intros Hmu reply. unfold ChangeFace, GetAngles. rewrite Hmu, _process_eq.
  fold reply. split.
  - intros H. unfold getitem. rewrite (has_false _ _ H). reflexivity.
  - intros h Hh Hv. unfold getitem. rewrite Hh.
    cbn [mbind result_bind].
    change (__init__ (VInt 180 : pyval Q) (UnitName "DEG") false false)
      with (@Ok Q (deg2rad (inject_Z 180))).
    cbn [mbind result_bind].
    change (__init__ (VInt 360 : pyval Q) (UnitName "DEG") false false)
      with (@Ok Q (deg2rad (inject_Z 360))).
    cbn [mbind result_bind].
    rewrite lookup_insert_ne by discriminate.
    rewrite (has_false _ _ Hv). reflexivity.
Qed.

End FaceFacts.

Lemma ChangeFace_needs_angles_witness :
  (has "hz" (fst (no_v_transport (calls world0))) = false ->
   ChangeFace Trimble5500 no_v_transport world0 = Exc KeyError)
  /\ (forall h,
      fst (no_v_transport (calls world0)) !! "hz" = Some (VAngle h) ->
      has "v" (fst (no_v_transport (calls world0))) = false ->
      ChangeFace Trimble5500 no_v_transport world0 = Exc KeyError).
Proof.
  apply (ChangeFace_needs_angles no_v_transport Trimble5500 world0).
  reflexivity.
Defined.

(** ** The tracking loop: what it sends *)

Section LoopFacts.

Local Open Scope Q_scope.

Variable transport : nat -> reply.
Variable sin cos : Q -> Q.

Lemma only_reads_refl (w w' : world) : sent w' = sent w -> only_reads w w'.
Proof. intros H. exists []. rewrite app_nil_r. split; [exact H|constructor]. Qed.

Lemma only_reads_trans (w1 w2 w3 : world) :
  only_reads w1 w2 -> only_reads w2 w3 -> only_reads w1 w3.
Proof.
  intros (l1 & E1 & H1) (l2 & E2 & H2). exists (l1 ++ l2).
  rewrite E2, E1, app_assoc. split; [reflexivity|].
  apply Forall_app. split; assumption.
Qed.

Lemma only_reads_process (msg : Msg) (w : world) :
  In msg reads -> only_reads w (snd (_process transport msg w)).
Proof.
  intros H. rewrite _process_eq. exists [msg]. split; [reflexivity|].
  constructor; [exact H|constructor].
Qed.

Lemma only_reads_GetMeasure (w : world) :
  only_reads w (snd (GetMeasure transport 15000 0 w)).
Proof.
  destruct (GetMeasure transport 15000 0 w) as [meas w'] eqn:E.
  apply GetMeasure_reads in E as (k & _ & _ & Hs & _).
  exists (repeat (GetMeasureMsg 15000 0) k). split; [exact Hs|].
  apply Forall_forall. intros m Hm. apply list_elem_of_In in Hm.
  apply repeat_spec in Hm as ->. cbn. auto.
Qed.

Lemma store_frame (t : tracker) (w : world) (t' : tracker) (w' : world) :
  store sin cos t w = Ok (t', w') ->
  sent w' = sent w /\ mode t' = mode t /\ calls w' = calls w
  /\ state w' = state w.
Proof.
  unfold store. destruct (measurement t) as [m|]; [|discriminate].
  destruct (has "distance" m), (has "hz" m), (has "v" m);
    cbn [andb mbind result_bind fmap result_fmap];
    repeat match goal with
           | |- context [getitem ?k m] =>
               destruct (getitem k m);
               cbn [mbind result_bind fmap result_fmap]; [|discriminate]
           end;
    repeat match goal with
           | |- context [match ?x with Some _ => _ | None => _ end] =>
               destruct x; try discriminate
           end;
    repeat match goal with
           | |- context [GetAngle ?x] =>
               destruct (GetAngle x); cbn [mbind result_bind];
               [|discriminate]
           | |- context [as_float ?x] =>
               destruct (as_float x); cbn [mbind result_bind];
               [|discriminate]
           end;
    intros [= <- <-]; repeat split.
Qed.


Lemma only_reads_measure_distance (w : world) :
  only_reads w
    (snd (GetMeasure transport 15000 0
            (snd (Measure transport "DEFAULT" 0 w)))).
Proof.
  eapply only_reads_trans; [|apply only_reads_GetMeasure].
  apply only_reads_process. cbn. auto.
Qed.

(** A cycle of mode 5 sends measurements and reads only and keeps the
    mode. *)
Lemma mode5_frame (t : tracker) (w : world) (f : flow) :
  mode5 transport t w = Ok f ->
  exists t1 w1, (f = Continue t1 w1 \/ f = Store t1 w1)
                /\ mode t1 = mode t /\ only_reads w w1.
Proof.
  unfold mode5, GetAngles.
  pose proof (only_reads_process GetAnglesMsg w ltac:(cbn; auto)) as Hr.
  destruct (_process transport GetAnglesMsg w) as [m w0]. cbn [snd] in Hr.
  cbn [moving set_measurement last_hz last_v prev_hz prev_v limit].
  assert (forall t0, mode t0 = mode t ->
            (getitem "hz" m ≫= λ prev_hz : pyval Q,
             getitem "v" m ≫= λ prev_v : pyval Q,
               Ok (Continue (set_prev prev_hz prev_v t0) w0)) = Ok f ->
            exists t1 w1, (f = Continue t1 w1 \/ f = Store t1 w1)
                          /\ mode t1 = mode t /\ only_reads w w1) as Hjump.
  { intros t0 Ht0. destruct (getitem "hz" m); cbn [mbind result_bind];
      [|discriminate].
    destruct (getitem "v" m); cbn [mbind result_bind]; [|discriminate].
    intros [= <-]. eexists _, _. split; [left; reflexivity|].
    split; [exact Ht0|exact Hr]. }
  destruct (moving t).
  - destruct (within (prev_hz t) _ _ _) as [c1|]; cbn [mbind result_bind];
      [|discriminate].
    destruct c1; [|apply Hjump; reflexivity].
    destruct (within (prev_v t) _ _ _) as [c2|]; cbn [mbind result_bind];
      [|discriminate].
    destruct c2; [|apply Hjump; reflexivity].
    cbn [n set_n set_measurement]. destruct (n t + 1 <=? 3)%Z.
    + intros [= <-]. eexists _, _. split; [left; reflexivity|].
      split; [reflexivity|exact Hr].
    + pose proof (only_reads_measure_distance w0) as Hd.
      destruct (Measure transport "DEFAULT" 0 w0) as [m0 w00].
      cbn [snd] in Hd.
      destruct (GetMeasure _ _ _ _) as [m1 w1]. cbn [snd] in Hd.
      destruct (getitem "hz" m1); cbn [mbind result_bind]; [|discriminate].
      destruct (getitem "v" m1); cbn [mbind result_bind]; [|discriminate].
      intros [= <-]. eexists _, _. split; [right; reflexivity|].
      split; [reflexivity|]. eapply only_reads_trans; eassumption.
  - destruct (within (last_hz t) _ _ _) as [c1|]; cbn [mbind result_bind];
      [|discriminate].
    destruct c1.
    + destruct (within (last_v t) _ _ _) as [c2|]; cbn [mbind result_bind];
        [|discriminate].
      destruct c2; cbn [negb]; intros [= <-]; eexists _, _;
        (split; [left; reflexivity|]); (split; [reflexivity|exact Hr]).
    + cbn [mbind result_bind negb]. intros [= <-]. eexists _, _.
      split; [left; reflexivity|]. split; [reflexivity|exact Hr].
Qed.

Lemma measure_frame (t : tracker) (w : world) (f : flow) :
  In (mode t) [0; 3; 4; 5]%Z ->
  measure transport t w = Ok f ->
  exists t1 w1, (f = Continue t1 w1 \/ f = Store t1 w1)
                /\ mode t1 = mode t /\ only_reads w w1.
Proof.
  intros Hmode. unfold measure.
  pose proof (only_reads_measure_distance w) as Hd.
  pose proof (only_reads_process GetAnglesMsg w ltac:(cbn; auto)) as Hr.
  cbn [In] in Hmode.
  destruct Hmode as [E|[E|[E|[E|[]]]]]; symmetry in E; rewrite E;
    cbn [Z.eqb Pos.eqb];
    [| | |intros H; apply mode5_frame in H; rewrite E in H; exact H];
    unfold GetAngles in *;
    repeat match goal with
           | |- context [Measure ?a ?b ?c ?d] =>
               destruct (Measure a b c d) as [m0 w0]; cbn [snd] in *
           | |- context [GetMeasure ?a ?b ?c ?d] =>
               destruct (GetMeasure a b c d) as [m1 w1]; cbn [snd] in *
           | |- context [_process ?a ?b ?c] =>
               destruct (_process a b c) as [m1 w1]; cbn [snd] in *
           end;
    intros [= <-]; eexists _, _; (split; [right; reflexivity|]);
    (split; [exact E|assumption]).
Qed.

Lemma cycle_frame (t : tracker) (w : world) (t' : tracker) (w' : world) :
  In (mode t) [0; 3; 4; 5]%Z ->
  cycle transport sin cos t w = Ok (t', w') ->
  mode t' = mode t /\ only_reads w w'.
Proof.
  intros Hmode. unfold cycle.
  destruct (measure transport t w) as [f|] eqn:E; cbn [mbind result_bind];
    [|discriminate].
  apply (measure_frame _ _ _ Hmode) in E
    as (t1 & w1 & [-> | ->] & Hm & Hr).
  - intros [= <- <-]. auto.
  - intros H. apply store_frame in H as (Hs & Hm' & _).
    split; [congruence|].
    eapply only_reads_trans; [exact Hr|apply only_reads_refl, Hs].
Qed.

Lemma cycles_frame (k : nat) : forall t w t' w',
  In (mode t) [0; 3; 4; 5]%Z ->
  cycles transport sin cos k t w = Ok (t', w') ->
  only_reads w w'.
Proof.
  induction k as [|k IH]; intros t w t' w' Hmode; cbn [cycles].
  - intros [= <- <-]. apply only_reads_refl. reflexivity.
  - destruct (state_ok (state w));
      [|intros [= <- <-]; apply only_reads_refl; reflexivity].
    destruct (cycle transport sin cos t w) as [[t1 w1]|] eqn:E;
      cbn [mbind result_bind]; [|discriminate].
    apply (cycle_frame _ _ _ _ Hmode) in E as [Hm Hr].
    intros H. apply IH in H; [|rewrite Hm; exact Hmode].
    eapply only_reads_trans; eassumption.
Qed.

(** X19.  In the modes 0, 3, 4 and 5 the loop never turns the instrument:
    whatever the replies, all it sends in any number of turns are distance
    measurements and reads of the distance and of the angles. *)
Theorem loop_sends_reads_only (k : nat) (t : tracker) (w : world)
    (t' : tracker) (w' : world) :
  In (mode t) [0; 3; 4; 5]%Z ->
  cycles transport sin cos k t w = Ok (t', w') ->
  exists l,
    sent w' = sent w ++ l
    /\ Forall (fun m => In m [MeasureMsg "DEFAULT" 0; GetMeasureMsg 15000 0;
                              GetAnglesMsg]) l.
Proof. apply cycles_frame. Qed.


Lemma measure_unknown_mode (t : tracker) (w : world) :
  (mode t < 0 \/ 5 < mode t)%Z -> measure transport t w = Ok (Store t w).
Proof.
  intros H. unfold measure.
  repeat match goal with
         | |- context [Z.eqb (mode t) ?k] =>
             destruct (Z.eqb_spec (mode t) k); [lia|]
         end.
  reflexivity.
Qed.

(** X20.  The mode is not checked.  With a negative mode the program gets
    through its start and fails in the first turn of the loop with a
    [NameError], as no measurement was made.  With a mode above 5 no turn of
    the loop talks to the instrument: nothing is sent, and the state of the
    interface, on which the loop ends, stays as it is. *)
Theorem mode_out_of_range (mu : MeasureUnit) (edm : string) (w : world) :
  (forall mode, (mode < 0)%Z ->
     exists t w', init mu transport mode edm w = Ok (t, w')
                  /\ cycle transport sin cos t w' = Exc NameError)
  /\ (forall k t t' w', (5 < MeasureToPrism.mode t)%Z ->
        cycles transport sin cos k t w = Ok (t', w') ->
        sent w' = sent w /\ calls w' = calls w /\ state w' = state w).
Proof.
  split.
  - intros md Hmd. unfold init, SetEDMMode, SetATR. rewrite !_process_eq.
    assert ((0 <? md)%Z = false) as -> by (apply Z.ltb_ge; lia).
    eexists _, _. split; [reflexivity|].
    unfold cycle. rewrite measure_unknown_mode by (cbn [mode]; lia).
    reflexivity.
  - intros k. revert w. induction k as [|k IH]; intros w0 t t' w' Hmode;
      cbn [cycles].
    + intros [= <- <-]. auto.
    + destruct (state_ok (state w0)); [|intros [= <- <-]; auto].
      unfold cycle. rewrite measure_unknown_mode by lia.
      cbn [mbind result_bind].
      destruct (store sin cos t w0) as [[t1 w1]|] eqn:E;
        cbn [mbind result_bind]; [|discriminate].
      apply store_frame in E as (Hs & Hm & Hc & Hst).
      intros H. apply IH in H as (Hs' & Hc' & Hst'); [|lia].
      repeat split; congruence.
Qed.

End LoopFacts.

Lemma loop_sends_reads_only_witness :
  exists t' w',
    cycles (scripted [still; still]) (fun x => x) (fun x => x) 2
           angles_only_tracker world0 = Ok (t', w')
    /\ exists l,
         sent w' = sent world0 ++ l
         /\ Forall (fun m => In m [MeasureMsg "DEFAULT" 0;
                                   GetMeasureMsg 15000 0; GetAnglesMsg]) l.
Proof.
  destruct (cycles (scripted [still; still]) (fun x => x) (fun x => x) 2
                   angles_only_tracker world0) as [[t' w']|e] eqn:E;
    [|vm_compute in E; discriminate E].
  exists t', w'. split; [reflexivity|].
  apply (loop_sends_reads_only (scripted [still; still]) (fun x => x)
           (fun x => x) 2 angles_only_tracker world0 t' w');
    [cbn; auto|exact E].
Defined.

(** ** The horizontal section without distances *)

Section BlindScan.

Local Open Scope Q_scope.

Variable py : python.
Variable mu : MeasureUnit.
Variable transport : nat -> reply.
Variable cos acos : Q -> Q.
Variable self : HorizontalSection.

(** What [GetMeasure] returns is a reply of the instrument, and the state
    of the interface is the one after that reply. *)
Lemma GetMeasure_while_reply (msg : Msg) (fuel : nat) :
  forall i meas w,
    (exists j, meas = fst (transport j) /\ state w = snd (transport j)) ->
    exists j,
      fst (GetMeasure_while transport fuel msg i meas w) = fst (transport j)
      /\ state (snd (GetMeasure_while transport fuel msg i meas w))
         = snd (transport j).
Proof.
  induction fuel as [|fuel IH]; intros i meas w H; cbn [GetMeasure_while];
    [exact H|].
  destruct (negb (has "distance" meas) && (i <? 20)%Z); [|exact H].
  rewrite _process_eq. apply IH. eexists. split; reflexivity.
Qed.

Lemma GetMeasure_reply (wait incl : Z) (w : world) :
  exists j,
    fst (GetMeasure transport wait incl w) = fst (transport j)
    /\ state (snd (GetMeasure transport wait incl w)) = snd (transport j).
Proof.
  unfold GetMeasure. rewrite _process_eq. apply GetMeasure_while_reply.
  eexists. split; reflexivity.
Qed.

Lemma startp_while_reply (fuel : nat) :
  forall i startp wd,
    (exists j, startp = fst (transport j) /\ state wd = snd (transport j)) ->
    exists j,
      fst (startp_while transport fuel i startp wd) = fst (transport j)
      /\ state (snd (startp_while transport fuel i startp wd))
         = snd (transport j).
Proof.
  induction fuel as [|fuel IH]; intros i startp wd H; cbn [startp_while];
    [exact H|].
  destruct (negb (has "distance" startp) && (i <? 20)%Z); [|exact H].
  destruct (GetMeasure_reply 15000 0 (sleep 2 wd)) as (j & E1 & E2).
  destruct (GetMeasure transport 15000 0 (sleep 2 wd)) as [m w1].
  cbn [fst snd] in E1, E2. apply IH. eauto.
Qed.

Section NoDistance.

Hypothesis no_distance : forall k, has "distance" (fst (transport k)) = false.

Lemma next_direction_cases (wd : world) (act : Q) (w : bool)
    (r : Q * bool * world) :
  (wd' ← next_direction transport self wd;
   (Returns (act, w, wd') : outcome (Q * bool * world))) = Returns r ->
  fst (fst r) = act.
Proof.
  destruct (next_direction transport self wd); cbn [mbind outcome_bind];
    try discriminate.
  intros [= <-]. reflexivity.
Qed.

(** Without a distance a turn of the loop does not advance [act]. *)
Lemma point_keeps_act (fuel : nat) (height0 act : Q) (w : bool) (wd : world)
    (r : Q * bool * world) :
  point py mu transport cos acos self fuel height0 act w wd = Returns r ->
  fst (fst r) = act.
Proof.
  unfold point. destruct (Measure transport "DEFAULT" 0 wd) as [m0 wd0].
  destruct (negb (state_ok (state wd0))); [apply next_direction_cases|].
  set (wd1 := match mu with Trimble5500 => sleep 5 wd0 | _ => wd0 end).
  destruct (GetMeasure_reply 15000 0 wd1) as (j & E & _).
  destruct (GetMeasure transport 15000 0 wd1) as [nextp wd2].
  cbn [fst] in E.
  destruct (negb (state_ok (state wd2))); [apply next_direction_cases|].
  rewrite E, no_distance. cbn [negb]. rewrite orb_true_r. cbn [orb].
  apply next_direction_cases.
Qed.

Lemma around_blind (turns fuel : nat) (height0 act : Q) :
  Qltb act (maxa self) = true ->
  forall w wd,
    around py mu transport cos acos self turns fuel height0 act w wd
    = OutOfFuel
    \/ exists e,
         around py mu transport cos acos self turns fuel height0 act w wd
         = Raises e.
Proof.
  intros Hlt. induction turns as [|turns IH]; intros w wd; cbn [around];
    rewrite Hlt; [left; reflexivity|].
  destruct (point py mu transport cos acos self fuel height0 act w wd)
    as [[[act' w'] wd']|e|] eqn:E; cbn [mbind outcome_bind]; eauto.
  apply point_keeps_act in E. cbn [fst] in E. subst act'. apply IH.
Qed.

End NoDistance.

(** X21.  When the instrument never gives a distance, the loop around the circle
    never comes to its end: every turn steps to the next direction without
    advancing the angle [act] on which the loop ends, so no number of turns
    is enough (unless a call raises). *)
Theorem scan_without_distance (turns fuel : nat) (height0 act : Q)
    (w : bool) (wd : world) :
  (forall k, has "distance" (fst (transport k)) = false) ->
  Qltb act (maxa self) = true ->
  around py mu transport cos acos self turns fuel height0 act w wd = OutOfFuel
  \/ exists e,
       around py mu transport cos acos self turns fuel height0 act w wd
       = Raises e.
Proof. intros H Hlt. apply around_blind; assumption. Qed.

(** X22.  [run] with no elevation and no start direction given: when the start
    point cannot be measured because no distance ever comes, while the
    interface stays in order and no error code is reported, the waiting loop
    gives up after 20 more reads and [run] raises a [KeyError]; it does not
    return 1. *)
Theorem run_without_start_distance (turns fuel : nat) (wd : world) :
  elev self = None -> hz_start self = None ->
  (forall k, has "distance" (fst (transport k)) = false) ->
  (forall k, snd (transport k) = IF_OK) ->
  (forall k, has "errorCode" (fst (transport k)) = false) ->
  (forall k z, fst (transport k) !! "v" = Some z -> exists a, z = VAngle a) ->
  run py mu transport cos acos self turns fuel wd = Raises KeyError.
Proof.
  intros He Hs Hd Hst Herr Hv. unfold run.
  destruct (Measure transport "DEFAULT" 0 wd) as [m0 wd0].
  rewrite Hs. cbn [mbind outcome_bind].
  destruct (GetMeasure_reply 15000 0 wd0) as (j & E1 & E2).
  destruct (GetMeasure transport 15000 0 wd0) as [startp wd1].
  cbn [fst snd] in E1, E2.
  destruct (startp_while_reply 20 0 startp wd1) as (j' & E1' & E2');
    [eauto|].
  destruct (startp_while transport 20 0 startp wd1) as [startp' wd2].
  cbn [fst snd] in E1', E2'.
  rewrite E2', Hst, E1', Herr. cbn [state_ok negb orb].
  rewrite He. unfold height_of, getitem.
  destruct (fst (transport j') !! "v") as [z|] eqn:Ez; [|reflexivity].
  destruct (Hv _ _ Ez) as [a ->]. cbn [mbind result_bind GetAngle].
  rewrite (has_false _ _ (Hd j')). reflexivity.
Qed.

End BlindScan.

Lemma scan_without_distance_witness :
  around Python2 LeicaTPS1200 (scripted []) (fun x => x) (fun x => x)
         section_half 3 5 (1 # 2) 0 true world0 = OutOfFuel
  \/ exists e,
       around Python2 LeicaTPS1200 (scripted []) (fun x => x) (fun x => x)
              section_half 3 5 (1 # 2) 0 true world0 = Raises e.
Proof.
  apply (scan_without_distance Python2 LeicaTPS1200 (scripted [])
           (fun x => x) (fun x => x) section_half 3 5 (1 # 2) 0 true world0);
    [intros k; unfold scripted; rewrite lookup_nil; reflexivity|reflexivity].
Defined.

Lemma run_without_start_distance_witness :
  run Python2 LeicaTPS1200 (scripted []) (fun x => x) (fun x => x)
      (mkHorizontalSection None None (deg2rad 45) PI2 10 (1 # 50)) 3 5 world0
  = Raises KeyError.
Proof.
  apply (run_without_start_distance Python2 LeicaTPS1200 (scripted [])
           (fun x => x) (fun x => x)
           (mkHorizontalSection None None (deg2rad 45) PI2 10 (1 # 50))
           3 5 world0);
    try reflexivity;
    intros k; unfold scripted; rewrite lookup_nil; try reflexivity.
  intros z Hz. cbn [default fst] in Hz. rewrite lookup_empty in Hz.
  discriminate Hz.
Defined.

(** ** The check of a configuration *)

Section CheckFacts.

Import ConfReader.

Local Open Scope string_scope.

Variable V : Type.
Variable type_of : V -> pytype.
Variable py_eq : V -> V -> bool.

Lemma get_In {A : Type} (key : string) (d : list (string * A)) (v : A) :
  get key d = Some v -> In (key, v) d.
Proof.
  induction d as [|[k x] d IH]; cbn [get]; [discriminate|].
  destruct (String.eqb_spec k key) as [->|_].
  - intros [= ->]. left. reflexivity.
  - intros H. right. apply IH, H.
Qed.

Lemma get_NoDup {A : Type} (key : string) (d : list (string * A)) (v : A) :
  NoDup (map fst d) -> In (key, v) d -> get key d = Some v.
Proof.
  induction d as [|[k x] d IH]; cbn [get map fst]; [intros _ []|].
  intros Hnd [E|Hin]; apply NoDup_cons in Hnd as [Hk Hnd].
  - injection E as -> ->. rewrite String.eqb_refl. reflexivity.
  - destruct (String.eqb_spec k key) as [->|_]; [|apply IH; assumption].
    exfalso. apply Hk. apply list_elem_of_In, in_map_iff.
    exists (key, v). auto.
Qed.

Lemma get_app {A : Type} (key : string) (d d' : list (string * A)) :
  get key (d ++ d') = match get key d with
                      | Some v => Some v
                      | None => get key d'
                      end.
Proof.
  induction d as [|[k x] d IH]; [reflexivity|].
  cbn [get app]. destruct (String.eqb k key); [reflexivity|exact IH].
Qed.

Lemma mem_app {A : Type} (key : string) (d d' : list (string * A)) :
  mem key (d ++ d') = mem key d || mem key d'.
Proof. unfold mem. rewrite get_app. destruct (get key d); reflexivity. Qed.

(** The first loop keeps the items of the configuration and adds, after
    them, the defaults of parameters that were missing. *)
Lemma Check_required_adds (pars : list (string * pardef V)) :
  forall json log b json' log',
    Check_required V pars json log = Ok (b, json', log') ->
    exists added,
      json' = (json ++ added)%list
      /\ Forall (fun item => mem (fst item) json = false
                            /\ exists pd, In (fst item, pd) pars
                                          /\ default pd = Some (snd item))
                added.
Proof.
  induction pars as [|[par pd] pars IH]; intros json log b json' log';
    cbn [Check_required].
  - intros [= _ <- _]. exists []. rewrite app_nil_r. split; [reflexivity|].
    constructor.
  - destruct (required pd) as [req|]; [|discriminate].
    destruct (req && negb (mem par json)).
    + intros [= _ <- _]. exists []. rewrite app_nil_r.
      split; [reflexivity|constructor].
    + intros H. apply IH in H as (added & -> & Hall).
      destruct (default pd) as [d|] eqn:Ed;
        [destruct (mem par json) eqn:Em; cbn [negb] in *|].
      * exists added. split; [reflexivity|].
        eapply Forall_impl; [exact Hall|].
        intros item (Hm & pd' & Hin & Hd). split; [exact Hm|].
        exists pd'. split; [right; exact Hin|exact Hd].
      * exists ((par, d) :: added). rewrite <- app_assoc.
        split; [reflexivity|]. constructor.
        -- split; [exact Em|]. exists pd. split; [left; reflexivity|exact Ed].
        -- eapply Forall_impl; [exact Hall|].
           intros item (Hm & pd' & Hin & Hd).
           rewrite mem_app in Hm. apply orb_false_iff in Hm as [Hm _].
           split; [exact Hm|].
           exists pd'. split; [right; exact Hin|exact Hd].
      * exists added. split; [reflexivity|].
        eapply Forall_impl; [exact Hall|].
        intros item (Hm & pd' & Hin & Hd). split; [exact Hm|].
        exists pd'. split; [right; exact Hin|exact Hd].
Qed.


Lemma Check_required_true (pars : list (string * pardef V)) :
  forall json log json' log',
    Check_required V pars json log = Ok (true, json', log') ->
    log' = log
    /\ forall par pd, In (par, pd) pars ->
         (required pd = Some true \/ default pd <> None) ->
         mem par json' = true.
Proof.
  induction pars as [|[par pd] pars IH]; intros json log json' log';
    cbn [Check_required].
  - intros [= <- <-]. split; [reflexivity|]. intros ? ? [].
  - destruct (required pd) as [req|] eqn:Er; [|discriminate].
    destruct (req && negb (mem par json)) eqn:Eq; [discriminate|].
    intros H. pose proof (Check_required_adds _ _ _ _ _ _ H) as (added & E & _).
    apply IH in H as [Hlog Hrest]. split; [exact Hlog|].
    intros par' pd' [[= <- <-]|Hin] Hwant; [|apply (Hrest _ _ Hin Hwant)].
    rewrite E, mem_app. apply orb_true_iff. left.
    destruct (default pd) as [d|] eqn:Ed.
    + destruct (mem par json) eqn:Em; cbn [negb]; [exact Em|].
      rewrite mem_app. apply orb_true_iff. right.
      unfold mem. cbn [get]. rewrite String.eqb_refl. reflexivity.
    + destruct Hwant as [Hreq|Hd]; [|congruence].
      rewrite Er in Hreq. injection Hreq as ->. cbn [andb] in Eq.
      apply negb_false_iff in Eq. exact Eq.
Qed.

Section Files.

Variable isfile : V -> result bool.

Lemma Check_values_true (pars : list (string * pardef V)) :
  forall items log log',
    Check_values V type_of py_eq isfile pars items log = Ok (true, log') ->
    Forall (fun item => forall pd,
              get (fst item) pars = Some pd ->
              Check_value V type_of py_eq isfile (fst item) pd (snd item)
              = Ok None) items.
Proof.
  induction items as [|[par v] items IH]; intros log log';
    cbn [Check_values]; [constructor|].
  destruct (get par pars) as [pd|] eqn:Eg.
  - destruct (Check_value V type_of py_eq isfile par pd v) as [[line|]|] eqn:Ev;
      cbn [mbind result_bind]; try discriminate.
    intros H. constructor; [|apply (IH _ _ H)].
    cbn [fst snd]. intros pd' Hpd. rewrite Eg in Hpd.
    injection Hpd as <-. exact Ev.
  - intros H. constructor; [|apply (IH _ _ H)].
    cbn [fst]. intros pd' Hpd. congruence.
Qed.

Lemma pytype_eqb_eq (a b : pytype) : pytype_eqb a b = true <-> a = b.
Proof.
  destruct a, b; cbn; split; try congruence.
  - intros H. apply String.eqb_eq in H. congruence.
  - intros [= ->]. apply String.eqb_refl.
Qed.

(** A value that passes the test of the second loop has the type its
    definition names, for [int], [float] and [list], and is in the [set] of
    the definition. *)
Lemma Check_value_passes (par : string) (pd : pardef V) (v : V) (ty : string) :
  Check_value V type_of py_eq isfile par pd v = Ok None ->
  type_ pd = Some ty ->
  (ty = "int" -> type_of v = TInt)
  /\ (ty = "float" -> type_of v = TInt \/ type_of v = TFloat)
  /\ (ty = "list" -> type_of v = TList)
  /\ (forall values, set_ pd = Some values -> py_in V py_eq v values = true).
Proof.
  unfold Check_value. intros H Hty. rewrite Hty in H.
  assert (forall r : result (option logline),
            (r ≫= λ mismatch,
               match mismatch with
               | Some line => Ok (Some line)
               | None =>
                   match set_ pd with
                   | Some values =>
                       if negb (py_in V py_eq v values)
                       then Ok (Some (error ("invalid value: " ++ par)))
                       else Ok None
                   | None => Ok None
                   end
               end) = Ok None ->
            forall values, set_ pd = Some values ->
                           py_in V py_eq v values = true) as Hset.
  { intros r Hr values Hv. rewrite Hv in Hr.
    destruct r as [[line|]|]; cbn [mbind result_bind] in Hr;
      try discriminate Hr.
    destruct (py_in V py_eq v values); [reflexivity|discriminate Hr]. }
  split; [|split; [|split]]; [| | |eapply Hset; exact H]; intros E;
    rewrite E in H; clear Hset.
  - destruct (pytype_eqb (type_of v) TInt) eqn:Et;
      [apply pytype_eqb_eq, Et|discriminate H].
  - destruct (pytype_eqb (type_of v) TInt) eqn:Et;
      [left; apply pytype_eqb_eq, Et|].
    destruct (pytype_eqb (type_of v) TFloat) eqn:Ef;
      [right; apply pytype_eqb_eq, Ef|discriminate H].
  - destruct (pytype_eqb (type_of v) TList) eqn:Et;
      [apply pytype_eqb_eq, Et|discriminate H].
Qed.

(** X23.  When [Check] returns [True]: the configuration is what it was with,
    after it, the defaults of parameters that were missing; every
    parameter that is required or has a default is in it; and every value
    of a parameter whose definition names a type is of that type, for
    [int], [float] and [list], and is in the [set] of the definition. *)
Theorem Check_sound (pars : list (string * pardef V))
    (json : list (string * V)) (log : list logline)
    (json' : list (string * V)) (log' : list logline) :
  Check V type_of py_eq isfile (Some pars) json log = Ok (true, json', log') ->
  (exists added,
     json' = (json ++ added)%list
     /\ Forall (fun item => mem (fst item) json = false
                            /\ exists pd, In (fst item, pd) pars
                                          /\ default pd = Some (snd item))
               added)
  /\ (forall par pd, In (par, pd) pars ->
        required pd = Some true \/ default pd <> None ->
        mem par json' = true)
  /\ (forall par v pd ty,
        In (par, v) json' -> get par pars = Some pd -> type_ pd = Some ty ->
        (ty = "int" -> type_of v = TInt)
        /\ (ty = "float" -> type_of v = TInt \/ type_of v = TFloat)
        /\ (ty = "list" -> type_of v = TList)
        /\ (forall values, set_ pd = Some values ->
                           py_in V py_eq v values = true)).
Proof.
  unfold Check.
  destruct (Check_required V pars json log) as [[[go json1] log1]|] eqn:E1;
    cbn [mbind result_bind]; [|discriminate].
  destruct go; [|discriminate].
  destruct (Check_values V type_of py_eq isfile pars json1 log1)
    as [[ok log2]|] eqn:E2; cbn [mbind result_bind]; [|discriminate].
  intros [= -> <- <-].
  split; [apply (Check_required_adds _ _ _ _ _ _ E1)|].
  split; [apply (Check_required_true _ _ _ _ _ E1)|].
  intros par v pd ty Hin Hg Hty.
  apply Check_values_true in E2.
  rewrite Forall_forall in E2. apply list_elem_of_In in Hin.
  specialize (E2 _ Hin pd Hg). cbn [fst snd] in E2.
  apply (Check_value_passes _ _ _ _ E2 Hty).
Qed.

Lemma Check_values_untyped (pars : list (string * pardef V)) :
  (forall par pd, In (par, pd) pars -> type_ pd = None) ->
  forall items log,
    exists log', Check_values V type_of py_eq isfile pars items log
                 = Ok (true, log').
Proof.
  intros Hno. induction items as [|[par v] items IH]; intros log;
    cbn [Check_values]; [eauto|].
  destruct (get par pars) as [pd|] eqn:Eg; [|apply IH].
  unfold Check_value. rewrite (Hno _ _ (get_In _ _ _ Eg)).
  cbn [mbind result_bind]. apply IH.
Qed.

End Files.

Lemma Check_required_result (pars : list (string * pardef V)) :
  NoDup (map fst pars) ->
  forall json log b json' log',
    Check_required V pars json log = Ok (b, json', log') ->
    (b = true <->
     forall par pd, In (par, pd) pars -> required pd = Some true ->
                    mem par json = true).
Proof.
  induction pars as [|[par pd] pars IH]; intros Hnd json log b json' log';
    cbn [Check_required].
  - intros [= <- _ _]. split; [intros _ ? ? []|reflexivity].
  - cbn [map fst] in Hnd. apply NoDup_cons in Hnd as [Hpar Hnd].
    destruct (required pd) as [req|] eqn:Er; [|discriminate].
    destruct (req && negb (mem par json)) eqn:Eq.
    + intros [= <- _ _]. split; [discriminate|]. intros H.
      apply andb_true_iff in Eq as [-> Em]. apply negb_true_iff in Em.
      rewrite (H par pd (or_introl eq_refl) Er) in Em. discriminate Em.
    + intros H. apply (IH Hnd) in H. rewrite H. clear H.
      assert (forall par', In par' (map fst pars) ->
                mem par' (match default pd with
                          | Some d => if negb (mem par json)
                                      then (json ++ [(par, d)])%list
                                      else json
                          | None => json
                          end) = mem par' json) as Hsame.
      { intros par' Hin. destruct (default pd) as [d|]; [|reflexivity].
        destruct (negb (mem par json)); [|reflexivity].
        rewrite mem_app. unfold mem at 2. cbn [get].
        destruct (String.eqb_spec par par') as [->|_];
          [|apply orb_false_r].
        exfalso. apply Hpar, list_elem_of_In, Hin. }
      split.
      * intros Hall par' pd' [[= <- <-]|Hin] Hreq.
        -- rewrite Er in Hreq. injection Hreq as ->. cbn [andb] in Eq.
           apply negb_false_iff in Eq. exact Eq.
        -- rewrite <- Hsame; [apply (Hall _ _ Hin Hreq)|].
           apply in_map_iff. exists (par', pd'). auto.
      * intros Hall par' pd' Hin Hreq.
        rewrite Hsame; [apply (Hall _ _ (or_intror Hin) Hreq)|].
        apply in_map_iff. exists (par', pd'). auto.
Qed.

Lemma Check_value_agree (isfile1 isfile2 : V -> result bool) (par : string)
    (pd : pardef V) (v : V) :
  (type_ pd = Some "file" -> type_of v = TStr) ->
  Check_value V type_of py_eq isfile1 par pd v
  = Check_value V type_of py_eq isfile2 par pd v.
Proof.
  intros H. unfold Check_value. destruct (type_ pd) as [ty|]; [|reflexivity].
  assert (String.eqb ty "file" && negb (pytype_eqb (type_of v) TStr)
          = false) as ->; [|reflexivity].
  destruct (String.eqb_spec ty "file") as [->|_]; [|reflexivity].
  rewrite H by reflexivity. reflexivity.
Qed.

Lemma Check_values_agree (isfile1 isfile2 : V -> result bool)
    (pars : list (string * pardef V)) (items : list (string * V)) :
  (forall par v pd, In (par, v) items -> get par pars = Some pd ->
     type_ pd = Some "file" -> type_of v = TStr) ->
  forall log,
    Check_values V type_of py_eq isfile1 pars items log
    = Check_values V type_of py_eq isfile2 pars items log.
Proof.
  induction items as [|[par v] items IH]; intros Hitems log;
    [reflexivity|].
  cbn [Check_values].
  assert (forall log0,
            Check_values V type_of py_eq isfile1 pars items log0
            = Check_values V type_of py_eq isfile2 pars items log0) as IH'.
  { apply IH. intros par' v' pd' Hin. apply Hitems. right. exact Hin. }
  destruct (get par pars) as [pd|] eqn:Eg; [|apply IH'].
  rewrite (Check_value_agree isfile1 isfile2 par pd v)
    by (apply (Hitems par v pd); [left; reflexivity|exact Eg]).
  destruct (Check_value V type_of py_eq isfile2 par pd v) as [[line|]|];
    cbn [mbind result_bind]; try reflexivity.
  apply IH'.
Qed.

(** X24.  A value of a parameter of type [file] that is a [str] passes the test
    of its type without a question to the file system: when the values and
    defaults of these parameters are of the type [str], [Check] gives the
    same result, the same configuration and the same log whether the files
    exist or not. *)
Theorem Check_ignores_files (isfile1 isfile2 : V -> result bool)
    (pars : list (string * pardef V)) (json : list (string * V))
    (log : list logline) :
  NoDup (map fst pars) ->
  (forall par pd, In (par, pd) pars -> type_ pd = Some "file" ->
     (forall v, In (par, v) json -> type_of v = TStr)
     /\ (forall d, default pd = Some d -> type_of d = TStr)) ->
  Check V type_of py_eq isfile1 (Some pars) json log
  = Check V type_of py_eq isfile2 (Some pars) json log.
Proof.
  intros Hnd Hstr. unfold Check.
  destruct (Check_required V pars json log) as [[[go json1] log1]|] eqn:E1;
    cbn [mbind result_bind]; [|reflexivity].
  destruct go; [|reflexivity].
  apply Check_required_adds in E1 as (added & -> & Hadded).
  assert (Check_values V type_of py_eq isfile1 pars (json ++ added) log1
          = Check_values V type_of py_eq isfile2 pars (json ++ added) log1)
    as ->; [|reflexivity].
  apply Check_values_agree.
  intros par v pd Hin Hg Hty. pose proof (get_In _ _ _ Hg) as Hpd.
  destruct (Hstr _ _ Hpd Hty) as [Hv Hd].
  apply in_app_or in Hin as [Hin|Hin]; [apply Hv, Hin|].
  rewrite Forall_forall in Hadded. apply list_elem_of_In in Hin.
  destruct (Hadded _ Hin) as (_ & pd2 & Hin2 & Hd2). cbn [fst snd] in *.
  apply Hd. rewrite (get_NoDup _ _ _ Hnd Hin2) in Hg. congruence.
Qed.

(** X25.  When no definition names a type, no value is tested, not even against
    the [set] of its definition: [Check] returns [True] exactly when no
    required parameter is missing. *)
Theorem Check_without_types (isfile : V -> result bool)
    (pars : list (string * pardef V)) (json : list (string * V))
    (log : list logline) (b : bool) (json' : list (string * V))
    (log' : list logline) :
  NoDup (map fst pars) ->
  (forall par pd, In (par, pd) pars -> type_ pd = None) ->
  Check V type_of py_eq isfile (Some pars) json log = Ok (b, json', log') ->
  (b = true <->
   forall par pd, In (par, pd) pars -> required pd = Some true ->
                  mem par json = true).
Proof.
  intros Hnd Hno. unfold Check.
  destruct (Check_required V pars json log) as [[[go json1] log1]|] eqn:E1;
    cbn [mbind result_bind]; [|discriminate].
  apply (Check_required_result _ Hnd) in E1.
  destruct go.
  - destruct (Check_values_untyped isfile pars Hno json1 log1) as [l ->].
    cbn [mbind result_bind]. intros [= <- _ _]. exact E1.
  - intros [= <- _ _]. exact E1.
Qed.

End CheckFacts.

Lemma Check_sound_witness :
  ConfReader.mem "faces"
    (config ++ [("faces", JInt 1)]) = true.
Proof.
  apply (proj1 (proj2
           (Check_sound json_value json_type json_eq no_files config_pars
              config [] (config ++ [("faces", JInt 1)]) [] eq_refl))
           "faces"
           (ConfReader.mkPardef (Some false) (Some (JInt 1)) (Some "int") None)).
  - cbn. auto.
  - right. discriminate.
Defined.

Lemma Check_ignores_files_witness :
  ConfReader.Check json_value json_type json_eq no_files (Some config_pars)
    config []
  = ConfReader.Check json_value json_type json_eq all_files
      (Some config_pars) config [].
Proof.
  apply (Check_ignores_files json_value json_type json_eq no_files all_files
           config_pars config []).
  - apply (bool_decide_unpack _). vm_compute. exact I.
  - intros par pd Hin Hty. cbn [config_pars In] in Hin.
    repeat (destruct Hin as [Hin|Hin];
            [injection Hin as <- <-; try discriminate Hty|]);
      [|destruct Hin].
    split; [|discriminate].
    intros v Hv. cbn [config In] in Hv.
    repeat (destruct Hv as [Hv|Hv]; [injection Hv as <-; try reflexivity|]);
      try discriminate; destruct Hv.
Defined.

Lemma Check_without_types_witness :
  true = true <->
  forall par pd, In (par, pd) met_pars ->
                 ConfReader.required pd = Some true ->
                 ConfReader.mem par [("met", JStr "BAROMETER")] = true.
Proof.
  apply (Check_without_types json_value json_type json_eq no_files met_pars
           [("met", JStr "BAROMETER")] [] true
           [("met", JStr "BAROMETER")] []).
  - apply (bool_decide_unpack _). vm_compute. exact I.
  - intros par pd [[= <- <-]|[]]. reflexivity.
  - reflexivity.
Defined.
